(** * BaristaCMS: the email-to-record ingestion pipeline

    A shallow embedding of
      - [server/services/email.js]          (subject tag parser, mailbox calls),
      - [server/services/emailProcessor.js] (the scheduled automatic pass),
      - the email-inbox router               (manual [/process] and
                                              [/process-single/:emailId],
                                              the listing [/unprocessed]),
    with the timer of the scheduled pass and the cache of the mail
    configuration, followed by the properties of the pipeline.

    Strings are sequences of code units; the embedding covers code units
    below 256 (one [ascii] each).  On that range the JavaScript notions used
    by the source are: white space ([\s], [trim]) = TAB, LF, VT, FF, CR,
    SPACE, NBSP; [toLowerCase] = the ASCII letters and the Latin-1 capitals
    192..222 (without 215); a case-insensitive regular expression compares
    ASCII letters without case and every other code unit exactly. *)

From Stdlib Require Import String Ascii List Bool Arith ZArith Lia DecimalString Permutation.
Import ListNotations.
Local Open Scope string_scope.
Local Open Scope list_scope.
Local Open Scope nat_scope.

(** String concatenation, written apart from list concatenation. *)
Infix "+++" := String.append (at level 60, right associativity).

(* ================================================================== *)
(** ** JavaScript strings *)
(* ================================================================== *)

Module Js.

Definition code (c : ascii) : nat := nat_of_ascii c.

(** White space of [\s] and of [String.prototype.trim]. *)
Definition is_ws (c : ascii) : bool :=
  let n := code c in
  ((9 <=? n) && (n <=? 13)) || (n =? 32) || (n =? 160).

(** The class [[ \t]]. *)
Definition is_blank (c : ascii) : bool :=
  let n := code c in (n =? 32) || (n =? 9).

Definition is_newline (c : ascii) : bool := code c =? 10.

Definition lower_char (c : ascii) : ascii :=
  let n := code c in
  if ((65 <=? n) && (n <=? 90))
     || ((192 <=? n) && (n <=? 222) && negb (n =? 215))
  then ascii_of_nat (n + 32) else c.

(** Canonicalisation of a code unit under the [i] flag: only ASCII letters
    fold on this range. *)
Definition fold_char (c : ascii) : ascii :=
  let n := code c in
  if (65 <=? n) && (n <=? 90) then ascii_of_nat (n + 32) else c.

Fixpoint map (f : ascii -> ascii) (s : string) : string :=
  match s with
  | EmptyString => EmptyString
  | String c s' => String (f c) (map f s')
  end.

Definition toLowerCase (s : string) : string := map lower_char s.

(** SQLite's [LOWER()] folds the ASCII letters only. *)
Definition sql_lower (s : string) : string := map fold_char s.

Fixpoint skip_ws (s : string) : string :=
  match s with
  | String c s' => if is_ws c then skip_ws s' else s
  | EmptyString => EmptyString
  end.

Fixpoint all_ws (s : string) : bool :=
  match s with
  | EmptyString => true
  | String c s' => is_ws c && all_ws s'
  end.

Fixpoint trimEnd (s : string) : string :=
  match s with
  | EmptyString => EmptyString
  | String c s' => if all_ws s then EmptyString else String c (trimEnd s')
  end.

Definition trim (s : string) : string := trimEnd (skip_ws s).

(** [s.startsWith(p)] *)
Fixpoint startsWith (p s : string) : bool :=
  match p, s with
  | EmptyString, _ => true
  | String a p', String b s' => Ascii.eqb a b && startsWith p' s'
  | String _ _, EmptyString => false
  end.

(** A literal pattern under the [i] flag, anchored at the head of [s]. *)
Fixpoint startsWith_ci (p s : string) : bool :=
  match p, s with
  | EmptyString, _ => true
  | String a p', String b s' =>
      Ascii.eqb (fold_char a) (fold_char b) && startsWith_ci p' s'
  | String _ _, EmptyString => false
  end.

(** [s.includes(p)] *)
Fixpoint includes (p s : string) : bool :=
  startsWith p s ||
  match s with
  | EmptyString => false
  | String _ s' => includes p s'
  end.

Fixpoint drop (n : nat) (s : string) : string :=
  match n, s with
  | 0, _ => s
  | S k, String _ s' => drop k s'
  | S _, EmptyString => EmptyString
  end.

(** [s.substring(0, n)] *)
Fixpoint take (n : nat) (s : string) : string :=
  match n, s with
  | S k, String c s' => String c (take k s')
  | _, _ => EmptyString
  end.

(** A string in a boolean context: only the empty string is falsy. *)
Definition truthy (s : string) : bool :=
  match s with EmptyString => false | _ => true end.

(** [a || b] on strings. *)
Definition or_else (a b : string) : string := if truthy a then a else b.

(** Template interpolation of a non-negative integer. *)
Definition of_nat (n : nat) : string := NilEmpty.string_of_uint (Nat.to_uint n).

(** [s.replace(/re/g, rep)] for a pattern that never matches the empty
    string and looks at nothing before the position it is tried at:
    [m t] is the length of the match of the pattern at the head of [t].
    The scan emits [rep] for a match and resumes after it, and copies one
    code unit where the pattern does not match. *)
Fixpoint replace_from (m : string -> option nat) (rep : string)
         (skip : nat) (s : string) : string :=
  match s with
  | EmptyString => EmptyString
  | String c s' =>
      match skip with
      | S k => replace_from m rep k s'
      | 0 =>
          match m s with
          | Some (S n) => rep +++ replace_from m rep n s'
          | _ => String c (replace_from m rep 0 s')
          end
      end
  end.

Definition replace_all (m : string -> option nat) (rep s : string) : string :=
  replace_from m rep 0 s.

(** A literal pattern under the flags [gi]. *)
Definition lit_ci (p : string) (s : string) : option nat :=
  if startsWith_ci p s then Some (String.length p) else None.

(** Length of the longest prefix of [s] that lies in the class [cls]. *)
Fixpoint span (cls : ascii -> bool) (s : string) : nat :=
  match s with
  | String c s' => if cls c then S (span cls s') else 0
  | EmptyString => 0
  end.

(** Offset of the first position at which [p] matches without case. *)
Fixpoint find_ci (p s : string) : option nat :=
  if startsWith_ci p s then Some 0 else
  match s with
  | EmptyString => None
  | String _ s' => option_map S (find_ci p s')
  end.

End Js.

(* ================================================================== *)
(** ** Subject tag parser  ([server/services/email.js]) *)
(* ================================================================== *)

Record TagParse := {
  moduleName : option string;      (* [null] is [None] *)
  cleanSubject : string
}.

(** [[^\]]+\]] at the head of [s]: the captured run and what follows the
    closing bracket.  The class cannot cross a [']'], so the greedy run ends
    at the first one. *)
Fixpoint until_rbracket (s : string) : option (string * string) :=
  match s with
  | EmptyString => None
  | String c s' =>
      if Ascii.eqb c "]" then Some (EmptyString, s')
      else match until_rbracket s' with
           | Some (x, r) => Some (String c x, r)
           | None => None
           end
  end.

(** No closing bracket occurs in [s]. *)
Fixpoint no_rbracket (s : string) : bool :=
  match s with
  | EmptyString => true
  | String c s' => negb (Ascii.eqb c "]") && no_rbracket s'
  end.

(** [/^\[([^\]]+)\]/]: the capture group and the text after the match. *)
Definition match_tag (s : string) : option (string * string) :=
  match s with
  | String c s' =>
      if Ascii.eqb c "[" then
        match until_rbracket s' with
        | Some (String x xs, r) => Some (String x xs, r)
        | _ => None
        end
      else None
  | EmptyString => None
  end.

(** [parseModuleTagFromSubject(subject)].  The second pattern,
    [/^\[[^\]]+\]\s*/], matches exactly when the first does, and removes the
    same prefix together with the white space behind it. *)
Definition parseModuleTagFromSubject (subject : string) : TagParse :=
  match match_tag subject with
  | Some (tag, rest) =>
      {| moduleName := Some (Js.trim (Js.toLowerCase tag));
         cleanSubject := Js.trim (Js.skip_ws rest) |}
  | None => {| moduleName := None; cleanSubject := subject |}
  end.

(** [isImageContentType(contentType)] *)
Definition isImageContentType (contentType : option string) : bool :=
  match contentType with
  | Some ct => Js.truthy ct && Js.startsWith "image/" ct
  | None => false
  end.

(* ================================================================== *)
(** ** Regular expressions of the content extractor *)
(* ================================================================== *)

Module Re.

Definition nl : string := String (ascii_of_nat 10) EmptyString.
Definition dquote : ascii := ascii_of_nat 34.
Definition squote : ascii := ascii_of_nat 39.

Definition not_gt (c : ascii) : bool := negb (Ascii.eqb c ">").
Definition not_lt (c : ascii) : bool := negb (Ascii.eqb c "<").
Definition is_quote (c : ascii) : bool := Ascii.eqb c dquote || Ascii.eqb c squote.
Definition not_quote (c : ascii) : bool := negb (is_quote c).

(** [/<br\s*\/?>/gi] *)
Definition br (s : string) : option nat :=
  if Js.startsWith_ci "<br" s then
    let t := Js.drop 3 s in
    let k := Js.span Js.is_ws t in
    match Js.drop k t with
    | String a u =>
        if Ascii.eqb a ">" then Some (3 + k + 1)
        else if Ascii.eqb a "/" then
          match u with
          | String b _ => if Ascii.eqb b ">" then Some (3 + k + 2) else None
          | EmptyString => None
          end
        else None
    | EmptyString => None
    end
  else None.

(** [/<\/h[1-6]>/gi] *)
Definition heading_close (s : string) : option nat :=
  if Js.startsWith_ci "</h" s then
    match Js.drop 3 s with
    | String d (String g _) =>
        if (49 <=? Js.code d) && (Js.code d <=? 54) && Ascii.eqb g ">"
        then Some 5 else None
    | _ => None
    end
  else None.

(** [/<name[^>]*>[\s\S]*?<\/name>/gi] for [name] = [style], [script]:
    the opening tag runs to the first [>], the lazy body to the first
    closing tag. *)
Definition block (name : string) (s : string) : option nat :=
  let opening := "<" +++ name in
  let closing := "</" +++ name +++ ">" in
  if Js.startsWith_ci opening s then
    let t := Js.drop (String.length opening) s in
    let k := Js.span not_gt t in
    match Js.drop k t with
    | String _ body =>
        match Js.find_ci closing body with
        | Some j => Some (String.length opening + k + 1 + j + String.length closing)
        | None => None
        end
    | EmptyString => None
    end
  else None.

(** [/<[^>]+>/g] *)
Definition tag (s : string) : option nat :=
  match s with
  | String c t =>
      if Ascii.eqb c "<" then
        let k := Js.span not_gt t in
        match k, Js.drop k t with
        | S _, String _ _ => Some (k + 2)
        | _, _ => None
        end
      else None
  | EmptyString => None
  end.

(** [/[ \t]+/g] *)
Definition blanks (s : string) : option nat :=
  match Js.span Js.is_blank s with
  | 0 => None
  | k => Some k
  end.

(** [/\n[ \t]+/g] *)
Definition nl_blanks (s : string) : option nat :=
  match s with
  | String c t =>
      if Js.is_newline c then
        match Js.span Js.is_blank t with
        | 0 => None
        | k => Some (S k)
        end
      else None
  | EmptyString => None
  end.

(** [/[ \t]+\n/g]: the greedy run of blanks must be followed by LF;
    giving back blanks cannot help, a blank is not LF. *)
Definition blanks_nl (s : string) : option nat :=
  match Js.span Js.is_blank s with
  | 0 => None
  | k =>
      match Js.drop k s with
      | String c _ => if Js.is_newline c then Some (S k) else None
      | EmptyString => None
      end
  end.

(** [/\n{3,}/g] *)
Definition newlines3 (s : string) : option nat :=
  let k := Js.span Js.is_newline s in
  if 3 <=? k then Some k else None.

(** The tail of the anchor pattern from [href=] on (an opening quote of
    either kind, one or more characters that are no quote, a closing
    quote, the rest of the tag up to [>], the text up to [<], and the
    closing tag) at the head of [u]: URL, anchor text, length of the match.
    Each class excludes the character that must follow it, so every
    greedy run has one possible end. *)
Definition href (u : string) : option (string * string * nat) :=
  if Js.startsWith_ci "href=" u then
    match Js.drop 5 u with
    | String q v =>
        if is_quote q then
          match Js.span not_quote v with
          | 0 => None
          | n =>
              match Js.drop n v with
              | String _ x =>
                  let k := Js.span not_gt x in
                  match Js.drop k x with
                  | String _ y =>
                      let j := Js.span not_lt y in
                      if Js.startsWith_ci "</a>" (Js.drop j y)
                      then Some (Js.take n v, Js.take j y,
                                 5 + 1 + n + 1 + k + 1 + j + 4)
                      else None
                  | EmptyString => None
                  end
              | EmptyString => None
              end
          end
        else None
    | EmptyString => None
    end
  else None.

(** [\s+[^>]*] before [href=]: both runs stay inside the leading run of
    characters other than [>], and the greedy search gives back one
    character at a time, so the tail is matched at the rightmost position
    of that run where it matches at all.  The length counts from the head
    of [t]. *)
Fixpoint last_href (t : string) : option (string * string * nat) :=
  match t with
  | EmptyString => None
  | String c t' =>
      if not_gt c then
        match last_href t' with
        | Some (url, text, len) => Some (url, text, S len)
        | None => href t
        end
      else None
  end.

(** The anchor pattern ([<a], white space, any attributes, then the tail
    above; flags [gi]) at the head of [s]. *)
Definition anchor (s : string) : option (string * string * nat) :=
  if Js.startsWith_ci "<a" s then
    match Js.drop 2 s with
    | String w t =>
        if Js.is_ws w then
          match last_href (String w t) with
          | Some (url, text, len) => Some (url, text, 2 + len)
          | None => None
          end
        else None
    | EmptyString => None
    end
  else None.

(** The loop [while ((match = anchorRegex.exec(html)) !== null)]: the
    captures of the successive matches, each search starting where the
    previous match ended. *)
Fixpoint anchors_from (skip : nat) (s : string) : list (string * string) :=
  match s with
  | EmptyString => []
  | String _ s' =>
      match skip with
      | S k => anchors_from k s'
      | 0 =>
          match anchor s with
          | Some (url, text, S n) => (url, text) :: anchors_from n s'
          | _ => anchors_from 0 s'
          end
      end
  end.

Definition anchors (html : string) : list (string * string) := anchors_from 0 html.

End Re.

(* ================================================================== *)
(** ** Content extractor *)
(* ================================================================== *)

Record Link := { url : string; title : string }.

(** The tests shared by both copies of [extractLinksFromHtml]. *)
Definition skipped_scheme (u : string) : bool :=
  Js.startsWith "mailto:" u || Js.startsWith "tel:" u ||
  Js.startsWith "javascript:" u || Js.startsWith "data:" u ||
  Js.startsWith "#" u.

(** [links.some(l => l.url === url)] *)
Definition has_url (u : string) (links : list Link) : bool :=
  existsb (fun l => String.eqb (url l) u) links.

(** The copies of [server/services/emailProcessor.js]. *)
Module Processor.

Definition htmlToPlainText (html : string) : string :=
  if negb (Js.truthy html) then EmptyString else
  let text := html in
  let text := Js.replace_all Re.br Re.nl text in
  let text := Js.replace_all (Js.lit_ci "</p>") (Re.nl +++ Re.nl) text in
  let text := Js.replace_all (Js.lit_ci "</div>") Re.nl text in
  let text := Js.replace_all (Re.block "style") EmptyString text in
  let text := Js.replace_all (Re.block "script") EmptyString text in
  let text := Js.replace_all Re.tag EmptyString text in
  let text := Js.replace_all (Js.lit_ci "&nbsp;") " " text in
  let text := Js.replace_all (Js.lit_ci "&amp;") "&" text in
  let text := Js.replace_all (Js.lit_ci "&lt;") "<" text in
  let text := Js.replace_all (Js.lit_ci "&gt;") ">" text in
  let text := Js.replace_all (Js.lit_ci "&quot;") (String Re.dquote EmptyString) text in
  let text := Js.replace_all Re.newlines3 (Re.nl +++ Re.nl) text in
  Js.trim text.

(** One turn of the extraction loop. *)
Definition add_link (links : list Link) (m : string * string) : list Link :=
  let u := fst m in
  let text := Js.trim (snd m) in
  if skipped_scheme u then links else
  let lowerUrl := Js.toLowerCase u in
  if Js.includes "unsubscribe" lowerUrl || Js.includes "tracking" lowerUrl
  then links else
  let title := Js.or_else text (Js.take 50 u) in
  if negb (has_url u links) && (String.length u <=? 2000)
  then links ++ [{| url := u; title := Js.take 255 title |}]
  else links.

Definition extractLinksFromHtml (html : string) : list Link :=
  if negb (Js.truthy html) then [] else
  fold_left add_link (Re.anchors html) [].

End Processor.

(** The copies of the email-inbox router.  [url_hostname u] stands for
    [new URL(u).hostname], [None] when the constructor throws. *)
Module Inbox.

Definition htmlToPlainText (html : string) : string :=
  if negb (Js.truthy html) then EmptyString else
  let text := html in
  let text := Js.replace_all Re.br Re.nl text in
  let text := Js.replace_all (Js.lit_ci "</p>") (Re.nl +++ Re.nl) text in
  let text := Js.replace_all (Js.lit_ci "</div>") Re.nl text in
  let text := Js.replace_all (Js.lit_ci "</li>") Re.nl text in
  let text := Js.replace_all (Js.lit_ci "</tr>") Re.nl text in
  let text := Js.replace_all Re.heading_close (Re.nl +++ Re.nl) text in
  let text := Js.replace_all (Re.block "style") EmptyString text in
  let text := Js.replace_all (Re.block "script") EmptyString text in
  let text := Js.replace_all Re.tag EmptyString text in
  let text := Js.replace_all (Js.lit_ci "&nbsp;") " " text in
  let text := Js.replace_all (Js.lit_ci "&amp;") "&" text in
  let text := Js.replace_all (Js.lit_ci "&lt;") "<" text in
  let text := Js.replace_all (Js.lit_ci "&gt;") ">" text in
  let text := Js.replace_all (Js.lit_ci "&quot;") (String Re.dquote EmptyString) text in
  let text := Js.replace_all (Js.lit_ci "&#39;") "'" text in
  let text := Js.replace_all (Js.lit_ci "&apos;") "'" text in
  let text := Js.replace_all Re.blanks " " text in
  let text := Js.replace_all Re.nl_blanks Re.nl text in
  let text := Js.replace_all Re.blanks_nl Re.nl text in
  let text := Js.replace_all Re.newlines3 (Re.nl +++ Re.nl) text in
  Js.trim text.

Definition skipped_noise (u : string) : bool :=
  let lowerUrl := Js.toLowerCase u in
  Js.includes "unsubscribe" lowerUrl || Js.includes "tracking" lowerUrl ||
  Js.includes "click." lowerUrl || Js.includes "emailtracking" lowerUrl.

Definition add_link (url_hostname : string -> option string)
           (links : list Link) (m : string * string) : list Link :=
  let u := fst m in
  let text := Js.trim (snd m) in
  if skipped_scheme u then links else
  if skipped_noise u then links else
  let title :=
    if Js.truthy text then text
    else match url_hostname u with
         | Some host => host
         | None => Js.take 50 u
         end in
  if negb (has_url u links)
  then links ++ [{| url := u; title := Js.take 255 title |}]
  else links.

Definition extractLinksFromHtml (url_hostname : string -> option string)
           (html : string) : list Link :=
  if negb (Js.truthy html) then [] else
  fold_left (add_link url_hostname) (Re.anchors html) [].

End Inbox.

(* ================================================================== *)
(** ** Data model *)
(* ================================================================== *)

(** A message as [fetchInboxEmails] returns it. *)
Module Email.
Record t := {
  id : string;
  subject : string;
  fromAddress : string;
  fromName : string;
  receivedAt : string;
  receivedAtISO : option string;   (* ghost: [new Date(receivedAt).toISOString()];
                                      [None] when it throws (an invalid date) *)
  bodyPreview : string;
  body : string;
  isRead : bool;
  hasAttachments : bool
}.
End Email.

(** The [config] column of a module, seen through
    [m.config ? JSON.parse(m.config) : {}]: absent or empty, text that
    [JSON.parse] rejects, or an object of which only the truthiness of
    [enableEmailInbox] and [autoProcessEmails] is read. *)
Inductive Config :=
| ConfigEmpty
| ConfigInvalid
| ConfigObject (enableEmailInbox autoProcessEmails : bool).

Module ModuleRow.
Record t := {
  id : nat;
  name : string;
  display_name : string;
  is_active : bool;
  config : Config
}.
End ModuleRow.

Inductive Status := processed | skipped | error.

(** A row of [processed_emails], the ledger. *)
Module Ledger.
Record t := {
  email_id : string;
  module_id : option nat;
  record_id : option nat;
  from_address : string;
  from_name : string;
  subject : string;
  body_preview : string;
  received_at : option string;
  status : Status;
  error_message : option string
}.
End Ledger.

Record RecordData := {
  description : string;
  email_from : string;
  email_from_name : string;
  email_subject : string;
  email_received_at : string
}.

(** A row of [module_records].  [origin] is not a column: it notes the id of
    the message the row was inserted for, so that statements can speak of
    the records created for a message. *)
Module RecordRow.
Record t := {
  id : nat;
  module_id : nat;
  name : string;
  status : string;
  data : RecordData;
  created_by : string;
  updated_by : string;
  origin : string
}.
End RecordRow.

Module History.
Record t := {
  record_id : nat;
  module_id : nat;
  action : string;
  description : string;
  changed_by : string;
  user_email : string
}.
End History.

Module LinkRow.
Record t := {
  record_id : nat;
  module_id : nat;
  url : string;
  title : string;
  description : string
}.
End LinkRow.

Module ImageRow.
Record t := {
  record_id : nat;
  module_id : nat;
  image_path : string;
  created_by : string
}.
End ImageRow.

Module DocumentRow.
Record t := {
  record_id : nat;
  module_id : nat;
  file_path : string;
  file_name : string;
  file_type : option string;
  file_size : nat;
  created_by : string
}.
End DocumentRow.

(** Attachment metadata as [getEmailAttachments] returns it. *)
Module Attachment.
Record t := {
  id : string;
  name : string;
  contentType : option string;
  size : nat;
  isInline : bool
}.
End Attachment.

(** Requests sent to the mailbox and to the mail sender. *)
Inductive Call :=
| ListMessages (maxResults : nat) (unreadOnly : bool)
| MarkRead (emailId : string)
| ListAttachments (emailId : string)
| Download (emailId attachmentId : string)
| SendAutoResponse (toEmail toName moduleName : string)
                   (moduleDisplayName : option string)
                   (recordId : nat) (originalSubject : string).

(** The state the pipeline reads and writes: the tables, the mailbox, the
    requests made so far (oldest first), the files written, and the
    module-level variables of the processor. *)
Record World := {
  modules : list ModuleRow.t;
  site_settings : list (string * string);
  module_records : list RecordRow.t;
  module_records_seq : nat;                 (* last rowid handed out *)
  processed_emails : list Ledger.t;
  record_images : list ImageRow.t;
  record_documents : list DocumentRow.t;
  record_links : list LinkRow.t;
  record_history : list History.t;
  mailbox : list Email.t;
  calls : list Call;
  files : list string;
  isProcessing : bool;
  debugLogging : bool
}.

(** What the surroundings answer while one message is handled. *)
Record AttachmentEnv := {
  meta : Attachment.t;
  download_ok : bool;          (* [downloadAttachment(..).success] *)
  uniqueId : string;           (* [randomBytes(8).toString('hex')] *)
  write_ok : bool;             (* [mkdirSync]/[writeFileSync] do not throw *)
  row_insert_ok : bool         (* the INSERT of the image or document row *)
}.

Record MsgEnv := {
  existing_query_ok : bool;    (* SELECT id FROM processed_emails ... *)
  module_query_ok : bool;      (* SELECT ... FROM modules WHERE LOWER(name) ... *)
  record_insert_ok : bool;     (* INSERT INTO module_records *)
  ledger_insert_ok : bool;     (* INSERT INTO processed_emails *)
  attachments : option (list AttachmentEnv);   (* [None]: listing failed *)
  link_insert_ok : string -> bool;             (* INSERT INTO record_links, by URL *)
  history_insert_ok : bool;    (* INSERT INTO record_history, 'created' *)
  auto_response_ok : bool;     (* [sendEmail(..).success] *)
  sent_history_insert_ok : bool;  (* INSERT INTO record_history, 'email_sent' *)
  mark_read_ok : bool          (* the PATCH of [markEmailAsRead] *)
}.

(** What the surroundings answer during one pass.  Statement failures are
    keyed by the id of the message they are executed for. *)
Record Env := {
  settings_query_ok : bool;    (* SELECT setting_value FROM site_settings *)
  modules_query_ok : bool;     (* SELECT ... FROM modules WHERE is_active = 1 *)
  fetch_ok : bool;             (* [fetchInboxEmails(..).success] *)
  url_hostname : string -> option string;
  msg_env : string -> MsgEnv
}.

(** *** Field updates *)

Definition set_records (rs : list RecordRow.t) (seq : nat) (w : World) : World :=
  {| modules := modules w; site_settings := site_settings w;
     module_records := rs; module_records_seq := seq;
     processed_emails := processed_emails w;
     record_images := record_images w; record_documents := record_documents w;
     record_links := record_links w; record_history := record_history w;
     mailbox := mailbox w; calls := calls w; files := files w;
     isProcessing := isProcessing w; debugLogging := debugLogging w |}.

Definition set_ledger (l : list Ledger.t) (w : World) : World :=
  {| modules := modules w; site_settings := site_settings w;
     module_records := module_records w; module_records_seq := module_records_seq w;
     processed_emails := l;
     record_images := record_images w; record_documents := record_documents w;
     record_links := record_links w; record_history := record_history w;
     mailbox := mailbox w; calls := calls w; files := files w;
     isProcessing := isProcessing w; debugLogging := debugLogging w |}.

Definition set_images (l : list ImageRow.t) (w : World) : World :=
  {| modules := modules w; site_settings := site_settings w;
     module_records := module_records w; module_records_seq := module_records_seq w;
     processed_emails := processed_emails w;
     record_images := l; record_documents := record_documents w;
     record_links := record_links w; record_history := record_history w;
     mailbox := mailbox w; calls := calls w; files := files w;
     isProcessing := isProcessing w; debugLogging := debugLogging w |}.

Definition set_documents (l : list DocumentRow.t) (w : World) : World :=
  {| modules := modules w; site_settings := site_settings w;
     module_records := module_records w; module_records_seq := module_records_seq w;
     processed_emails := processed_emails w;
     record_images := record_images w; record_documents := l;
     record_links := record_links w; record_history := record_history w;
     mailbox := mailbox w; calls := calls w; files := files w;
     isProcessing := isProcessing w; debugLogging := debugLogging w |}.

Definition set_links (l : list LinkRow.t) (w : World) : World :=
  {| modules := modules w; site_settings := site_settings w;
     module_records := module_records w; module_records_seq := module_records_seq w;
     processed_emails := processed_emails w;
     record_images := record_images w; record_documents := record_documents w;
     record_links := l; record_history := record_history w;
     mailbox := mailbox w; calls := calls w; files := files w;
     isProcessing := isProcessing w; debugLogging := debugLogging w |}.

Definition set_history (l : list History.t) (w : World) : World :=
  {| modules := modules w; site_settings := site_settings w;
     module_records := module_records w; module_records_seq := module_records_seq w;
     processed_emails := processed_emails w;
     record_images := record_images w; record_documents := record_documents w;
     record_links := record_links w; record_history := l;
     mailbox := mailbox w; calls := calls w; files := files w;
     isProcessing := isProcessing w; debugLogging := debugLogging w |}.

Definition set_mailbox (l : list Email.t) (w : World) : World :=
  {| modules := modules w; site_settings := site_settings w;
     module_records := module_records w; module_records_seq := module_records_seq w;
     processed_emails := processed_emails w;
     record_images := record_images w; record_documents := record_documents w;
     record_links := record_links w; record_history := record_history w;
     mailbox := l; calls := calls w; files := files w;
     isProcessing := isProcessing w; debugLogging := debugLogging w |}.

Definition set_calls (l : list Call) (w : World) : World :=
  {| modules := modules w; site_settings := site_settings w;
     module_records := module_records w; module_records_seq := module_records_seq w;
     processed_emails := processed_emails w;
     record_images := record_images w; record_documents := record_documents w;
     record_links := record_links w; record_history := record_history w;
     mailbox := mailbox w; calls := l; files := files w;
     isProcessing := isProcessing w; debugLogging := debugLogging w |}.

Definition set_files (l : list string) (w : World) : World :=
  {| modules := modules w; site_settings := site_settings w;
     module_records := module_records w; module_records_seq := module_records_seq w;
     processed_emails := processed_emails w;
     record_images := record_images w; record_documents := record_documents w;
     record_links := record_links w; record_history := record_history w;
     mailbox := mailbox w; calls := calls w; files := l;
     isProcessing := isProcessing w; debugLogging := debugLogging w |}.

Definition set_isProcessing (b : bool) (w : World) : World :=
  {| modules := modules w; site_settings := site_settings w;
     module_records := module_records w; module_records_seq := module_records_seq w;
     processed_emails := processed_emails w;
     record_images := record_images w; record_documents := record_documents w;
     record_links := record_links w; record_history := record_history w;
     mailbox := mailbox w; calls := calls w; files := files w;
     isProcessing := b; debugLogging := debugLogging w |}.

Definition set_debugLogging (b : bool) (w : World) : World :=
  {| modules := modules w; site_settings := site_settings w;
     module_records := module_records w; module_records_seq := module_records_seq w;
     processed_emails := processed_emails w;
     record_images := record_images w; record_documents := record_documents w;
     record_links := record_links w; record_history := record_history w;
     mailbox := mailbox w; calls := calls w; files := files w;
     isProcessing := isProcessing w; debugLogging := b |}.

(* ================================================================== *)
(** ** Effects: state that survives a thrown exception *)
(* ================================================================== *)

(** A computation ends by returning a value or by throwing; either way the
    writes made so far stay (no statement of the pipeline runs in a
    transaction). *)
Inductive result (A : Type) : Type :=
| Ret (a : A) (w : World)
| Exn (w : World).
Arguments Ret {A} a w.
Arguments Exn {A} w.

Definition M (A : Type) : Type := World -> result A.

Definition ret {A} (a : A) : M A := fun w => Ret a w.
Definition throw {A} : M A := fun w => Exn w.

Definition bind {A B} (m : M A) (k : A -> M B) : M B :=
  fun w => match m w with
           | Ret a w' => k a w'
           | Exn w' => Exn w'
           end.

(** [try { m } catch { h }] *)
Definition try_catch {A} (m h : M A) : M A :=
  fun w => match m w with
           | Ret a w' => Ret a w'
           | Exn w' => h w'
           end.

(** [try { m } catch { h } finally { f }], where [f] does not throw. *)
Definition try_catch_finally {A} (m h : M A) (f : World -> World) : M A :=
  fun w => match try_catch m h w with
           | Ret a w' => Ret a (f w')
           | Exn w' => Exn (f w')
           end.

Definition final {A} (r : result A) : World :=
  match r with Ret _ w => w | Exn w => w end.

Definition modify (f : World -> World) : M unit := fun w => Ret tt (f w).
Definition read {A} (f : World -> A) : M A := fun w => Ret (f w) w.

Notation "x <- m ;; k" := (bind m (fun x => k))
  (at level 61, m at next level, right associativity).
Notation "m ;;; k" := (bind m (fun _ => k))
  (at level 61, right associativity).

(** [for (const x of l) { body x }] *)
Fixpoint for_each {B} (l : list B) (body : B -> M unit) : M unit :=
  match l with
  | [] => ret tt
  | x :: l' => body x ;;; for_each l' body
  end.

(** A loop that threads local variables [acc] through its turns. *)
Fixpoint for_fold {B S} (l : list B) (body : S -> B -> M S) (acc : S) : M S :=
  match l with
  | [] => ret acc
  | x :: l' => acc' <- body acc x ;; for_fold l' body acc'
  end.

(* ================================================================== *)
(** ** Statements and service calls *)
(* ================================================================== *)

(** Is there a ledger row for this message id? *)
Definition ledgered (emailId : string) (w : World) : bool :=
  existsb (fun r => String.eqb (Ledger.email_id r) emailId) (processed_emails w).

(** [db.get('SELECT id FROM processed_emails WHERE email_id = ?', [id])],
    reduced to whether a row came back. *)
Definition get_existing (ok : bool) (emailId : string) : M bool :=
  fun w => if ok then Ret (ledgered emailId w) w else Exn w.

(** [INSERT INTO processed_emails]; [email_id] is declared [UNIQUE], so the
    statement also fails on a second row for the same message. *)
Definition insert_processed_email (ok : bool) (row : Ledger.t) : M unit :=
  fun w =>
    if ok && negb (ledgered (Ledger.email_id row) w)
    then Ret tt (set_ledger (processed_emails w ++ [row]) w)
    else Exn w.

(** [INSERT INTO module_records ... VALUES (?, ?, 'active', ?, ?, ?)]; the
    result is [lastInsertRowid]. *)
Definition insert_module_record (ok : bool) (emailId : string) (moduleId : nat)
           (name : string) (data : RecordData) (user : string) : M nat :=
  fun w =>
    if ok then
      let rid := S (module_records_seq w) in
      Ret rid
          (set_records
             (module_records w ++
              [{| RecordRow.id := rid; RecordRow.module_id := moduleId;
                  RecordRow.name := name; RecordRow.status := "active";
                  RecordRow.data := data; RecordRow.created_by := user;
                  RecordRow.updated_by := user; RecordRow.origin := emailId |}])
             rid w)
    else Exn w.

Definition insert_history (ok : bool) (row : History.t) : M unit :=
  fun w => if ok then Ret tt (set_history (record_history w ++ [row]) w) else Exn w.

Definition insert_link (ok : bool) (row : LinkRow.t) : M unit :=
  fun w => if ok then Ret tt (set_links (record_links w ++ [row]) w) else Exn w.

Definition insert_image (ok : bool) (row : ImageRow.t) : M unit :=
  fun w => if ok then Ret tt (set_images (record_images w ++ [row]) w) else Exn w.

Definition insert_document (ok : bool) (row : DocumentRow.t) : M unit :=
  fun w => if ok then Ret tt (set_documents (record_documents w ++ [row]) w) else Exn w.

(** [writeFileSync] under the uploads directory, noted by the web-relative
    path of the file. *)
Definition writeFileSync (ok : bool) (relativePath : string) : M unit :=
  fun w => if ok then Ret tt (set_files (files w ++ [relativePath]) w) else Exn w.

Definition log_call (c : Call) (w : World) : World := set_calls (calls w ++ [c]) w.

(** The defaults [fetchInboxEmails] fills in; the other fields default to
    the empty string, which is how an absent value is held here. *)
Definition with_default_subject (e : Email.t) : Email.t :=
  {| Email.id := Email.id e;
     Email.subject := Js.or_else (Email.subject e) "(No subject)";
     Email.fromAddress := Email.fromAddress e; Email.fromName := Email.fromName e;
     Email.receivedAt := Email.receivedAt e;
     Email.receivedAtISO := Email.receivedAtISO e;
     Email.bodyPreview := Email.bodyPreview e;
     Email.body := Email.body e; Email.isRead := Email.isRead e;
     Email.hasAttachments := Email.hasAttachments e |}.

(** The messages a listing shows: the first [maxResults] of the mailbox,
    which is kept newest first, or of its unread part. *)
Definition listed (maxResults : nat) (unreadOnly : bool) (mb : list Email.t)
  : list Email.t :=
  List.map with_default_subject
    (firstn maxResults
       (filter (fun e => negb unreadOnly || negb (Email.isRead e)) mb)).

(** [fetchInboxEmails({ maxResults, unreadOnly })]: [None] is
    [{ success: false }]. *)
Definition fetchInboxEmails (ok : bool) (maxResults : nat) (unreadOnly : bool)
  : M (option (list Email.t)) :=
  fun w =>
    let w' := log_call (ListMessages maxResults unreadOnly) w in
    if ok then Ret (Some (listed maxResults unreadOnly (mailbox w))) w'
    else Ret None w'.

Definition set_read (emailId : string) (e : Email.t) : Email.t :=
  if String.eqb (Email.id e) emailId then
    {| Email.id := Email.id e; Email.subject := Email.subject e;
       Email.fromAddress := Email.fromAddress e; Email.fromName := Email.fromName e;
       Email.receivedAt := Email.receivedAt e;
     Email.receivedAtISO := Email.receivedAtISO e;
     Email.bodyPreview := Email.bodyPreview e;
       Email.body := Email.body e; Email.isRead := true;
       Email.hasAttachments := Email.hasAttachments e |}
  else e.

(** [markEmailAsRead(emailId)]; it reports failure in its result, which no
    caller reads. *)
Definition markEmailAsRead (ok : bool) (emailId : string) : M unit :=
  fun w =>
    let w' := log_call (MarkRead emailId) w in
    if ok then Ret tt (set_mailbox (List.map (set_read emailId) (mailbox w')) w')
    else Ret tt w'.

(** [getEmailAttachments(emailId)] *)
Definition getEmailAttachments (listing : option (list AttachmentEnv))
           (emailId : string) : M (option (list AttachmentEnv)) :=
  fun w => Ret listing (log_call (ListAttachments emailId) w).

(** [downloadAttachment(emailId, attachmentId)], reduced to [success]. *)
Definition downloadAttachment (ok : bool) (emailId attachmentId : string) : M bool :=
  fun w => Ret ok (log_call (Download emailId attachmentId) w).

(** [sendAutoResponseEmail(...)], reduced to [success] of its result; the
    text of the reply is left out.  Its own failures are caught inside. *)
Definition sendAutoResponseEmail (ok : bool) (toEmail toName moduleName : string)
           (moduleDisplayName : option string) (recordId : nat)
           (originalSubject : string) : M bool :=
  fun w =>
    Ret ok (log_call (SendAutoResponse toEmail toName moduleName moduleDisplayName
                                       recordId originalSubject) w).

(** [s.replace('T', ' ')]: the first [T] only. *)
Fixpoint replace_first_T (s : string) : string :=
  match s with
  | EmptyString => EmptyString
  | String c s' => if Ascii.eqb c "T" then String " " s' else String c (replace_first_T s')
  end.

(** [toMySQLDatetime(isoString)].  The [Date] of the platform is not
    modelled: [toISOString] is what [new Date(isoString).toISOString()]
    yields, [None] when it throws, which the [catch] turns into [null]. *)
Definition toMySQLDatetime (toISOString : option string) (isoString : string)
  : option string :=
  if negb (Js.truthy isoString) then None
  else match toISOString with
       | Some iso => Some (replace_first_T (Js.take 19 iso))
       | None => None
       end.

(** [toMySQLDatetime(email.receivedAt)] *)
Definition received_at (email : Email.t) : option string :=
  toMySQLDatetime (Email.receivedAtISO email) (Email.receivedAt email).

(** Base name and extension around the last dot. *)
Fixpoint split_last_dot (s : string) : option (string * string) :=
  match s with
  | EmptyString => None
  | String c s' =>
      match split_last_dot s' with
      | Some (b, e) => Some (String c b, e)
      | None => if Ascii.eqb c "." then Some (EmptyString, s') else None
      end
  end.

(** [generateUniqueFilename(originalName)], with the random suffix given. *)
Definition generateUniqueFilename (uniqueId originalName : string) : string :=
  match split_last_dot originalName with
  | Some (baseName, ext) =>
      if Js.truthy ext then baseName +++ "-" +++ uniqueId +++ "." +++ ext
      else baseName +++ "-" +++ uniqueId
  | None => originalName +++ "-" +++ uniqueId
  end.

(** One turn of the loop over the attachments, with the two counters as
    loop variables. *)
Definition save_attachment (emailId : string) (recordId moduleId : nat)
           (userEmail : string) (counts : nat * nat) (a : AttachmentEnv)
  : M (nat * nat) :=
  let att := meta a in
  try_catch
    (downloaded <- downloadAttachment (download_ok a) emailId (Attachment.id att) ;;
     if negb downloaded then ret counts else
     let uniqueFilename := generateUniqueFilename (uniqueId a) (Attachment.name att) in
     let isImage := isImageContentType (Attachment.contentType att) in
     let subDir := if isImage then "images" else "documents" in
     let relativePath := "/uploads/" +++ subDir +++ "/" +++ uniqueFilename in
     writeFileSync (write_ok a) relativePath ;;;
     if isImage then
       insert_image (row_insert_ok a)
         {| ImageRow.record_id := recordId; ImageRow.module_id := moduleId;
            ImageRow.image_path := relativePath; ImageRow.created_by := userEmail |} ;;;
       ret (S (fst counts), snd counts)
     else
       insert_document (row_insert_ok a)
         {| DocumentRow.record_id := recordId; DocumentRow.module_id := moduleId;
            DocumentRow.file_path := relativePath;
            DocumentRow.file_name := Attachment.name att;
            DocumentRow.file_type := Attachment.contentType att;
            DocumentRow.file_size := Attachment.size att;
            DocumentRow.created_by := userEmail |} ;;;
       ret (fst counts, S (snd counts)))
    (ret counts).

(** [saveAttachments] of the processor and [saveEmailAttachments] of the
    router: the same statements, the router logs more.  The result is
    [{ images, documents }]. *)
Definition saveAttachments (me : MsgEnv) (emailId : string) (recordId moduleId : nat)
           (userEmail : string) : M (nat * nat) :=
  result <- getEmailAttachments (attachments me) emailId ;;
  match result with
  | None => ret (0, 0)
  | Some atts => for_fold atts (save_attachment emailId recordId moduleId userEmail) (0, 0)
  end.

(** The body of the loop over the links, with [savedCount] as loop
    variable; a failed insert is caught and passed over. *)
Definition save_link (me : MsgEnv) (recordId moduleId : nat)
           (u t : string) (savedCount : nat) : M nat :=
  try_catch
    (insert_link (link_insert_ok me u)
       {| LinkRow.record_id := recordId; LinkRow.module_id := moduleId;
          LinkRow.url := u; LinkRow.title := t;
          LinkRow.description := "Extracted from email" |} ;;;
     ret (S savedCount))
    (ret savedCount).

(** [saveLinks] of the processor. *)
Definition saveLinks (me : MsgEnv) (recordId moduleId : nat) (html : string) : M nat :=
  for_fold (Processor.extractLinksFromHtml html)
    (fun savedCount link =>
       save_link me recordId moduleId (url link) (title link) savedCount)
    0.

(** [saveEmailLinks] of the router: URLs longer than 2000 characters are
    passed over, titles are cut to 255 characters once more. *)
Definition saveEmailLinks (env : Env) (me : MsgEnv) (recordId moduleId : nat)
           (html : string) : M nat :=
  for_fold (Inbox.extractLinksFromHtml (url_hostname env) html)
    (fun savedCount link =>
       if 2000 <? String.length (url link) then ret savedCount
       else save_link me recordId moduleId (url link) (Js.take 255 (title link))
                      savedCount)
    0.

(** [loadDebugSetting(db)] *)
Fixpoint lookup_setting (key : string) (l : list (string * string)) : option string :=
  match l with
  | [] => None
  | (k, v) :: l' => if String.eqb k key then Some v else lookup_setting key l'
  end.

Definition loadDebugSetting (env : Env) : M unit :=
  fun w =>
    let on :=
      settings_query_ok env &&
      match lookup_setting "enable_debug_logging" (site_settings w) with
      | Some v => String.eqb v "true"
      | None => false
      end in
    Ret tt (set_debugLogging on w).

(* ================================================================== *)
(** ** Record creation (steps 5 to 11 of the per-message pipeline) *)
(* ================================================================== *)

(** The statements from the INSERT of the record to [markEmailAsRead] occur
    three times in the source: in [processEmails] (processor), in the
    handler of [POST /process] and in the handler of
    [POST /process-single/:emailId] (router).  The copies differ in four
    places, which [Variant] selects:
      - the HTML conversion and the link saver (processor's or router's),
      - the text of the history entry,
      - the user of the history entry (the sender; for the single-message
        handler [req.user?.email || 'system']),
      - [module.display_name], which the manual handlers do not select. *)
Inductive Variant :=
| Automatic
| Bulk
| Single (userEmail : option string).

Definition plain_text (v : Variant) (html : string) : string :=
  match v with
  | Automatic => Processor.htmlToPlainText html
  | _ => Inbox.htmlToPlainText html
  end.

Definition save_links (v : Variant) (env : Env) (me : MsgEnv)
           (recordId moduleId : nat) (html : string) : M nat :=
  match v with
  | Automatic => saveLinks me recordId moduleId html
  | _ => saveEmailLinks env me recordId moduleId html
  end.

Definition created_label (v : Variant) : string :=
  match v with
  | Automatic => "Record created from email (auto)"
  | Bulk => "Record created from email"
  | Single _ => "Record created from email (manual)"
  end.

Definition history_user (v : Variant) (email : Email.t) : string :=
  match v with
  | Single userEmail =>
      match userEmail with
      | Some u => Js.or_else u "system"
      | None => "system"
      end
  | _ => Email.fromAddress email
  end.

Definition shown_name (v : Variant) (module : ModuleRow.t) : option string :=
  match v with
  | Automatic => Some (ModuleRow.display_name module)
  | _ => None
  end.

(** [historyParts.join(', ')] *)
Fixpoint join (sep : string) (parts : list string) : string :=
  match parts with
  | [] => EmptyString
  | [p] => p
  | p :: rest => p +++ sep +++ join sep rest
  end.

(** The description of the 'created' history entry. *)
Definition historyDesc (label : string) (images documents linkCount : nat) : string :=
  let historyParts :=
    (if 0 <? images + documents
     then [Js.of_nat images +++ " image(s) and " +++ Js.of_nat documents +++ " document(s)"]
     else []) ++
    (if 0 <? linkCount then [Js.of_nat linkCount +++ " link(s)"] else []) in
  if 0 <? List.length historyParts
  then label +++ " with " +++ join ", " historyParts
  else label.

Definition recordData (v : Variant) (email : Email.t) (cleanSubject : string) : RecordData :=
  {| description :=
       plain_text v (Js.or_else (Email.body email)
                       (Js.or_else (Email.bodyPreview email) EmptyString));
     email_from := Email.fromAddress email;
     email_from_name := Email.fromName email;
     email_subject := cleanSubject;
     email_received_at := Email.receivedAt email |}.

Definition processed_row (email : Email.t) (moduleId recordId : nat) : Ledger.t :=
  {| Ledger.email_id := Email.id email;
     Ledger.module_id := Some moduleId;
     Ledger.record_id := Some recordId;
     Ledger.from_address := Email.fromAddress email;
     Ledger.from_name := Email.fromName email;
     Ledger.subject := Email.subject email;
     Ledger.body_preview := Email.bodyPreview email;
     Ledger.received_at := received_at email;
     Ledger.status := processed;
     Ledger.error_message := None |}.

Definition created_entry (v : Variant) (email : Email.t) (moduleId recordId : nat)
           (images documents linkCount : nat) : History.t :=
  {| History.record_id := recordId; History.module_id := moduleId;
     History.action := "created";
     History.description := historyDesc (created_label v) images documents linkCount;
     History.changed_by := history_user v email;
     History.user_email := history_user v email |}.

Definition sent_entry (email : Email.t) (moduleId recordId : nat) : History.t :=
  {| History.record_id := recordId; History.module_id := moduleId;
     History.action := "email_sent";
     History.description := "Auto-response email sent to " +++ Email.fromAddress email;
     History.changed_by := "system";
     History.user_email := "system" |}.

(** The result: record id, [attachmentCounts], [linkCount]. *)
Definition create_record (v : Variant) (env : Env) (uploadsDir : string)
           (email : Email.t) (module : ModuleRow.t) (cleanSubject : string)
  : M (nat * (nat * nat) * nat) :=
  let me := msg_env env (Email.id email) in
  let moduleId := ModuleRow.id module in
  recordId <- insert_module_record (record_insert_ok me) (Email.id email) moduleId
                (Js.or_else cleanSubject "Email") (recordData v email cleanSubject)
                (Email.fromAddress email) ;;
  insert_processed_email (ledger_insert_ok me) (processed_row email moduleId recordId) ;;;
  attachmentCounts <-
    (if Js.truthy uploadsDir
     then saveAttachments me (Email.id email) recordId moduleId (Email.fromAddress email)
     else ret (0, 0)) ;;
  linkCount <- save_links v env me recordId moduleId (Email.body email) ;;
  insert_history (history_insert_ok me)
    (created_entry v email moduleId recordId
       (fst attachmentCounts) (snd attachmentCounts) linkCount) ;;;
  sent <- sendAutoResponseEmail (auto_response_ok me)
            (Email.fromAddress email) (Email.fromName email)
            (ModuleRow.name module) (shown_name v module) recordId
            (Js.or_else cleanSubject (Email.subject email)) ;;
  (if sent
   then insert_history (sent_history_insert_ok me) (sent_entry email moduleId recordId)
   else ret tt) ;;;
  markEmailAsRead (mark_read_ok me) (Email.id email) ;;;
  ret (recordId, attachmentCounts, linkCount).

(** A module name in a boolean context: [null] and the empty string are
    falsy. *)
Definition named (moduleName : option string) : option string :=
  match moduleName with
  | Some n => if Js.truthy n then Some n else None
  | None => None
  end.

(* ================================================================== *)
(** ** The scheduled automatic pass  ([emailProcessor.js]) *)
(* ================================================================== *)

(** The filter that yields [autoProcessModules]. *)
Definition auto_enabled (m : ModuleRow.t) : bool :=
  match ModuleRow.config m with
  | ConfigObject enableEmailInbox autoProcessEmails =>
      enableEmailInbox && autoProcessEmails
  | _ => false
  end.

(** [db.all('SELECT id, name, display_name, config FROM modules WHERE
    is_active = 1')] *)
Definition all_active_modules (ok : bool) : M (list ModuleRow.t) :=
  fun w => if ok then Ret (filter ModuleRow.is_active (modules w)) w else Exn w.

(** [autoProcessModules.find(m => m.name.toLowerCase() ===
    moduleName.toLowerCase())] *)
Definition find_auto_module (autoProcessModules : list ModuleRow.t)
           (moduleName : string) : option ModuleRow.t :=
  find (fun m => String.eqb (Js.toLowerCase (ModuleRow.name m))
                            (Js.toLowerCase moduleName))
       autoProcessModules.

(** The body of [for (const email of result.emails)] in [processEmails].
    The lookup in the ledger stands outside the inner [try]. *)
Definition process_message_auto (env : Env) (uploadsDir : string)
           (autoProcessModules : list ModuleRow.t) (email : Email.t) : M unit :=
  let me := msg_env env (Email.id email) in
  existing <- get_existing (existing_query_ok me) (Email.id email) ;;
  if existing then ret tt else
  let parsed := parseModuleTagFromSubject (Email.subject email) in
  match named (moduleName parsed) with
  | None => ret tt
  | Some name =>
      match find_auto_module autoProcessModules name with
      | None => ret tt
      | Some module =>
          try_catch
            (create_record Automatic env uploadsDir email module (cleanSubject parsed) ;;;
             ret tt)
            (ret tt)
      end
  end.

(** [processEmails(db, uploadsDir)] *)
Definition processEmails (env : Env) (uploadsDir : string) : M unit :=
  loadDebugSetting env ;;;
  busy <- read isProcessing ;;
  if busy then ret tt else
  modify (set_isProcessing true) ;;;
  try_catch_finally
    (activeModules <- all_active_modules (modules_query_ok env) ;;
     let autoProcessModules := filter auto_enabled activeModules in
     if List.length autoProcessModules =? 0 then
       modify (set_isProcessing false)
     else
       result <- fetchInboxEmails (fetch_ok env) 50 true ;;
       match result with
       | None => modify (set_isProcessing false)
       | Some emails =>
           for_each emails (process_message_auto env uploadsDir autoProcessModules)
       end)
    (ret tt)
    (set_isProcessing false).

(* ================================================================== *)
(** ** The manual handlers  (email-inbox router) *)
(* ================================================================== *)

(** The lists [processed], [skipped] and [errors] of [POST /process]. *)
Record Summary := {
  processed_list : list (string * nat * nat);   (* emailId, moduleId, recordId *)
  skipped_list : list (string * string);        (* emailId, reason *)
  errors_list : list (string * string)          (* emailId, error *)
}.

Definition no_summary : Summary :=
  {| processed_list := []; skipped_list := []; errors_list := [] |}.

Definition push_processed (x : string * nat * nat) (s : Summary) : Summary :=
  {| processed_list := processed_list s ++ [x];
     skipped_list := skipped_list s; errors_list := errors_list s |}.

Definition push_skipped (x : string * string) (s : Summary) : Summary :=
  {| processed_list := processed_list s;
     skipped_list := skipped_list s ++ [x]; errors_list := errors_list s |}.

Definition push_error (x : string * string) (s : Summary) : Summary :=
  {| processed_list := processed_list s;
     skipped_list := skipped_list s; errors_list := errors_list s ++ [x] |}.

Inductive Response :=
| Processed (summary : Summary) (total : nat)
| ProcessedSingle (recordId moduleId : nat) (moduleName : string)
                  (attachments : nat * nat) (links : nat)
| Failed (code : nat) (message : string).

(** [db.get('SELECT id, name, config FROM modules WHERE LOWER(name) =
    LOWER(?) AND is_active = 1', [name])] *)
Definition get_module (ok : bool) (name : string) : M (option ModuleRow.t) :=
  fun w =>
    if ok then
      Ret (find (fun m => ModuleRow.is_active m &&
                          String.eqb (Js.sql_lower (ModuleRow.name m)) (Js.sql_lower name))
                (modules w)) w
    else Exn w.

(** [config.enableEmailInbox] after [config = module.config ?
    JSON.parse(module.config) : {}], with [{}] when parsing throws. *)
Definition inbox_enabled (m : ModuleRow.t) : bool :=
  match ModuleRow.config m with
  | ConfigObject enableEmailInbox _ => enableEmailInbox
  | _ => false
  end.

(** A ledger row that records a routing verdict instead of a record. *)
Definition verdict_row (email : Email.t) (moduleId : option nat) (st : Status)
           (message : string) : Ledger.t :=
  {| Ledger.email_id := Email.id email;
     Ledger.module_id := moduleId;
     Ledger.record_id := None;
     Ledger.from_address := Email.fromAddress email;
     Ledger.from_name := Email.fromName email;
     Ledger.subject := Email.subject email;
     Ledger.body_preview := Email.bodyPreview email;
     Ledger.received_at := received_at email;
     Ledger.status := st;
     Ledger.error_message := Some message |}.

(** The body of [for (const email of result.emails)] in [POST /process];
    nothing in it is caught. *)
Definition process_message (env : Env) (uploadsDir : string)
           (summary : Summary) (email : Email.t) : M Summary :=
  let me := msg_env env (Email.id email) in
  existing <- get_existing (existing_query_ok me) (Email.id email) ;;
  if existing then
    ret (push_skipped (Email.id email, "Already processed") summary)
  else
  let parsed := parseModuleTagFromSubject (Email.subject email) in
  match named (moduleName parsed) with
  | None =>
      insert_processed_email (ledger_insert_ok me)
        (verdict_row email None skipped "No module tag in subject") ;;;
      ret (push_skipped (Email.id email, "No module tag in subject") summary)
  | Some name =>
      found <- get_module (module_query_ok me) name ;;
      match found with
      | None =>
          let message := "Module '" +++ name +++ "' not found" in
          insert_processed_email (ledger_insert_ok me)
            (verdict_row email None error message) ;;;
          ret (push_error (Email.id email, message) summary)
      | Some module =>
          if negb (inbox_enabled module) then
            insert_processed_email (ledger_insert_ok me)
              (verdict_row email (Some (ModuleRow.id module)) skipped
                 "Email inbox not enabled for module") ;;;
            ret (push_skipped
                   (Email.id email,
                    "Email inbox not enabled for module '" +++ name +++ "'")
                   summary)
          else
            r <- create_record Bulk env uploadsDir email module (cleanSubject parsed) ;;
            ret (push_processed
                   (Email.id email, ModuleRow.id module, fst (fst r)) summary)
      end
  end.

(** The handler of [POST /api/email-inbox/process]. *)
Definition post_process (env : Env) (uploadsDir : string) : M Response :=
  try_catch
    (result <- fetchInboxEmails (fetch_ok env) 50 true ;;
     match result with
     | None => ret (Failed 400 "fetch failed")
     | Some emails =>
         summary <- for_fold emails (process_message env uploadsDir) no_summary ;;
         ret (Processed summary (List.length emails))
     end)
    (ret (Failed 500 "Failed to process emails")).

(** The handler of [POST /api/email-inbox/process-single/:emailId], with
    [moduleName] from the request body ([None] when absent) and
    [req.user?.email]. *)
Definition post_process_single (env : Env) (uploadsDir : string)
           (emailId : string) (bodyModuleName : option string)
           (userEmail : option string) : M Response :=
  let me := msg_env env emailId in
  try_catch
    (result <- fetchInboxEmails (fetch_ok env) 100 false ;;
     match result with
     | None => ret (Failed 400 "fetch failed")
     | Some emails =>
         match find (fun e => String.eqb (Email.id e) emailId) emails with
         | None => ret (Failed 404 "Email not found")
         | Some email =>
             existing <- get_existing (existing_query_ok me) emailId ;;
             if existing then ret (Failed 400 "Email already processed") else
             let targetModule :=
               match named bodyModuleName with
               | Some n => Some n
               | None => named (moduleName (parseModuleTagFromSubject (Email.subject email)))
               end in
             match targetModule with
             | None => ret (Failed 400 "No module specified and no module tag in subject")
             | Some target =>
                 found <- get_module (module_query_ok me) target ;;
                 match found with
                 | None => ret (Failed 404 ("Module '" +++ target +++ "' not found"))
                 | Some module =>
                     let cleanSubject :=
                       cleanSubject (parseModuleTagFromSubject (Email.subject email)) in
                     r <- create_record (Single userEmail) env uploadsDir email module
                            cleanSubject ;;
                     ret (ProcessedSingle (fst (fst r)) (ModuleRow.id module)
                            (ModuleRow.name module) (snd (fst r)) (snd r))
                 end
             end
         end
     end)
    (ret (Failed 500 "Failed to process email")).

(* ================================================================== *)
(** ** Observations used in the statements *)
(* ================================================================== *)

(** The ledger rows of a message. *)
Definition rows_for (emailId : string) (w : World) : list Ledger.t :=
  filter (fun r => String.eqb (Ledger.email_id r) emailId) (processed_emails w).

(** The records created for a message. *)
Definition records_for (emailId : string) (w : World) : list RecordRow.t :=
  filter (fun r => String.eqb (RecordRow.origin r) emailId) (module_records w).

(** The message as it stands in the mailbox, read flag included. *)
Definition in_mailbox (emailId : string) (w : World) : list Email.t :=
  filter (fun m => String.eqb (Email.id m) emailId) (mailbox w).

Definition is_mark_read (c : Call) : bool :=
  match c with MarkRead _ => true | _ => false end.

(** The [markEmailAsRead] calls made so far. *)
Definition mark_reads (w : World) : list Call := filter is_mark_read (calls w).

(** The [markEmailAsRead] calls made for a message. *)
Definition read_requests (emailId : string) (w : World) : list Call :=
  filter (fun c => match c with
                   | MarkRead i => String.eqb i emailId
                   | _ => false
                   end) (calls w).

(** The uniqueness of [email_id] in the ledger. *)
Definition unique_ledger (w : World) : Prop :=
  NoDup (List.map Ledger.email_id (processed_emails w)).

(** Id and subject of the messages of the mailbox, as a fetch shows them. *)
Definition keys (w : World) : list (string * string) :=
  List.map (fun m => (Email.id m, Email.subject (with_default_subject m))) (mailbox w).

(** Where the scheduled pass sends a subject: the first module of its
    prefiltered set (active, [enableEmailInbox] and [autoProcessEmails]
    truthy) whose name is the tag, compared in lower case. *)
Definition auto_route (mods : list ModuleRow.t) (subject : string) : option ModuleRow.t :=
  match named (moduleName (parseModuleTagFromSubject subject)) with
  | Some name =>
      find_auto_module (filter auto_enabled (filter ModuleRow.is_active mods)) name
  | None => None
  end.

(** Where [POST /process] sends a subject: the active module named by the
    tag, if its inbox is enabled. *)
Definition bulk_route (mods : list ModuleRow.t) (subject : string) : option ModuleRow.t :=
  match named (moduleName (parseModuleTagFromSubject subject)) with
  | Some name =>
      match find (fun m => ModuleRow.is_active m &&
                           String.eqb (Js.sql_lower (ModuleRow.name m)) (Js.sql_lower name))
                 mods with
      | Some m => if inbox_enabled m then Some m else None
      | None => None
      end
  | None => None
  end.

(* ================================================================== *)
(** ** The writes of a pass as a transition system *)
(* ================================================================== *)

Inductive Kind := KAuto | KBulk | KSingle.

Definition kind_of (v : Variant) : Kind :=
  match v with
  | Automatic => KAuto
  | Bulk => KBulk
  | Single _ => KSingle
  end.

(** Two states that differ at most in history, links, images, documents,
    files, settings, the two processor variables and the calls other than
    [markEmailAsRead]. *)
Definition same_core (w w' : World) : Prop :=
  modules w' = modules w /\
  processed_emails w' = processed_emails w /\
  module_records w' = module_records w /\
  module_records_seq w' = module_records_seq w /\
  mailbox w' = mailbox w /\
  mark_reads w' = mark_reads w.

(** One write of a pass of kind [k], with what the code has established
    when it makes it.  [T] holds of the ids of the messages the writes are
    made for. *)
Inductive effect (k : Kind) (env : Env) (T : string -> Prop) (w : World) : World -> Prop :=
| eff_record (row : RecordRow.t) :
    T (RecordRow.origin row) ->
    ledgered (RecordRow.origin row) w = false ->
    record_insert_ok (msg_env env (RecordRow.origin row)) = true ->
    RecordRow.id row = S (module_records_seq w) ->
    effect k env T w
      (set_records (module_records w ++ [row]) (S (module_records_seq w)) w)
| eff_processed (row : Ledger.t) (rid mid : nat) :
    T (Ledger.email_id row) ->
    Ledger.status row = processed ->
    Ledger.record_id row = Some rid ->
    Ledger.module_id row = Some mid ->
    ledgered (Ledger.email_id row) w = false ->
    record_insert_ok (msg_env env (Ledger.email_id row)) = true ->
    In (Ledger.email_id row, Ledger.subject row) (keys w) ->
    (exists r, In r (module_records w) /\ RecordRow.id r = rid /\
               RecordRow.origin r = Ledger.email_id row /\
               RecordRow.module_id r = mid) ->
    (k = KAuto ->
     exists m, auto_route (modules w) (Ledger.subject row) = Some m /\
               ModuleRow.id m = mid) ->
    effect k env T w (set_ledger (processed_emails w ++ [row]) w)
| eff_verdict (row : Ledger.t) :
    T (Ledger.email_id row) ->
    k = KBulk ->
    Ledger.status row <> processed ->
    Ledger.record_id row = None ->
    ledgered (Ledger.email_id row) w = false ->
    In (Ledger.email_id row, Ledger.subject row) (keys w) ->
    bulk_route (modules w) (Ledger.subject row) = None ->
    effect k env T w (set_ledger (processed_emails w ++ [row]) w)
| eff_mark_read (emailId : string) (ok : bool) :
    T emailId ->
    record_insert_ok (msg_env env emailId) = true ->
    effect k env T w (final (markEmailAsRead ok emailId w))
| eff_other (w' : World) :
    same_core w w' ->
    effect k env T w w'.

(** Any number of writes, one after the other. *)
Inductive steps (k : Kind) (env : Env) (T : string -> Prop) (w : World) : World -> Prop :=
| steps_refl : steps k env T w w
| steps_more (w1 w2 : World) :
    steps k env T w w1 -> effect k env T w1 w2 -> steps k env T w w2.

(** The ids of a batch of messages, and all ids. *)
Definition ids_of (batch : list Email.t) : string -> Prop :=
  fun i => In i (List.map Email.id batch).

Definition any_id : string -> Prop := fun _ => True.

(** The part of the state the savers do not touch, and the numbers of rows
    they add. *)
Record grown (w w' : World) (images documents links : nat) : Prop := {
  grown_core : same_core w w';
  grown_history : record_history w' = record_history w;
  grown_images : List.length (record_images w') = List.length (record_images w) + images;
  grown_documents :
    List.length (record_documents w') = List.length (record_documents w) + documents;
  grown_links : List.length (record_links w') = List.length (record_links w) + links
}.

(* ================================================================== *)
(** ** Sample inputs *)
(* ================================================================== *)

Module Sample.

(** Surroundings in which every statement and every call succeeds, and
    the message has no attachments. *)
Definition me_ok : MsgEnv :=
  {| existing_query_ok := true; module_query_ok := true;
     record_insert_ok := true; ledger_insert_ok := true;
     attachments := Some []; link_insert_ok := fun _ => true;
     history_insert_ok := true; auto_response_ok := true;
     sent_history_insert_ok := true; mark_read_ok := true |}.

Definition env_ok : Env :=
  {| settings_query_ok := true; modules_query_ok := true; fetch_ok := true;
     url_hostname := fun _ => None; msg_env := fun _ => me_ok |}.

(** The same, except that the INSERT of the record throws. *)
Definition me_record_fails : MsgEnv :=
  {| existing_query_ok := true; module_query_ok := true;
     record_insert_ok := false; ledger_insert_ok := true;
     attachments := Some []; link_insert_ok := fun _ => true;
     history_insert_ok := true; auto_response_ok := true;
     sent_history_insert_ok := true; mark_read_ok := true |}.

Definition env_record_fails : Env :=
  {| settings_query_ok := true; modules_query_ok := true; fetch_ok := true;
     url_hostname := fun _ => None; msg_env := fun _ => me_record_fails |}.

(** One image and no document attached. *)
Definition photo : AttachmentEnv :=
  {| meta := {| Attachment.id := "a1"; Attachment.name := "chair.png";
                Attachment.contentType := Some "image/png";
                Attachment.size := 10; Attachment.isInline := false |};
     download_ok := true; uniqueId := "00ff"; write_ok := true;
     row_insert_ok := true |}.

Definition me_photo : MsgEnv :=
  {| existing_query_ok := true; module_query_ok := true;
     record_insert_ok := true; ledger_insert_ok := true;
     attachments := Some [photo]; link_insert_ok := fun _ => true;
     history_insert_ok := true; auto_response_ok := true;
     sent_history_insert_ok := true; mark_read_ok := true |}.

Definition env_photo : Env :=
  {| settings_query_ok := true; modules_query_ok := true; fetch_ok := true;
     url_hostname := fun _ => None; msg_env := fun _ => me_photo |}.

Definition message (subject : string) : Email.t :=
  {| Email.id := "m1"; Email.subject := subject;
     Email.fromAddress := "a@b.com"; Email.fromName := "A";
     Email.receivedAt := "2024-01-15T10:30:00Z";
     Email.receivedAtISO := Some "2024-01-15T10:30:00.000Z";
     Email.bodyPreview := "Leg is loose";
     Email.body := "<p>Leg is loose</p>";
     Email.isRead := false; Email.hasAttachments := false |}.

Definition tagged : Email.t := message "[Support] Broken chair".
Definition untagged : Email.t := message "Broken chair".

Definition support (c : Config) : ModuleRow.t :=
  {| ModuleRow.id := 7; ModuleRow.name := "support";
     ModuleRow.display_name := "Support"; ModuleRow.is_active := true;
     ModuleRow.config := c |}.

(** A fresh installation with one module and one unread message. *)
Definition world (c : Config) (m : Email.t) : World :=
  {| modules := [support c]; site_settings := [];
     module_records := []; module_records_seq := 0;
     processed_emails := [];
     record_images := []; record_documents := [];
     record_links := []; record_history := [];
     mailbox := [m]; calls := []; files := [];
     isProcessing := false; debugLogging := false |}.


(** The world after the message has been handled once. *)
Definition handled_world : World :=
  final (processEmails env_ok "/srv/uploads" (world (ConfigObject true true) tagged)).

End Sample.

(* ================================================================== *)
(** ** The stages of record creation *)
(* ================================================================== *)

(** The states [create_record] passes through, named for the statements
    about it. *)
Definition new_record (v : Variant) (email : Email.t) (module : ModuleRow.t)
           (cleanSubject : string) (w : World) : RecordRow.t :=
  {| RecordRow.id := S (module_records_seq w);
     RecordRow.module_id := ModuleRow.id module;
     RecordRow.name := Js.or_else cleanSubject "Email";
     RecordRow.status := "active";
     RecordRow.data := recordData v email cleanSubject;
     RecordRow.created_by := Email.fromAddress email;
     RecordRow.updated_by := Email.fromAddress email;
     RecordRow.origin := Email.id email |}.

Definition with_record (v : Variant) (email : Email.t) (module : ModuleRow.t)
           (cleanSubject : string) (w : World) : World :=
  set_records (module_records w ++ [new_record v email module cleanSubject w])
              (S (module_records_seq w)) w.

Definition with_ledger_row (row : Ledger.t) (w : World) : World :=
  set_ledger (processed_emails w ++ [row]) w.

Definition with_history (h : History.t) (w : World) : World :=
  set_history (record_history w ++ [h]) w.

(** After the 'created' entry and the call of [sendAutoResponseEmail]. *)
Definition announced (v : Variant) (email : Email.t) (module : ModuleRow.t)
           (cleanSubject : string) (recordId images documents linkCount : nat)
           (w : World) : World :=
  log_call (SendAutoResponse (Email.fromAddress email) (Email.fromName email)
              (ModuleRow.name module) (shown_name v module) recordId
              (Js.or_else cleanSubject (Email.subject email)))
    (with_history (created_entry v email (ModuleRow.id module) recordId
                     images documents linkCount) w).

(** After the 'email_sent' entry, if the reply was sent, and
    [markEmailAsRead]. *)
Definition completed (v : Variant) (env : Env) (email : Email.t) (module : ModuleRow.t)
           (cleanSubject : string) (recordId images documents linkCount : nat)
           (w : World) : World :=
  let me := msg_env env (Email.id email) in
  let w5 := announced v email module cleanSubject recordId images documents linkCount w in
  final
    (markEmailAsRead (mark_read_ok me) (Email.id email)
       (if auto_response_ok me
        then with_history (sent_entry email (ModuleRow.id module) recordId) w5
        else w5)).

(** The ways [create_record] can end. *)
Inductive creation (v : Variant) (env : Env) (email : Email.t)
          (module : ModuleRow.t) (cleanSubject : string) (w : World)
  : result (nat * (nat * nat) * nat) -> Prop :=
| cr_record_fails :
    record_insert_ok (msg_env env (Email.id email)) = false ->
    creation v env email module cleanSubject w (Exn w)
| cr_ledger_fails :
    record_insert_ok (msg_env env (Email.id email)) = true ->
    ledger_insert_ok (msg_env env (Email.id email)) &&
      negb (ledgered (Email.id email) w) = false ->
    creation v env email module cleanSubject w
      (Exn (with_record v email module cleanSubject w))
| cr_history_fails (i d k : nat) (w3 : World) :
    record_insert_ok (msg_env env (Email.id email)) = true ->
    ledger_insert_ok (msg_env env (Email.id email)) = true ->
    ledgered (Email.id email) w = false ->
    grown (with_ledger_row
             (processed_row email (ModuleRow.id module) (S (module_records_seq w)))
             (with_record v email module cleanSubject w)) w3 i d k ->
    history_insert_ok (msg_env env (Email.id email)) = false ->
    creation v env email module cleanSubject w (Exn w3)
| cr_sent_history_fails (i d k : nat) (w3 : World) :
    record_insert_ok (msg_env env (Email.id email)) = true ->
    ledger_insert_ok (msg_env env (Email.id email)) = true ->
    ledgered (Email.id email) w = false ->
    grown (with_ledger_row
             (processed_row email (ModuleRow.id module) (S (module_records_seq w)))
             (with_record v email module cleanSubject w)) w3 i d k ->
    history_insert_ok (msg_env env (Email.id email)) = true ->
    auto_response_ok (msg_env env (Email.id email)) = true ->
    sent_history_insert_ok (msg_env env (Email.id email)) = false ->
    creation v env email module cleanSubject w
      (Exn (announced v email module cleanSubject (S (module_records_seq w)) i d k w3))
| cr_done (i d k : nat) (w3 : World) :
    record_insert_ok (msg_env env (Email.id email)) = true ->
    ledger_insert_ok (msg_env env (Email.id email)) = true ->
    ledgered (Email.id email) w = false ->
    grown (with_ledger_row
             (processed_row email (ModuleRow.id module) (S (module_records_seq w)))
             (with_record v email module cleanSubject w)) w3 i d k ->
    history_insert_ok (msg_env env (Email.id email)) = true ->
    (auto_response_ok (msg_env env (Email.id email)) = true ->
     sent_history_insert_ok (msg_env env (Email.id email)) = true) ->
    creation v env email module cleanSubject w
      (Ret (S (module_records_seq w), (i, d), k)
           (completed v env email module cleanSubject
              (S (module_records_seq w)) i d k w3)).

(** A ledger row that is a routing verdict of [POST /process] on a message
    of the mailbox [w] with id [e]: not a 'processed' row, no record, and a
    subject that does not route. *)
Definition verdict_for (k : Kind) (w : World) (e : string) (r : Ledger.t) : Prop :=
  k = KBulk /\
  Ledger.status r <> processed /\
  Ledger.record_id r = None /\
  In (e, Ledger.subject r) (keys w) /\
  bulk_route (modules w) (Ledger.subject r) = None.

(** A ledger row of the scheduled pass on the mailbox [w]: 'processed',
    for a message of the mailbox whose subject routes to a module of the
    prefiltered set, with that module and a record. *)
Definition auto_row (w : World) (r : Ledger.t) : Prop :=
  Ledger.status r = processed /\
  In (Ledger.email_id r, Ledger.subject r) (keys w) /\
  (exists m, auto_route (modules w) (Ledger.subject r) = Some m /\
             Ledger.module_id r = Some (ModuleRow.id m)) /\
  (exists rid, Ledger.record_id r = Some rid).

(** A 'processed' ledger row is backed by the record it names: a row of
    [module_records] with that id, created for the same message. *)
Definition backed (w : World) (r : Ledger.t) : Prop :=
  Ledger.status r = processed ->
  exists rec, In rec (module_records w) /\
              Ledger.record_id r = Some (RecordRow.id rec) /\
              RecordRow.origin rec = Ledger.email_id r.

(** The ids of the messages of a batch whose subject the scheduled pass
    routes to a module. *)
Definition routed_ids (mods : list ModuleRow.t) (batch : list Email.t) : string -> Prop :=
  fun i => exists x, In x batch /\ Email.id x = i /\
                     auto_route mods (Email.subject x) <> None.

(* ================================================================== *)
(** ** Further observations *)
(* ================================================================== *)

(** The state after attachments were saved: rows of images and documents,
    files and calls added, nothing else changed. *)
Definition with_attachments (imgs : list ImageRow.t) (docs : list DocumentRow.t)
           (fs : list string) (cs : list Call) (w : World) : World :=
  set_calls (calls w ++ cs)
    (set_files (files w ++ fs)
       (set_documents (record_documents w ++ docs)
          (set_images (record_images w ++ imgs) w))).

(** What a row of [record_links] written by a pass looks like. *)
Definition link_row_ok (recordId moduleId : nat) (r : LinkRow.t) : Prop :=
  LinkRow.record_id r = recordId /\
  LinkRow.module_id r = moduleId /\
  LinkRow.description r = "Extracted from email" /\
  String.length (LinkRow.url r) <= 2000 /\
  String.length (LinkRow.title r) <= 255.


(** The common shape of the two link loops: an anchor that is kept, and
    whose URL is not in the result yet, is appended. *)
Definition add_kept (keep : string -> bool) (mk : string * string -> Link)
           (links : list Link) (m : string * string) : list Link :=
  if keep (fst m) && negb (has_url (fst m) links) then links ++ [mk m] else links.


(** The links a variant extracts from the body of a message. *)
Definition extracted (v : Variant) (env : Env) (html : string) : list Link :=
  match v with
  | Automatic => Processor.extractLinksFromHtml html
  | _ => Inbox.extractLinksFromHtml (url_hostname env) html
  end.

(** What the rows written for an attachment look like; [fs] are the files
    written by the same call. *)
Definition image_row_ok (recordId moduleId : nat) (userEmail : string)
           (fs : list string) (r : ImageRow.t) : Prop :=
  ImageRow.record_id r = recordId /\
  ImageRow.module_id r = moduleId /\
  ImageRow.created_by r = userEmail /\
  Js.startsWith "/uploads/images/" (ImageRow.image_path r) = true /\
  In (ImageRow.image_path r) fs.

Definition document_row_ok (recordId moduleId : nat) (userEmail : string)
           (fs : list string) (r : DocumentRow.t) : Prop :=
  DocumentRow.record_id r = recordId /\
  DocumentRow.module_id r = moduleId /\
  DocumentRow.created_by r = userEmail /\
  Js.startsWith "/uploads/documents/" (DocumentRow.file_path r) = true /\
  In (DocumentRow.file_path r) fs.

(** The number of attachments a listing shows. *)
Definition listed_attachments (me : MsgEnv) : nat :=
  match attachments me with
  | Some atts => List.length atts
  | None => 0
  end.


(** Which anchors the two extractors keep, and the link made of one. *)
Definition processor_keeps (u : string) : bool :=
  negb (skipped_scheme u) &&
  negb (Js.includes "unsubscribe" (Js.toLowerCase u) ||
        Js.includes "tracking" (Js.toLowerCase u)) &&
  (String.length u <=? 2000).

Definition processor_link (m : string * string) : Link :=
  {| url := fst m;
     title := Js.take 255 (Js.or_else (Js.trim (snd m)) (Js.take 50 (fst m))) |}.

Definition inbox_keeps (u : string) : bool :=
  negb (skipped_scheme u) && negb (Inbox.skipped_noise u).

Definition inbox_link (url_hostname : string -> option string)
           (m : string * string) : Link :=
  {| url := fst m;
     title := Js.take 255
                (if Js.truthy (Js.trim (snd m)) then Js.trim (snd m)
                 else match url_hostname (fst m) with
                      | Some host => host
                      | None => Js.take 50 (fst m)
                      end) |}.


(** No dot occurs in the string. *)
Fixpoint dotless (s : string) : bool :=
  match s with
  | EmptyString => true
  | String c s' => negb (Ascii.eqb c ".") && dotless s'
  end.


(** The message ids the three lists of a summary name. *)
Definition summary_ids (s : Summary) : list string :=
  List.map (fun p => fst (fst p)) (processed_list s) ++
  List.map fst (skipped_list s) ++
  List.map fst (errors_list s).

(** An entry of the list [processed] is matched by a 'processed' ledger
    row that names the same message, module and record. *)
Definition entry_ledgered (w : World) (p : string * nat * nat) : Prop :=
  exists row, In row (processed_emails w) /\
              Ledger.email_id row = fst (fst p) /\
              Ledger.module_id row = Some (snd (fst p)) /\
              Ledger.record_id row = Some (snd p) /\
              Ledger.status row = processed.


(** The answers of the listing handlers. *)
Inductive Listing :=
| Listed (emails : list (Email.t * TagParse))
| ListFailed (code : nat) (message : string).

(** [db.all('SELECT email_id FROM processed_emails')] *)
Definition all_processed_ids (ok : bool) : M (list string) :=
  fun w => if ok then Ret (List.map Ledger.email_id (processed_emails w)) w else Exn w.

(** [processedSet.has(id)] *)
Definition set_has (ids : list string) (id : string) : bool :=
  existsb (String.eqb id) ids.

(** Each message with [moduleName] and [cleanSubject] of its subject. *)
Definition with_tags (emails : list Email.t) : list (Email.t * TagParse) :=
  List.map (fun email => (email, parseModuleTagFromSubject (Email.subject email))) emails.

(** The handler of [GET /api/email-inbox/unprocessed]; [ids_query_ok]
    says whether its SELECT succeeds. *)
Definition get_unprocessed (env : Env) (ids_query_ok : bool) : M Listing :=
  try_catch
    (result <- fetchInboxEmails (fetch_ok env) 50 true ;;
     match result with
     | None => ret (ListFailed 400 "fetch failed")
     | Some emails =>
         processedIds <- all_processed_ids ids_query_ok ;;
         ret (Listed (with_tags
                        (filter (fun email => negb (set_has processedIds (Email.id email)))
                                emails)))
     end)
    (ret (ListFailed 500 "Failed to fetch unprocessed emails")).


(** [markEmailAsRead] is called for a message only when its 'processed'
    row is in the ledger: between [w] and [w'] the ledger has only grown,
    and a message marked read in between had no row in [w] and has a
    'processed' row in [w']. *)
Definition read_after_ledger (w w' : World) : Prop :=
  (exists rows, processed_emails w' = processed_emails w ++ rows) /\
  forall e, In (MarkRead e) (mark_reads w') ->
            In (MarkRead e) (mark_reads w) \/
            (ledgered e w = false /\
             exists row, In row (processed_emails w') /\
                         Ledger.email_id row = e /\
                         Ledger.status row = processed).

(** A record with this id and module is in [module_records]. *)
Definition has_record (w : World) (recordId moduleId : nat) : Prop :=
  exists rec, In rec (module_records w) /\
              RecordRow.id rec = recordId /\
              RecordRow.module_id rec = moduleId.

(** Between [w] and [w'] rows were only added to the record tables, and
    every row added to one of the four tables of what belongs to a record
    names, with its module, a record present in [w']. *)
Record no_orphans (w w' : World) : Prop := {
  more_records : exists recs, module_records w' = module_records w ++ recs;
  more_history :
    exists hs, record_history w' = record_history w ++ hs /\
               Forall (fun h => has_record w' (History.record_id h) (History.module_id h)) hs;
  more_links :
    exists ls, record_links w' = record_links w ++ ls /\
               Forall (fun l => has_record w' (LinkRow.record_id l) (LinkRow.module_id l)) ls;
  more_images :
    exists imgs, record_images w' = record_images w ++ imgs /\
               Forall (fun i => has_record w' (ImageRow.record_id i) (ImageRow.module_id i)) imgs;
  more_documents :
    exists ds, record_documents w' = record_documents w ++ ds /\
               Forall (fun d => has_record w' (DocumentRow.record_id d)
                                           (DocumentRow.module_id d)) ds
}.

(** Between [w] and [w'] the records are the same, and every row added to
    one of the four tables is for the record and module given. *)
Record adds (recordId moduleId : nat) (w w' : World) : Prop := {
  adds_records : module_records w' = module_records w;
  adds_history :
    exists hs, record_history w' = record_history w ++ hs /\
               Forall (fun h => History.record_id h = recordId /\
                                History.module_id h = moduleId) hs;
  adds_links :
    exists ls, record_links w' = record_links w ++ ls /\
               Forall (fun l => LinkRow.record_id l = recordId /\
                                LinkRow.module_id l = moduleId) ls;
  adds_images :
    exists imgs, record_images w' = record_images w ++ imgs /\
               Forall (fun i => ImageRow.record_id i = recordId /\
                                ImageRow.module_id i = moduleId) imgs;
  adds_documents :
    exists ds, record_documents w' = record_documents w ++ ds /\
               Forall (fun d => DocumentRow.record_id d = recordId /\
                                DocumentRow.module_id d = moduleId) ds
}.


(** [w'] is the state in which one of the three passes, started in [w],
    ends. *)
Definition pass_result (env : Env) (uploadsDir : string) (w w' : World) : Prop :=
  w' = final (processEmails env uploadsDir w) \/
  w' = final (post_process env uploadsDir w) \/
  exists emailId bodyModuleName userEmail,
    w' = final (post_process_single env uploadsDir emailId bodyModuleName userEmail w).


(** The statements executed for a message after its ledger lookup all
    succeed; the mail service may still fail. *)
Definition statements_ok (me : MsgEnv) : Prop :=
  record_insert_ok me = true /\
  ledger_insert_ok me = true /\
  history_insert_ok me = true /\
  sent_history_insert_ok me = true.

(** A message has been turned into a record of a module: it has exactly
    one ledger row, which is 'processed' and names a record created for it
    in that module, and [markEmailAsRead] was called for it. *)
Definition turned_into_record (email : Email.t) (module : ModuleRow.t) (w : World) : Prop :=
  exists recordId,
    rows_for (Email.id email) w = [processed_row email (ModuleRow.id module) recordId] /\
    (exists rec, In rec (records_for (Email.id email) w) /\
                 RecordRow.id rec = recordId /\
                 RecordRow.module_id rec = ModuleRow.id module) /\
    In (MarkRead (Email.id email)) (read_requests (Email.id email) w).


(** A mailbox of two unread messages; the INSERT of the record fails for
    the first one and nothing fails for the second. *)
Module Sample2.

Definition first : Email.t :=
  {| Email.id := "m1"; Email.subject := "[Support] Broken chair";
     Email.fromAddress := "a@b.com"; Email.fromName := "A";
     Email.receivedAt := "2024-01-15T10:30:00Z";
     Email.receivedAtISO := Some "2024-01-15T10:30:00.000Z";
     Email.bodyPreview := "Leg is loose";
     Email.body := "<p>Leg is loose</p>";
     Email.isRead := false; Email.hasAttachments := false |}.

Definition second : Email.t :=
  {| Email.id := "m2"; Email.subject := "[support] Wobbly table";
     Email.fromAddress := "c@d.com"; Email.fromName := "C";
     Email.receivedAt := "2024-01-15T09:00:00Z";
     Email.receivedAtISO := Some "2024-01-15T09:00:00.000Z";
     Email.bodyPreview := "It wobbles";
     Email.body := "<p>It wobbles</p>";
     Email.isRead := false; Email.hasAttachments := false |}.

Definition env_first_fails : Env :=
  {| settings_query_ok := true; modules_query_ok := true; fetch_ok := true;
     url_hostname := fun _ => None;
     msg_env := fun id => if String.eqb id "m1" then Sample.me_record_fails
                          else Sample.me_ok |}.

Definition world : World :=
  {| modules := [Sample.support (ConfigObject true true)]; site_settings := [];
     module_records := []; module_records_seq := 0;
     processed_emails := [];
     record_images := []; record_documents := [];
     record_links := []; record_history := [];
     mailbox := [first; second]; calls := []; files := [];
     isProcessing := false; debugLogging := false |}.

End Sample2.


(* ================================================================== *)
(** ** The timer of the scheduled pass  ([emailProcessor.js]) *)
(* ================================================================== *)

(** The module variable [processorInterval] and what the module has asked
    of the timers of the platform: the timers it has set and not cleared,
    each with its handle and the delay asked for in milliseconds, and the
    number of passes it has started itself.  A start of [processEmails] is
    counted, not run: the call is not awaited. *)
Module Scheduler.
Record t := {
  processorInterval : option nat;
  timers : list (nat * Z);
  next_handle : nat;
  started : nat
}.
End Scheduler.

Definition idle : Scheduler.t :=
  {| Scheduler.processorInterval := None; Scheduler.timers := [];
     Scheduler.next_handle := 0; Scheduler.started := 0 |}.

(** [stopEmailProcessor()] *)
Definition stopEmailProcessor (s : Scheduler.t) : Scheduler.t :=
  match Scheduler.processorInterval s with
  | Some h =>
      {| Scheduler.processorInterval := None;
         Scheduler.timers := filter (fun t => negb (fst t =? h)) (Scheduler.timers s);
         Scheduler.next_handle := Scheduler.next_handle s;
         Scheduler.started := Scheduler.started s |}
  | None => s
  end.

(** [startEmailProcessor(db, uploadsDir, intervalMinutes)], with
    [intervalMinutes] an integer, or [None] for [NaN] and [undefined]. *)
Definition startEmailProcessor (env : Env) (intervalMinutes : option Z)
           (s : Scheduler.t) : M Scheduler.t :=
  let s := stopEmailProcessor s in
  loadDebugSetting env ;;;
  match intervalMinutes with
  | None => ret s
  | Some minutes =>
      if (minutes <=? 0)%Z then ret s else
      let intervalMs := (minutes * 60 * 1000)%Z in
      let h := Scheduler.next_handle s in
      ret {| Scheduler.processorInterval := Some h;
             Scheduler.timers := Scheduler.timers s ++ [(h, intervalMs)];
             Scheduler.next_handle := S h;
             Scheduler.started := S (Scheduler.started s) |}
  end.

(** [updateEmailProcessorInterval(db, uploadsDir, intervalMinutes)] *)
Definition updateEmailProcessorInterval (env : Env) (intervalMinutes : option Z)
           (s : Scheduler.t) : M Scheduler.t :=
  loadDebugSetting env ;;;
  startEmailProcessor env intervalMinutes s.

(** The three calls the module exports, and a sequence of them, one
    running after the other has returned. *)
Inductive Op :=
| Start (intervalMinutes : option Z)
| Stop
| Update (intervalMinutes : option Z).

Definition run_op (env : Env) (op : Op) (s : Scheduler.t) : M Scheduler.t :=
  match op with
  | Start m => startEmailProcessor env m s
  | Stop => ret (stopEmailProcessor s)
  | Update m => updateEmailProcessorInterval env m s
  end.

Definition run_ops (env : Env) (ops : list Op) (s : Scheduler.t) : M Scheduler.t :=
  for_fold ops (fun s op => run_op env op s) s.

(** The delay a call asks a timer for, if it sets one. *)
Definition asked_delay (op : Op) : option Z :=
  match op with
  | Start (Some minutes) | Update (Some minutes) =>
      if (minutes <=? 0)%Z then None else Some (minutes * 60000)%Z
  | _ => None
  end.

(* ================================================================== *)
(** ** The configuration of the mail service  ([email.js]) *)
(* ================================================================== *)

(** The configuration object; an absent value is held as the empty
    string, both are falsy. *)
Module EmailConfig.
Record t := {
  provider : string;
  azureTenantId : string;
  azureClientId : string;
  azureClientSecret : string;
  emailFrom : string;
  emailInbox : string;
  smtpHost : string;
  smtpPort : string;
  smtpUser : string;
  smtpPassword : string
}.
End EmailConfig.

(** The module variables [dbInstance], [configCache], [graphClient] and
    [transporter]; of the first and the last two, whether they are set. *)
Module MailService.
Record t := {
  dbInstance : bool;
  cache_data : option EmailConfig.t;
  cache_lastFetch : Z;
  graphClient : bool;
  transporter : bool
}.
End MailService.

Definition cacheTTL : Z := 60000.

(** The configuration [process.env] gives. *)
Definition env_config (getenv : string -> string) : EmailConfig.t :=
  {| EmailConfig.provider := getenv "EMAIL_PROVIDER";
     EmailConfig.azureTenantId :=
       Js.or_else (getenv "EMAIL_AZURE_TENANT_ID") (getenv "AZURE_TENANT_ID");
     EmailConfig.azureClientId :=
       Js.or_else (getenv "EMAIL_AZURE_CLIENT_ID") (getenv "AZURE_CLIENT_ID");
     EmailConfig.azureClientSecret :=
       Js.or_else (getenv "EMAIL_AZURE_CLIENT_SECRET") (getenv "AZURE_CLIENT_SECRET");
     EmailConfig.emailFrom := getenv "EMAIL_FROM";
     EmailConfig.emailInbox := getenv "EMAIL_INBOX";
     EmailConfig.smtpHost := Js.or_else (getenv "SMTP_HOST") "smtp.office365.com";
     EmailConfig.smtpPort := Js.or_else (getenv "SMTP_PORT") "587";
     EmailConfig.smtpUser := getenv "SMTP_USER";
     EmailConfig.smtpPassword := getenv "SMTP_PASSWORD" |}.

(** [dbSettings[key]] after [settings.forEach(s => { dbSettings[s.setting_key]
    = s.setting_value; })]: the value of the last row with the key. *)
Definition db_setting (rows : list (string * string)) (key : string) : string :=
  fold_left (fun acc row => if String.eqb (fst row) key then snd row else acc)
            rows EmptyString.

(** [if (dbSettings.key) config.field = dbSettings.key] *)
Definition overridden (rows : list (string * string)) (key : string)
           (current : string) : string :=
  Js.or_else (db_setting rows key) current.

(** The same for a value stored encrypted: it overrides only if it
    decrypts. *)
Definition overridden_secret (decrypt : string -> string)
           (rows : list (string * string)) (key : string) (current : string) : string :=
  if Js.truthy (db_setting rows key)
  then Js.or_else (decrypt (db_setting rows key)) current
  else current.

Definition db_config (decrypt : string -> string) (rows : list (string * string))
           (config : EmailConfig.t) : EmailConfig.t :=
  {| EmailConfig.provider := overridden rows "email_provider" (EmailConfig.provider config);
     EmailConfig.azureTenantId :=
       overridden rows "azure_tenant_id" (EmailConfig.azureTenantId config);
     EmailConfig.azureClientId :=
       overridden rows "azure_client_id" (EmailConfig.azureClientId config);
     EmailConfig.azureClientSecret :=
       overridden_secret decrypt rows "azure_client_secret"
                         (EmailConfig.azureClientSecret config);
     EmailConfig.emailFrom := overridden rows "email_from" (EmailConfig.emailFrom config);
     EmailConfig.emailInbox := overridden rows "email_inbox" (EmailConfig.emailInbox config);
     EmailConfig.smtpHost := overridden rows "smtp_host" (EmailConfig.smtpHost config);
     EmailConfig.smtpPort := overridden rows "smtp_port" (EmailConfig.smtpPort config);
     EmailConfig.smtpUser := overridden rows "smtp_user" (EmailConfig.smtpUser config);
     EmailConfig.smtpPassword :=
       overridden_secret decrypt rows "smtp_password"
                         (EmailConfig.smtpPassword config) |}.

(** What the surroundings of one call of [getEmailConfigFromDB] are:
    [Date.now()], [process.env], [decrypt], and the rows the SELECT on
    [site_settings] returns ([None]: it throws). *)
Record Surroundings := {
  now : Z;
  getenv : string -> string;
  decrypt : string -> string;
  settings_rows : option (list (string * string))
}.

(** The cache is valid. *)
Definition cache_hit (x : Surroundings) (s : MailService.t) : bool :=
  match MailService.cache_data s with
  | Some _ => (now x - MailService.cache_lastFetch s <? cacheTTL)%Z
  | None => false
  end.

(** [getEmailConfigFromDB()] past the test of the cache: the configuration
    of the environment, overridden from the database if there is one and
    its SELECT succeeds, and cached only then. *)
Definition read_config (x : Surroundings) (s : MailService.t)
  : EmailConfig.t * MailService.t :=
  let config := env_config (getenv x) in
  if MailService.dbInstance s then
    match settings_rows x with
    | Some rows =>
        let config := db_config (decrypt x) rows config in
        (config,
         {| MailService.dbInstance := MailService.dbInstance s;
            MailService.cache_data := Some config;
            MailService.cache_lastFetch := now x;
            MailService.graphClient := MailService.graphClient s;
            MailService.transporter := MailService.transporter s |})
    | None => (config, s)
    end
  else (config, s).

(** [getEmailConfigFromDB()]: the configuration and the state left. *)
Definition getEmailConfigFromDB (x : Surroundings) (s : MailService.t)
  : EmailConfig.t * MailService.t :=
  match MailService.cache_data s with
  | Some data =>
      if (now x - MailService.cache_lastFetch s <? cacheTTL)%Z then (data, s)
      else read_config x s
  | None => read_config x s
  end.

(** [clearEmailConfigCache()] *)
Definition clearEmailConfigCache (s : MailService.t) : MailService.t :=
  {| MailService.dbInstance := MailService.dbInstance s;
     MailService.cache_data := None;
     MailService.cache_lastFetch := 0%Z;
     MailService.graphClient := false;
     MailService.transporter := false |}.


(* ================================================================== *)
(** ** The scheduled pass with its suspensions *)
(* ================================================================== *)

(** The scheduled pass once more, this time with the states in which it
    is suspended.  Every [await] of a statement or of a call of the mail
    service hands control back to the event loop, and a tick of the timer
    that fires then runs in the state the pass has reached there;
    synchronous code is not interrupted.  A computation yields, besides
    its result, the states in which it was suspended, in their order. *)
Module Traced.

Definition T (A : Type) : Type := World -> list World * result A.

(** [await m]: the pass is suspended in the state in which [m] is
    issued. *)
Definition await {A} (m : M A) : T A := fun w => ([w], m w).

(** Code without [await]. *)
Definition sync {A} (m : M A) : T A := fun w => ([], m w).

Definition bind {A B} (m : T A) (k : A -> T B) : T B :=
  fun w => match m w with
           | (tr, Ret a w') => let (tr', r) := k a w' in (tr ++ tr', r)
           | (tr, Exn w') => (tr, Exn w')
           end.

Definition try_catch {A} (m h : T A) : T A :=
  fun w => match m w with
           | (tr, Ret a w') => (tr, Ret a w')
           | (tr, Exn w') => let (tr', r) := h w' in (tr ++ tr', r)
           end.

Definition try_catch_finally {A} (m h : T A) (f : World -> World) : T A :=
  fun w => match try_catch m h w with
           | (tr, Ret a w') => (tr, Ret a (f w'))
           | (tr, Exn w') => (tr, Exn (f w'))
           end.

Notation "x <~ m ;; k" := (bind m (fun x => k))
  (at level 61, m at next level, right associativity).
Notation "m ;;~ k" := (bind m (fun _ => k))
  (at level 61, right associativity).

Fixpoint for_each {B} (l : list B) (body : B -> T unit) : T unit :=
  match l with
  | [] => sync (ret tt)
  | x :: l' => body x ;;~ for_each l' body
  end.

Fixpoint for_fold {B S} (l : list B) (body : S -> B -> T S) (acc : S) : T S :=
  match l with
  | [] => sync (ret acc)
  | x :: l' => acc' <~ body acc x ;; for_fold l' body acc'
  end.

(** [saveAttachments]: one turn of its loop, and the function. *)
Definition save_attachment (emailId : string) (recordId moduleId : nat)
           (userEmail : string) (counts : nat * nat) (a : AttachmentEnv)
  : T (nat * nat) :=
  let att := meta a in
  try_catch
    (downloaded <~ await (downloadAttachment (download_ok a) emailId (Attachment.id att)) ;;
     if negb downloaded then sync (ret counts) else
     let uniqueFilename := generateUniqueFilename (uniqueId a) (Attachment.name att) in
     let isImage := isImageContentType (Attachment.contentType att) in
     let subDir := if isImage then "images" else "documents" in
     let relativePath := "/uploads/" +++ subDir +++ "/" +++ uniqueFilename in
     sync (writeFileSync (write_ok a) relativePath) ;;~
     if isImage then
       await (insert_image (row_insert_ok a)
                {| ImageRow.record_id := recordId; ImageRow.module_id := moduleId;
                   ImageRow.image_path := relativePath;
                   ImageRow.created_by := userEmail |}) ;;~
       sync (ret (S (fst counts), snd counts))
     else
       await (insert_document (row_insert_ok a)
                {| DocumentRow.record_id := recordId; DocumentRow.module_id := moduleId;
                   DocumentRow.file_path := relativePath;
                   DocumentRow.file_name := Attachment.name att;
                   DocumentRow.file_type := Attachment.contentType att;
                   DocumentRow.file_size := Attachment.size att;
                   DocumentRow.created_by := userEmail |}) ;;~
       sync (ret (fst counts, S (snd counts))))
    (sync (ret counts)).

Definition saveAttachments (me : MsgEnv) (emailId : string) (recordId moduleId : nat)
           (userEmail : string) : T (nat * nat) :=
  result <~ await (getEmailAttachments (attachments me) emailId) ;;
  match result with
  | None => sync (ret (0, 0))
  | Some atts => for_fold atts (save_attachment emailId recordId moduleId userEmail) (0, 0)
  end.

(** [saveLinks]: the body of its loop, and the function. *)
Definition save_link (me : MsgEnv) (recordId moduleId : nat)
           (u t : string) (savedCount : nat) : T nat :=
  try_catch
    (await (insert_link (link_insert_ok me u)
              {| LinkRow.record_id := recordId; LinkRow.module_id := moduleId;
                 LinkRow.url := u; LinkRow.title := t;
                 LinkRow.description := "Extracted from email" |}) ;;~
     sync (ret (S savedCount)))
    (sync (ret savedCount)).

Definition saveLinks (me : MsgEnv) (recordId moduleId : nat) (html : string) : T nat :=
  for_fold (Processor.extractLinksFromHtml html)
    (fun savedCount link =>
       save_link me recordId moduleId (url link) (title link) savedCount)
    0.

(** The statements of [processEmails] from the INSERT of the record to
    [markEmailAsRead]. *)
Definition create_record (env : Env) (uploadsDir : string)
           (email : Email.t) (module : ModuleRow.t) (cleanSubject : string)
  : T (nat * (nat * nat) * nat) :=
  let me := msg_env env (Email.id email) in
  let moduleId := ModuleRow.id module in
  recordId <~ await (insert_module_record (record_insert_ok me) (Email.id email) moduleId
                       (Js.or_else cleanSubject "Email")
                       (recordData Automatic email cleanSubject)
                       (Email.fromAddress email)) ;;
  await (insert_processed_email (ledger_insert_ok me)
           (processed_row email moduleId recordId)) ;;~
  attachmentCounts <~
    (if Js.truthy uploadsDir
     then saveAttachments me (Email.id email) recordId moduleId (Email.fromAddress email)
     else sync (ret (0, 0))) ;;
  linkCount <~ saveLinks me recordId moduleId (Email.body email) ;;
  await (insert_history (history_insert_ok me)
           (created_entry Automatic email moduleId recordId
              (fst attachmentCounts) (snd attachmentCounts) linkCount)) ;;~
  sent <~ await (sendAutoResponseEmail (auto_response_ok me)
                   (Email.fromAddress email) (Email.fromName email)
                   (ModuleRow.name module) (shown_name Automatic module) recordId
                   (Js.or_else cleanSubject (Email.subject email))) ;;
  (if sent
   then await (insert_history (sent_history_insert_ok me)
                 (sent_entry email moduleId recordId))
   else sync (ret tt)) ;;~
  await (markEmailAsRead (mark_read_ok me) (Email.id email)) ;;~
  sync (ret (recordId, attachmentCounts, linkCount)).

(** The body of [for (const email of result.emails)]. *)
Definition process_message_auto (env : Env) (uploadsDir : string)
           (autoProcessModules : list ModuleRow.t) (email : Email.t) : T unit :=
  let me := msg_env env (Email.id email) in
  existing <~ await (get_existing (existing_query_ok me) (Email.id email)) ;;
  if existing then sync (ret tt) else
  let parsed := parseModuleTagFromSubject (Email.subject email) in
  match named (moduleName parsed) with
  | None => sync (ret tt)
  | Some name =>
      match find_auto_module autoProcessModules name with
      | None => sync (ret tt)
      | Some module =>
          try_catch
            (create_record env uploadsDir email module (cleanSubject parsed) ;;~
             sync (ret tt))
            (sync (ret tt))
      end
  end.

(** The [try] block of [processEmails]. *)
Definition pass_block (env : Env) (uploadsDir : string) : T unit :=
  activeModules <~ await (all_active_modules (modules_query_ok env)) ;;
  let autoProcessModules := filter auto_enabled activeModules in
  if List.length autoProcessModules =? 0 then
    sync (modify (set_isProcessing false))
  else
    result <~ await (fetchInboxEmails (fetch_ok env) 50 true) ;;
    match result with
    | None => sync (modify (set_isProcessing false))
    | Some emails =>
        for_each emails (process_message_auto env uploadsDir autoProcessModules)
    end.

(** [processEmails(db, uploadsDir)] *)
Definition processEmails (env : Env) (uploadsDir : string) : T unit :=
  await (loadDebugSetting env) ;;~
  busy <~ sync (read isProcessing) ;;
  if busy then sync (ret tt) else
  sync (modify (set_isProcessing true)) ;;~
  try_catch_finally (pass_block env uploadsDir) (sync (ret tt)) (set_isProcessing false).

End Traced.




(** The requests to the mail service that name the message [e], oldest
    first: [markEmailAsRead], [getEmailAttachments] and
    [downloadAttachment] for it. *)
Definition names (e : string) (c : Call) : bool :=
  match c with
  | MarkRead i => String.eqb i e
  | ListAttachments i => String.eqb i e
  | Download i _ => String.eqb i e
  | ListMessages _ _ => false
  | SendAutoResponse _ _ _ _ _ _ => false
  end.

Definition requests_about (e : string) (w : World) : list Call :=
  filter (names e) (calls w).

(** [m] makes no request that names [e], however it ends. *)
Definition hushed (e : string) {A} (m : M A) : Prop :=
  forall w, requests_about e (final (m w)) = requests_about e w.

(* ================================================================== *)
(** * Properties *)
(* ================================================================== *)

(** ** Strings *)

Lemma skip_ws_all_ws (ws rest : string) :
  Js.all_ws ws = true -> Js.skip_ws (ws +++ rest) = Js.skip_ws rest.
Proof.
  induction ws as [|c ws IH]; simpl; intros H.
  - reflexivity.
  - apply andb_true_iff in H. destruct H as [Hc Hws].
    rewrite Hc. auto.
Qed.

Lemma skip_ws_idem (s : string) : Js.skip_ws (Js.skip_ws s) = Js.skip_ws s.
Proof.
  induction s as [|c s IH]; simpl.
  - reflexivity.
  - destruct (Js.is_ws c) eqn:E.
    + exact IH.
    + simpl. rewrite E. reflexivity.
Qed.

Lemma until_rbracket_app (x r : string) :
  no_rbracket x = true ->
  until_rbracket (x +++ String "]" r) = Some (x, r).
Proof.
  induction x as [|c x IH]; simpl; intros H.
  - reflexivity.
  - apply andb_true_iff in H. destruct H as [Hc Hx].
    apply negb_true_iff in Hc. rewrite Hc, (IH Hx). reflexivity.
Qed.

Lemma match_tag_bracketed (x r : string) :
  x <> EmptyString -> no_rbracket x = true ->
  match_tag (String "[" (x +++ String "]" r)) = Some (x, r).
Proof.
  intros Hne Hx. unfold match_tag.
  change (Ascii.eqb "[" "[") with true. cbv iota.
  rewrite (until_rbracket_app x r Hx).
  destruct x; [contradiction|reflexivity].
Qed.

Lemma match_tag_no_bracket (s : string) :
  Js.startsWith "[" s = false -> match_tag s = None.
Proof.
  destruct s as [|c s]; simpl; intros H.
  - reflexivity.
  - destruct (Ascii.eqb_spec c "[") as [->|Hne]; [discriminate H|reflexivity].
Qed.

(** C6, as stated: case preserved in the tag, the clean subject equal to
    the text behind the tag.  The code answers otherwise on this input: the
    tag comes back in lower case, and the clean subject without the white
    space at its end. *)
Lemma parseModuleTag_case_not_preserved :
  parseModuleTagFromSubject "[Support] Broken chair " <>
    {| moduleName := Some "Support"; cleanSubject := "Broken chair " |}
  /\ parseModuleTagFromSubject "[Support] Broken chair " =
    {| moduleName := Some "support"; cleanSubject := "Broken chair" |}.
Proof.
  split; [|reflexivity].
  intros H. vm_compute in H. discriminate H.
Qed.

(** C6, amended: for a subject [[X]], white space, [rest] (with [X] not
    empty and free of closing brackets) the parser returns the tag in lower
    case and trimmed, and [rest] trimmed; for a subject that does not begin
    with an opening bracket it returns no tag and the subject unchanged. *)
Theorem parseModuleTag_spec (X ws rest s : string)
  (HX : X <> EmptyString) (Hb : no_rbracket X = true)
  (Hws : Js.all_ws ws = true) (Hs : Js.startsWith "[" s = false) :
  parseModuleTagFromSubject ("[" +++ X +++ "]" +++ ws +++ rest) =
    {| moduleName := Some (Js.trim (Js.toLowerCase X));
       cleanSubject := Js.trim rest |}
  /\ parseModuleTagFromSubject s = {| moduleName := None; cleanSubject := s |}.
Proof.
  split.
  - unfold parseModuleTagFromSubject.
    change ("[" +++ X +++ "]" +++ ws +++ rest)
      with (String "[" (X +++ String "]" (ws +++ rest))).
    rewrite (match_tag_bracketed X (ws +++ rest) HX Hb).
    rewrite (skip_ws_all_ws ws rest Hws).
    unfold Js.trim. rewrite skip_ws_idem. reflexivity.
  - unfold parseModuleTagFromSubject.
    rewrite (match_tag_no_bracket s Hs). reflexivity.
Qed.

Lemma parseModuleTag_spec_witness :
  parseModuleTagFromSubject ("[" +++ "Support" +++ "]" +++ " " +++ "Broken chair") =
    {| moduleName := Some (Js.trim (Js.toLowerCase "Support"));
       cleanSubject := Js.trim "Broken chair" |}
  /\ parseModuleTagFromSubject "Broken chair" =
    {| moduleName := None; cleanSubject := "Broken chair" |}.
Proof.
  apply (parseModuleTag_spec "Support" " " "Broken chair" "Broken chair").
  - discriminate.
  - reflexivity.
  - reflexivity.
  - reflexivity.
Defined.

(** ** Content extractor *)

Lemma fold_left_invariant {A B} (P : A -> Prop) (f : A -> B -> A) (l : list B) (a : A) :
  P a -> (forall a b, P a -> P (f a b)) -> P (fold_left f l a).
Proof.
  revert a. induction l as [|b l IH]; simpl; intros a Ha Hf.
  - exact Ha.
  - apply IH; auto.
Qed.

(** Every link the router's extractor returns has passed both of its
    filters. *)
Lemma inbox_links_filtered (url_hostname : string -> option string) (html : string) (l : Link) :
  In l (Inbox.extractLinksFromHtml url_hostname html) ->
  skipped_scheme (url l) = false /\ Inbox.skipped_noise (url l) = false.
Proof.
  unfold Inbox.extractLinksFromHtml.
  destruct (negb (Js.truthy html)); [intros []|].
  revert l.
  apply (fold_left_invariant
           (fun links => forall l, In l links ->
              skipped_scheme (url l) = false /\ Inbox.skipped_noise (url l) = false)).
  - intros l [].
  - intros links m IH l. unfold Inbox.add_link.
    destruct (skipped_scheme (fst m)) eqn:Hs; [apply IH|].
    destruct (Inbox.skipped_noise (fst m)) eqn:Hn; [apply IH|].
    destruct (negb (has_url (fst m) links)); [|apply IH].
    intros Hin. apply in_app_or in Hin. destruct Hin as [Hin|[<-|[]]].
    + apply IH, Hin.
    + simpl. split; assumption.
Qed.

(** Every link the processor's extractor returns has passed its filters:
    the schemes, and the two substrings it looks for. *)
Lemma processor_links_filtered (html : string) (l : Link) :
  In l (Processor.extractLinksFromHtml html) ->
  skipped_scheme (url l) = false /\
  Js.includes "unsubscribe" (Js.toLowerCase (url l)) = false /\
  Js.includes "tracking" (Js.toLowerCase (url l)) = false.
Proof.
  unfold Processor.extractLinksFromHtml.
  destruct (negb (Js.truthy html)); [intros []|].
  revert l.
  apply (fold_left_invariant
           (fun links => forall l, In l links ->
              skipped_scheme (url l) = false /\
              Js.includes "unsubscribe" (Js.toLowerCase (url l)) = false /\
              Js.includes "tracking" (Js.toLowerCase (url l)) = false)).
  - intros l [].
  - intros links m IH l. unfold Processor.add_link.
    destruct (skipped_scheme (fst m)) eqn:Hs; [apply IH|].
    destruct (Js.includes "unsubscribe" (Js.toLowerCase (fst m))) eqn:Hu; [apply IH|].
    destruct (Js.includes "tracking" (Js.toLowerCase (fst m))) eqn:Ht; [apply IH|].
    simpl orb. cbv iota.
    destruct (negb (has_url (fst m) links) && (String.length (fst m) <=? 2000));
      [|apply IH].
    intros Hin. apply in_app_or in Hin. destruct Hin as [Hin|[<-|[]]].
    + apply IH, Hin.
    + simpl. repeat split; assumption.
Qed.

(** C8: the router's extractor returns no link whose URL starts with one of
    the five schemes or contains one of the four substrings, whatever the
    HTML; the processor's extractor, which looks for [unsubscribe] and
    [tracking] only, returns the link of an anchor whose URL contains
    [click.], where the router's returns none. *)
Theorem processor_extractor_keeps_click_links :
  (forall url_hostname html l,
      In l (Inbox.extractLinksFromHtml url_hostname html) ->
      skipped_scheme (url l) = false /\ Inbox.skipped_noise (url l) = false)
  /\ Inbox.skipped_noise "https://click.example.com/offer" = true
  /\ Inbox.extractLinksFromHtml (fun _ => None)
       "<a href='https://click.example.com/offer'>Offer</a>" = []
  /\ Processor.extractLinksFromHtml
       "<a href='https://click.example.com/offer'>Offer</a>" =
     [{| url := "https://click.example.com/offer"; title := "Offer" |}].
Proof.
  split; [exact inbox_links_filtered|].
  split; [reflexivity|]. split; reflexivity.
Qed.

(** *** What both conversions guarantee about white space *)

Lemma is_newline_eqb (c : ascii) : Js.is_newline c = Ascii.eqb (ascii_of_nat 10) c.
Proof. destruct c as [[] [] [] [] [] [] [] []]; reflexivity. Qed.

Lemma replace_from_drop (m : string -> option nat) (rep : string) (k : nat) (s : string) :
  Js.replace_from m rep k s = Js.replace_from m rep 0 (Js.drop k s).
Proof.
  revert k. induction s as [|c s IH]; intros k.
  - destruct k; reflexivity.
  - destruct k as [|k]; [reflexivity|]. simpl Js.drop. rewrite <- IH. reflexivity.
Qed.

Lemma span_drop_span (cls : ascii -> bool) (s : string) :
  Js.span cls (Js.drop (Js.span cls s) s) = 0.
Proof.
  induction s as [|c s IH]; [reflexivity|].
  simpl Js.span at 2. destruct (cls c) eqn:E.
  - simpl Js.drop. exact IH.
  - simpl. rewrite E. reflexivity.
Qed.

Lemma length_drop_le (k : nat) (s : string) : String.length (Js.drop k s) <= String.length s.
Proof.
  revert k. induction s as [|c s IH]; intros k.
  - destruct k; simpl; lia.
  - destruct k as [|k]; simpl; [lia|]. specialize (IH k). lia.
Qed.

Lemma three_newlines_span (s : string) :
  Js.span Js.is_newline s <= 2 ->
  Js.startsWith (Re.nl +++ Re.nl +++ Re.nl) s = false.
Proof.
  change (Re.nl +++ Re.nl +++ Re.nl)
    with (String (ascii_of_nat 10)
            (String (ascii_of_nat 10) (String (ascii_of_nat 10) EmptyString))).
  intros H.
  destruct s as [|a s]; [reflexivity|].
  cbn [Js.startsWith Js.span] in *. rewrite <- is_newline_eqb.
  destruct (Js.is_newline a); [|reflexivity].
  destruct s as [|b s]; [reflexivity|].
  cbn [Js.startsWith Js.span andb] in *. rewrite <- is_newline_eqb.
  destruct (Js.is_newline b); [|reflexivity].
  destruct s as [|c s]; [reflexivity|].
  cbn [Js.startsWith Js.span andb] in *. rewrite <- is_newline_eqb.
  destruct (Js.is_newline c); [lia|reflexivity].
Qed.

(** After [replace(/\n{3,}/g, '\n\n')] no three line feeds stand in a
    row. *)
Lemma newlines_collapsed_upto (n : nat) (s : string) :
  String.length s <= n ->
  Js.span Js.is_newline (Js.replace_all Re.newlines3 (Re.nl +++ Re.nl) s)
    <= Nat.min 2 (Js.span Js.is_newline s) /\
  Js.includes (Re.nl +++ Re.nl +++ Re.nl)
    (Js.replace_all Re.newlines3 (Re.nl +++ Re.nl) s) = false.
Proof.
  unfold Js.replace_all. revert s. induction n as [|n IH]; intros s Hlen.
  - destruct s; [split; [simpl; lia|reflexivity]|simpl in Hlen; lia].
  - destruct s as [|c s]; [split; [simpl; lia|reflexivity]|].
    simpl in Hlen.
    assert (E : Js.replace_from Re.newlines3 (Re.nl +++ Re.nl) 0 (String c s) =
                if Js.is_newline c then
                  if 3 <=? S (Js.span Js.is_newline s)
                  then (Re.nl +++ Re.nl) +++
                       Js.replace_from Re.newlines3 (Re.nl +++ Re.nl)
                         (Js.span Js.is_newline s) s
                  else String c (Js.replace_from Re.newlines3 (Re.nl +++ Re.nl) 0 s)
                else String c (Js.replace_from Re.newlines3 (Re.nl +++ Re.nl) 0 s)).
    { cbn [Js.replace_from]. unfold Re.newlines3. cbn [Js.span].
      destruct (Js.is_newline c); [|reflexivity].
      destruct (3 <=? S (Js.span Js.is_newline s)); reflexivity. }
    rewrite E. clear E. cbn [Js.span].
    destruct (Js.is_newline c) eqn:Hc.
    + destruct (3 <=? S (Js.span Js.is_newline s)) eqn:H3.
      * apply Nat.leb_le in H3.
        rewrite replace_from_drop.
        destruct (IH (Js.drop (Js.span Js.is_newline s) s)) as [I1 I2].
        { pose proof (length_drop_le (Js.span Js.is_newline s) s). lia. }
        rewrite span_drop_span in I1.
        assert (Z : Js.span Js.is_newline
                      (Js.replace_from Re.newlines3 (Re.nl +++ Re.nl) 0
                         (Js.drop (Js.span Js.is_newline s) s)) = 0) by lia.
        set (u := Js.replace_from Re.newlines3 (Re.nl +++ Re.nl) 0
                    (Js.drop (Js.span Js.is_newline s) s)) in *.
        change ((Re.nl +++ Re.nl) +++ u)
          with (String (ascii_of_nat 10) (String (ascii_of_nat 10) u)).
        assert (S2 : Js.span Js.is_newline
                       (String (ascii_of_nat 10) (String (ascii_of_nat 10) u)) = 2)
          by (simpl; rewrite Z; reflexivity).
        assert (S1 : Js.span Js.is_newline (String (ascii_of_nat 10) u) = 1)
          by (simpl; rewrite Z; reflexivity).
        split; [rewrite S2; lia|].
        cbn [Js.includes].
        rewrite (three_newlines_span (String (ascii_of_nat 10) (String (ascii_of_nat 10) u)))
          by (rewrite S2; lia).
        rewrite (three_newlines_span (String (ascii_of_nat 10) u)) by (rewrite S1; lia).
        exact I2.
      * apply Nat.leb_gt in H3.
        destruct (IH s) as [I1 I2]; [lia|].
        set (u := Js.replace_from Re.newlines3 (Re.nl +++ Re.nl) 0 s) in *.
        assert (S1 : Js.span Js.is_newline (String c u) = S (Js.span Js.is_newline u))
          by (simpl; rewrite Hc; reflexivity).
        split; [rewrite S1; lia|].
        cbn [Js.includes].
        rewrite (three_newlines_span (String c u)) by (rewrite S1; lia).
        exact I2.
    + destruct (IH s) as [I1 I2]; [lia|].
      set (u := Js.replace_from Re.newlines3 (Re.nl +++ Re.nl) 0 s) in *.
      assert (S0 : Js.span Js.is_newline (String c u) = 0)
        by (simpl; rewrite Hc; reflexivity).
      split; [rewrite S0; lia|].
      cbn [Js.includes].
      rewrite (three_newlines_span (String c u)) by (rewrite S0; lia).
      exact I2.
Qed.

Lemma includes_empty (p s : string) : Js.includes p EmptyString = true -> Js.includes p s = true.
Proof.
  destruct p; [|discriminate]. intros _. destruct s; reflexivity.
Qed.

Lemma includes_skip_ws (p s : string) :
  Js.includes p (Js.skip_ws s) = true -> Js.includes p s = true.
Proof.
  induction s as [|c s IH]; [auto|].
  simpl Js.skip_ws. destruct (Js.is_ws c); [|auto].
  intros H. cbn [Js.includes]. rewrite (IH H). apply orb_true_r.
Qed.

Lemma startsWith_trimEnd (p s : string) :
  Js.startsWith p (Js.trimEnd s) = true -> Js.startsWith p s = true.
Proof.
  revert p. induction s as [|c s IH]; intros p; [auto|].
  cbn [Js.trimEnd]. destruct (Js.all_ws (String c s)).
  - destruct p; [reflexivity|discriminate].
  - destruct p as [|a p]; [reflexivity|]. cbn [Js.startsWith].
    intros H. apply andb_true_iff in H. destruct H as [H1 H2].
    rewrite H1, (IH p H2). reflexivity.
Qed.

Lemma includes_trimEnd (p s : string) :
  Js.includes p (Js.trimEnd s) = true -> Js.includes p s = true.
Proof.
  induction s as [|c s IH]; [auto|].
  cbn [Js.trimEnd]. destruct (Js.all_ws (String c s)) eqn:E.
  - apply includes_empty.
  - cbn [Js.includes]. intros H. apply orb_true_iff in H. destruct H as [H|H].
    + rewrite (startsWith_trimEnd p (String c s)); [reflexivity|].
      cbn [Js.trimEnd]. rewrite E. exact H.
    + rewrite (IH H). apply orb_true_r.
Qed.

Lemma skip_ws_trimEnd (s : string) :
  Js.skip_ws (Js.trimEnd (Js.skip_ws s)) = Js.trimEnd (Js.skip_ws s).
Proof.
  induction s as [|c s IH]; [reflexivity|].
  cbn [Js.skip_ws]. destruct (Js.is_ws c) eqn:E; [exact IH|].
  cbn [Js.trimEnd Js.all_ws]. rewrite E. cbn [andb Js.skip_ws]. rewrite E. reflexivity.
Qed.

Lemma trimEnd_nil (s : string) : Js.trimEnd s = EmptyString -> Js.all_ws s = true.
Proof.
  destruct s as [|c s]; [reflexivity|].
  cbn [Js.trimEnd]. destruct (Js.all_ws (String c s)); [reflexivity|discriminate].
Qed.

Lemma all_ws_trimEnd (s : string) :
  Js.all_ws (Js.trimEnd s) = true -> Js.trimEnd s = EmptyString.
Proof.
  induction s as [|c s IH]; [reflexivity|].
  cbn [Js.trimEnd]. destruct (Js.all_ws (String c s)) eqn:E; [reflexivity|].
  cbn [Js.all_ws] in *. intros H. apply andb_true_iff in H. destruct H as [H1 H2].
  rewrite H1 in E. cbn [andb] in E.
  rewrite (trimEnd_nil s (IH H2)) in E. discriminate E.
Qed.

Lemma trimEnd_idem (s : string) : Js.trimEnd (Js.trimEnd s) = Js.trimEnd s.
Proof.
  induction s as [|c s IH]; [reflexivity|].
  cbn [Js.trimEnd]. destruct (Js.all_ws (String c s)) eqn:E; [reflexivity|].
  cbn [Js.trimEnd].
  destruct (Js.all_ws (String c (Js.trimEnd s))) eqn:E2.
  - cbn [Js.all_ws] in E, E2. apply andb_true_iff in E2. destruct E2 as [H1 H2].
    rewrite H1 in E. cbn [andb] in E.
    rewrite (trimEnd_nil s (all_ws_trimEnd s H2)) in E. discriminate E.
  - rewrite IH. reflexivity.
Qed.

Lemma trim_idem (s : string) : Js.trim (Js.trim s) = Js.trim s.
Proof.
  unfold Js.trim. rewrite skip_ws_trimEnd. apply trimEnd_idem.
Qed.

Lemma includes_trim (p s : string) :
  Js.includes p s = false -> Js.includes p (Js.trim s) = false.
Proof.
  intros H. destruct (Js.includes p (Js.trim s)) eqn:E; [|reflexivity].
  unfold Js.trim in E. apply includes_trimEnd, includes_skip_ws in E. congruence.
Qed.

(** The result of either conversion holds no three line feeds in a row and
    has no white space at its ends. *)
Lemma htmlToPlainText_white_space (html : string) :
  (Js.includes (Re.nl +++ Re.nl +++ Re.nl) (Inbox.htmlToPlainText html) = false /\
   Js.trim (Inbox.htmlToPlainText html) = Inbox.htmlToPlainText html) /\
  (Js.includes (Re.nl +++ Re.nl +++ Re.nl) (Processor.htmlToPlainText html) = false /\
   Js.trim (Processor.htmlToPlainText html) = Processor.htmlToPlainText html).
Proof.
  unfold Inbox.htmlToPlainText, Processor.htmlToPlainText.
  destruct (negb (Js.truthy html)); [repeat split|].
  cbv zeta. split; (split; [|apply trim_idem]); apply includes_trim;
    match goal with
    | |- Js.includes _ (Js.replace_all _ _ ?t) = false =>
        exact (proj2 (newlines_collapsed_upto (String.length t) t (le_n _)))
    end.
Qed.

(** C7: on a body with list items, a heading and numeric or [apos]
    entities the processor's conversion glues the items together and leaves
    the entities in, and it keeps blanks at the ends of lines; the router's
    conversion does what the claim says on the same inputs. *)
Theorem processor_htmlToPlainText_misses_cases :
  Processor.htmlToPlainText
    "<h2>Chairs</h2><ul><li>It&#39;s loose</li><li>leg &apos;B&apos;</li></ul>"
  = "ChairsIt&#39;s looseleg &apos;B&apos;"
  /\ Inbox.htmlToPlainText
    "<h2>Chairs</h2><ul><li>It&#39;s loose</li><li>leg &apos;B&apos;</li></ul>"
  = "Chairs" +++ Re.nl +++ Re.nl +++ "It's loose" +++ Re.nl +++ "leg 'B'"
  /\ Processor.htmlToPlainText "<tr><td>a</td></tr><tr><td>b</td></tr>" = "ab"
  /\ Inbox.htmlToPlainText "<tr><td>a</td></tr><tr><td>b</td></tr>"
     = "a" +++ Re.nl +++ "b"
  /\ Processor.htmlToPlainText "<div>a  </div>  b" = "a  " +++ Re.nl +++ "  b"
  /\ Inbox.htmlToPlainText "<div>a  </div>  b" = "a" +++ Re.nl +++ "b".
Proof.
  repeat split; vm_compute; reflexivity.
Qed.

(** ** The effect combinators *)

Lemma final_bind {A B} (m : M A) (k : A -> M B) (w : World) :
  final (bind m k w) =
  match m w with
  | Ret a w' => final (k a w')
  | Exn w' => w'
  end.
Proof. unfold bind. destruct (m w); reflexivity. Qed.

Lemma final_try_catch {A} (m h : M A) (w : World) :
  final (try_catch m h w) =
  match m w with
  | Ret _ w' => w'
  | Exn w' => final (h w')
  end.
Proof. unfold try_catch. destruct (m w); reflexivity. Qed.

(** A loop whose body never throws returns, and an invariant of the body is
    an invariant of the loop. *)
Lemma for_fold_returns {B S} (I : S -> World -> Prop)
      (l : list B) (body : S -> B -> M S) :
  (forall acc x w, I acc w ->
     exists acc' w', body acc x w = Ret acc' w' /\ I acc' w') ->
  forall acc w, I acc w ->
    exists acc' w', for_fold l body acc w = Ret acc' w' /\ I acc' w'.
Proof.
  intros Hbody. induction l as [|x l IH]; simpl; intros acc w HI.
  - exists acc, w. split; [reflexivity|exact HI].
  - destruct (Hbody acc x w HI) as (acc1 & w1 & E1 & H1).
    unfold bind. rewrite E1. apply IH, H1.
Qed.

(** ** What the savers of attachments and links leave alone *)

Lemma same_core_refl (w : World) : same_core w w.
Proof. unfold same_core; repeat split; reflexivity. Qed.

Lemma same_core_trans (w1 w2 w3 : World) :
  same_core w1 w2 -> same_core w2 w3 -> same_core w1 w3.
Proof.
  unfold same_core.
  intros (A1 & A2 & A3 & A4 & A5 & A6) (B1 & B2 & B3 & B4 & B5 & B6).
  repeat split; congruence.
Qed.

Lemma grown_refl (w : World) : grown w w 0 0 0.
Proof. split; try apply same_core_refl; simpl; auto. Qed.

Lemma mark_reads_log_call (c : Call) (w : World) :
  is_mark_read c = false -> mark_reads (log_call c w) = mark_reads w.
Proof.
  intros H. unfold mark_reads, log_call. simpl.
  rewrite filter_app. simpl. rewrite H. apply app_nil_r.
Qed.

Lemma save_attachment_grows (emailId : string) (recordId moduleId : nat)
      (userEmail : string) (w0 : World) (counts : nat * nat) (a : AttachmentEnv) (w : World) :
  grown w0 w (fst counts) (snd counts) 0 ->
  exists counts' w',
    save_attachment emailId recordId moduleId userEmail counts a w = Ret counts' w' /\
    grown w0 w' (fst counts') (snd counts') 0.
Proof.
  intros [Hc Hh Hi Hd Hl].
  destruct Hc as (C1 & C2 & C3 & C4 & C5 & C6).
  unfold save_attachment, try_catch, bind, downloadAttachment, writeFileSync,
    insert_image, insert_document, ret.
  destruct (download_ok a); simpl.
  2:{ eexists _, _. split; [reflexivity|].
      split; simpl; auto. unfold same_core. simpl.
      rewrite mark_reads_log_call by reflexivity. repeat split; assumption. }
  destruct (write_ok a); simpl.
  2:{ eexists _, _. split; [reflexivity|].
      split; simpl; auto. unfold same_core. simpl.
      rewrite mark_reads_log_call by reflexivity. repeat split; assumption. }
  destruct (isImageContentType (Attachment.contentType (meta a)));
    destruct (row_insert_ok a); simpl;
    (eexists _, _; split; [reflexivity|];
     split; simpl; auto;
     [ unfold same_core; simpl;
       change (mark_reads (set_files ?f ?x)) with (mark_reads x);
       repeat split; try assumption;
       unfold mark_reads in *; simpl; rewrite filter_app; simpl;
       rewrite app_nil_r; assumption
     | try (rewrite length_app; simpl; lia) .. ]).
Qed.

Lemma grown_log_call (w0 w : World) (c : Call) (i d k : nat) :
  is_mark_read c = false -> grown w0 w i d k -> grown w0 (log_call c w) i d k.
Proof.
  intros Hc [Hcore Hh Hi Hd Hl].
  destruct Hcore as (C1 & C2 & C3 & C4 & C5 & C6).
  split; simpl; auto.
  unfold same_core. rewrite (mark_reads_log_call c w Hc). simpl.
  repeat split; assumption.
Qed.

Lemma saveAttachments_grows (me : MsgEnv) (emailId : string) (recordId moduleId : nat)
      (userEmail : string) (w : World) :
  exists counts w',
    saveAttachments me emailId recordId moduleId userEmail w = Ret counts w' /\
    grown w w' (fst counts) (snd counts) 0.
Proof.
  unfold saveAttachments, bind, getEmailAttachments.
  set (w1 := log_call (ListAttachments emailId) w).
  assert (H1 : grown w w1 0 0 0)
    by (apply grown_log_call; [reflexivity|apply grown_refl]).
  destruct (attachments me) as [atts|].
  - apply (for_fold_returns (fun counts w' => grown w w' (fst counts) (snd counts) 0)).
    + intros acc x w2 H2. apply save_attachment_grows, H2.
    + exact H1.
  - exists (0, 0), w1. split; [reflexivity|exact H1].
Qed.

Lemma save_link_grows (me : MsgEnv) (recordId moduleId : nat) (u t : string)
      (w0 : World) (savedCount : nat) (w : World) :
  grown w0 w 0 0 savedCount ->
  exists n w',
    save_link me recordId moduleId u t savedCount w = Ret n w' /\ grown w0 w' 0 0 n.
Proof.
  intros H. unfold save_link, try_catch, bind, insert_link, ret.
  destruct (link_insert_ok me u).
  - eexists _, _. split; [reflexivity|].
    destruct H as [Hcore Hh Hi Hd Hl]. split; simpl; auto.
    rewrite length_app. simpl. lia.
  - exists savedCount, w. split; [reflexivity|exact H].
Qed.

Lemma save_links_grows (v : Variant) (env : Env) (me : MsgEnv)
      (recordId moduleId : nat) (html : string) (w : World) :
  exists n w',
    save_links v env me recordId moduleId html w = Ret n w' /\ grown w w' 0 0 n.
Proof.
  assert (Hp : exists n w', saveLinks me recordId moduleId html w = Ret n w' /\
                            grown w w' 0 0 n).
  { unfold saveLinks.
    apply (for_fold_returns (fun n w' => grown w w' 0 0 n)).
    - intros acc x w1 H1. apply save_link_grows, H1.
    - apply grown_refl. }
  assert (Hr : exists n w', saveEmailLinks env me recordId moduleId html w = Ret n w' /\
                            grown w w' 0 0 n).
  { unfold saveEmailLinks.
    apply (for_fold_returns (fun n w' => grown w w' 0 0 n)).
    - intros acc x w1 H1.
      destruct (2000 <? String.length (url x)).
      + exists acc, w1. split; [reflexivity|exact H1].
      + apply save_link_grows, H1.
    - apply grown_refl. }
  destruct v; simpl; assumption.
Qed.

(** ** The ways record creation ends *)

Lemma bind_ret_eq {A B} (m : M A) (k : A -> M B) (w w' : World) (a : A) :
  m w = Ret a w' -> bind m k w = k a w'.
Proof. intros H. unfold bind. rewrite H. reflexivity. Qed.

Lemma grown_add (w1 w2 w3 : World) (i d k : nat) :
  grown w1 w2 i d 0 -> grown w2 w3 0 0 k -> grown w1 w3 i d k.
Proof.
  intros [A1 A2 A3 A4 A5] [B1 B2 B3 B4 B5].
  split.
  - eapply same_core_trans; eassumption.
  - congruence.
  - lia.
  - lia.
  - lia.
Qed.

Lemma bind_exn_eq {A B} (m : M A) (k : A -> M B) (w w' : World) :
  m w = Exn w' -> bind m k w = Exn w'.
Proof. intros H. unfold bind. rewrite H. reflexivity. Qed.

Lemma create_record_creation (v : Variant) (env : Env) (uploadsDir : string)
      (email : Email.t) (module : ModuleRow.t) (cleanSubject : string) (w : World) :
  creation v env email module cleanSubject w
    (create_record v env uploadsDir email module cleanSubject w).
Proof.
  unfold create_record. cbv zeta.
  set (me := msg_env env (Email.id email)).
  set (mid := ModuleRow.id module).
  set (rid := S (module_records_seq w)).
  set (w1 := with_record v email module cleanSubject w).
  set (w2 := with_ledger_row (processed_row email mid rid) w1).
  destruct (record_insert_ok me) eqn:Hrec.
  2:{ rewrite (bind_exn_eq _ _ w w).
      - apply cr_record_fails. exact Hrec.
      - reflexivity. }
  rewrite (bind_ret_eq _ _ w w1 rid)
    by reflexivity.
  destruct (ledger_insert_ok me && negb (ledgered (Email.id email) w)) eqn:Hled.
  2:{ rewrite (bind_exn_eq _ _ w1 w1).
      - apply cr_ledger_fails; assumption.
      - unfold insert_processed_email.
        change (ledgered (Ledger.email_id (processed_row email mid rid)) w1)
          with (ledgered (Email.id email) w).
        rewrite Hled. reflexivity. }
  rewrite (bind_ret_eq _ _ w1 w2 tt)
    by (unfold insert_processed_email;
        change (ledgered (Ledger.email_id (processed_row email mid rid)) w1)
          with (ledgered (Email.id email) w);
        rewrite Hled; reflexivity).
  apply andb_true_iff in Hled. destruct Hled as [Hlok Hfresh].
  apply negb_true_iff in Hfresh.
  assert (Hatt : exists counts w3,
             (if Js.truthy uploadsDir
              then saveAttachments me (Email.id email) rid mid (Email.fromAddress email)
              else ret (0, 0)) w2 = Ret counts w3 /\
             grown w2 w3 (fst counts) (snd counts) 0).
  { destruct (Js.truthy uploadsDir).
    - apply saveAttachments_grows.
    - exists (0, 0), w2. split; [reflexivity|apply grown_refl]. }
  destruct Hatt as ([i d] & w3 & Eatt & Gatt). simpl in Gatt.
  rewrite (bind_ret_eq _ _ _ _ _ Eatt).
  destruct (save_links_grows v env me rid mid (Email.body email) w3)
    as (k & w4 & Elinks & Glinks).
  rewrite (bind_ret_eq _ _ _ _ _ Elinks).
  assert (G : grown w2 w4 i d k) by (eapply grown_add; eassumption).
  simpl fst. simpl snd.
  destruct (history_insert_ok me) eqn:Hhist.
  2:{ rewrite (bind_exn_eq _ _ w4 w4).
      - eapply cr_history_fails; eassumption.
      - reflexivity. }
  rewrite (bind_ret_eq _ _ w4 (with_history (created_entry v email mid rid i d k) w4) tt)
    by reflexivity.
  set (w5 := announced v email module cleanSubject rid i d k w4).
  rewrite (bind_ret_eq _ _ _ w5 (auto_response_ok me)) by reflexivity.
  pose proof (cr_done v env email module cleanSubject w i d k w4
                Hrec Hlok Hfresh G Hhist) as Hdone.
  unfold completed in Hdone. fold me mid rid w5 in Hdone. cbv zeta in Hdone.
  fold w5 in Hdone.
  destruct (auto_response_ok me) eqn:Hsend.
  - destruct (sent_history_insert_ok me) eqn:Hsent.
    + rewrite (bind_ret_eq _ _ w5 (with_history (sent_entry email mid rid) w5) tt)
        by reflexivity.
      specialize (Hdone (fun _ => eq_refl)).
      unfold bind, ret, markEmailAsRead in *.
      destruct (mark_read_ok me); exact Hdone.
    + rewrite (bind_exn_eq _ _ w5 w5)
        by reflexivity.
      eapply cr_sent_history_fails; eassumption.
  - rewrite (bind_ret_eq _ _ w5 w5 tt) by reflexivity.
    specialize (Hdone (fun H => match Bool.diff_false_true H with end)).
    unfold bind, ret, markEmailAsRead in *.
    destruct (mark_read_ok me); exact Hdone.
Qed.

(** ** The passes only make the writes of the transition system *)

Lemma steps_trans (k : Kind) (env : Env) (T : string -> Prop) (w1 w2 w3 : World) :
  steps k env T w1 w2 -> steps k env T w2 w3 -> steps k env T w1 w3.
Proof.
  intros H12 H23. induction H23 as [|wa wb Hs IH He].
  - exact H12.
  - eapply steps_more; eassumption.
Qed.

Lemma steps_one (k : Kind) (env : Env) (T : string -> Prop) (w w' : World) :
  effect k env T w w' -> steps k env T w w'.
Proof. intros H. eapply steps_more; [apply steps_refl|exact H]. Qed.

Lemma steps_core (k : Kind) (env : Env) (T : string -> Prop) (w w' : World) :
  same_core w w' -> steps k env T w w'.
Proof. intros H. apply steps_one, eff_other, H. Qed.

Lemma steps_weaken (k : Kind) (env : Env) (T T' : string -> Prop) (w w' : World) :
  (forall i, T i -> T' i) -> steps k env T w w' -> steps k env T' w w'.
Proof.
  intros HT Hs. induction Hs as [|w1 w2 Hs IH He]; [apply steps_refl|].
  eapply steps_more; [exact IH|].
  destruct He as [row H0 H1 H2 H3
                 | row rid mid H0 H1 H2 H3 H4 H5 H6 H7 H8
                 | row H0 H1 H2 H3 H4 H5 H6
                 | emailId ok H0 H1
                 | w2 Hc].
  - apply eff_record; auto.
  - eapply eff_processed; eauto.
  - apply eff_verdict; auto.
  - apply eff_mark_read; auto.
  - apply eff_other, Hc.
Qed.

Lemma keys_set_read (emailId : string) (mb : list Email.t) :
  List.map (fun m => (Email.id m, Email.subject (with_default_subject m)))
           (List.map (set_read emailId) mb) =
  List.map (fun m => (Email.id m, Email.subject (with_default_subject m))) mb.
Proof.
  rewrite map_map. apply map_ext. intros m. unfold set_read.
  destruct (String.eqb (Email.id m) emailId); reflexivity.
Qed.

Lemma markEmailAsRead_final (ok : bool) (emailId : string) (w : World) :
  final (markEmailAsRead ok emailId w) =
  let w' := log_call (MarkRead emailId) w in
  if ok then set_mailbox (List.map (set_read emailId) (mailbox w)) w' else w'.
Proof. unfold markEmailAsRead. destruct ok; reflexivity. Qed.

(** The modules and the ids and subjects of the mailbox stay as they are. *)
Lemma effect_frame (k : Kind) (env : Env) (T : string -> Prop) (w w' : World) :
  effect k env T w w' -> modules w' = modules w /\ keys w' = keys w.
Proof.
  intros H. destruct H as [row| row rid mid | row | emailId ok | w' Hc];
    try (split; reflexivity).
  - rewrite markEmailAsRead_final. destruct ok; simpl; split; try reflexivity.
    unfold keys. simpl. apply keys_set_read.
  - destruct Hc as (C1 & C2 & C3 & C4 & C5 & C6). unfold keys.
    rewrite C5. split; [exact C1|reflexivity].
Qed.

Lemma steps_frame (k : Kind) (env : Env) (T : string -> Prop) (w w' : World) :
  steps k env T w w' -> modules w' = modules w /\ keys w' = keys w.
Proof.
  induction 1 as [|w1 w2 Hs IH He].
  - split; reflexivity.
  - destruct IH as [IH1 IH2]. destruct (effect_frame _ _ _ _ _ He) as [E1 E2].
    split; congruence.
Qed.

Lemma creation_steps (v : Variant) (env : Env) (email : Email.t)
      (module : ModuleRow.t) (cleanSubject : string) (w : World)
      (r : result (nat * (nat * nat) * nat)) :
  ledgered (Email.id email) w = false ->
  In (Email.id email, Email.subject email) (keys w) ->
  (kind_of v = KAuto -> auto_route (modules w) (Email.subject email) = Some module) ->
  creation v env email module cleanSubject w r ->
  steps (kind_of v) env (eq (Email.id email)) w (final r).
Proof.
  intros Hfresh Hkey Hroute Hr.
  set (w1 := with_record v email module cleanSubject w).
  set (rid := S (module_records_seq w)).
  set (w2 := with_ledger_row (processed_row email (ModuleRow.id module) rid) w1).
  assert (S1 : record_insert_ok (msg_env env (Email.id email)) = true ->
               steps (kind_of v) env (eq (Email.id email)) w w1).
  { intros Hrec. apply steps_one.
    apply (eff_record (kind_of v) env _ w (new_record v email module cleanSubject w));
      solve [assumption | reflexivity]. }
  assert (S2 : record_insert_ok (msg_env env (Email.id email)) = true ->
               steps (kind_of v) env (eq (Email.id email)) w w2).
  { intros Hrec. eapply steps_more; [apply S1, Hrec|].
    apply (eff_processed (kind_of v) env _ w1
             (processed_row email (ModuleRow.id module) rid) rid (ModuleRow.id module));
      try solve [assumption | reflexivity].
    - exists (new_record v email module cleanSubject w).
      split; [|repeat split].
      unfold w1, with_record. simpl. apply in_or_app. right. left. reflexivity.
    - intros Hk. exists module. split; [|reflexivity]. apply Hroute, Hk. }
  assert (S5 : forall i d k w3,
             record_insert_ok (msg_env env (Email.id email)) = true ->
             grown w2 w3 i d k ->
             steps (kind_of v) env (eq (Email.id email)) w
               (announced v email module cleanSubject rid i d k w3)).
  { intros i d k w3 Hrec G. eapply steps_trans; [apply S2, Hrec|].
    apply steps_core. eapply same_core_trans; [apply (grown_core _ _ _ _ _ G)|].
    unfold announced, with_history, same_core. simpl.
    rewrite mark_reads_log_call by reflexivity.
    repeat split; reflexivity. }
  destruct Hr as [Hrec | Hrec Hled | i d k w3 Hrec Hlok Hf G Hh
                 | i d k w3 Hrec Hlok Hf G Hh Hsend Hsent
                 | i d k w3 Hrec Hlok Hf G Hh Hsent]; simpl final.
  - apply steps_refl.
  - apply S1, Hrec.
  - eapply steps_trans; [apply S2, Hrec|].
    apply steps_core, (grown_core _ _ _ _ _ G).
  - apply S5; assumption.
  - unfold completed. cbv zeta.
    eapply steps_more; [|apply eff_mark_read; [reflexivity|exact Hrec]].
    destruct (auto_response_ok (msg_env env (Email.id email))).
    + eapply steps_trans; [apply (S5 i d k w3 Hrec G)|].
      apply steps_core. unfold with_history, same_core. simpl.
      repeat split; reflexivity.
    + apply (S5 i d k w3 Hrec G).
Qed.

Lemma for_each_steps {B} (k : Kind) (env : Env) (T : string -> Prop) (l : list B) (body : B -> M unit) (w : World) :
  (forall x w1, In x l -> steps k env T w w1 -> steps k env T w1 (final (body x w1))) ->
  steps k env T w (final (for_each l body w)).
Proof.
  revert w. induction l as [|x l IH]; simpl; intros w Hbody.
  - apply steps_refl.
  - rewrite final_bind.
    pose proof (Hbody x w (or_introl eq_refl) (steps_refl _ _ _ _)) as Hx.
    destruct (body x w) as [[] w1|w1]; simpl in Hx; [|exact Hx].
    eapply steps_trans; [exact Hx|].
    apply IH. intros y w2 Hy H2. apply Hbody; [right; exact Hy|].
    eapply steps_trans; eassumption.
Qed.

Lemma for_fold_steps {B S} (k : Kind) (env : Env) (T : string -> Prop) (l : list B) (body : S -> B -> M S)
      (acc : S) (w : World) :
  (forall a x w1, In x l -> steps k env T w w1 -> steps k env T w1 (final (body a x w1))) ->
  steps k env T w (final (for_fold l body acc w)).
Proof.
  revert acc w. induction l as [|x l IH]; simpl; intros acc w Hbody.
  - apply steps_refl.
  - rewrite final_bind.
    pose proof (Hbody acc x w (or_introl eq_refl) (steps_refl _ _ _ _)) as Hx.
    destruct (body acc x w) as [acc1 w1|w1]; simpl in Hx; [|exact Hx].
    eapply steps_trans; [exact Hx|].
    apply IH. intros a y w2 Hy H2. apply Hbody; [right; exact Hy|].
    eapply steps_trans; eassumption.
Qed.

Lemma final_guarded {A} (m : M A) (w : World) :
  final (try_catch (m ;;; ret tt) (ret tt) w) = final (m w).
Proof. unfold try_catch, bind, ret. destruct (m w); reflexivity. Qed.

Lemma process_message_auto_steps (env : Env) (uploadsDir : string)
      (mods : list ModuleRow.t) (email : Email.t) (w : World) :
  mods = filter auto_enabled (filter ModuleRow.is_active (modules w)) ->
  In (Email.id email, Email.subject email) (keys w) ->
  steps KAuto env
    (fun i => i = Email.id email /\
              auto_route (modules w) (Email.subject email) <> None) w
    (final (process_message_auto env uploadsDir mods email w)).
Proof.
  intros Hmods Hkey. unfold process_message_auto. cbv zeta.
  rewrite final_bind. unfold get_existing.
  destruct (existing_query_ok (msg_env env (Email.id email))); [|apply steps_refl].
  destruct (ledgered (Email.id email) w) eqn:Hfresh; [apply steps_refl|].
  destruct (named (moduleName (parseModuleTagFromSubject (Email.subject email))))
    as [name|] eqn:Hname; [|apply steps_refl].
  destruct (find_auto_module mods name) as [module|] eqn:Hfind; [|apply steps_refl].
  assert (Hroute : auto_route (modules w) (Email.subject email) = Some module).
  { unfold auto_route. rewrite Hname, <- Hmods. exact Hfind. }
  rewrite final_guarded.
  apply (steps_weaken _ _ (eq (Email.id email))).
  { intros i <-. split; [reflexivity|]. rewrite Hroute. discriminate. }
  eapply (creation_steps Automatic);
    [exact Hfresh|exact Hkey|intros _; exact Hroute|apply create_record_creation].
Qed.

Lemma verdict_steps (env : Env) (email : Email.t) (moduleId : option nat)
      (st : Status) (message : string) (w : World) :
  st <> processed ->
  In (Email.id email, Email.subject email) (keys w) ->
  bulk_route (modules w) (Email.subject email) = None ->
  steps KBulk env (eq (Email.id email)) w
    (final (insert_processed_email (ledger_insert_ok (msg_env env (Email.id email)))
              (verdict_row email moduleId st message) w)).
Proof.
  intros Hst Hkey Hroute. unfold insert_processed_email.
  destruct (ledger_insert_ok (msg_env env (Email.id email)) &&
            negb (ledgered (Ledger.email_id (verdict_row email moduleId st message)) w))
           eqn:Hled; [|apply steps_refl].
  apply andb_true_iff in Hled. destruct Hled as [_ Hfresh].
  apply negb_true_iff in Hfresh.
  apply steps_one. apply eff_verdict; solve [assumption | reflexivity].
Qed.

Lemma final_bind_pure {A B} (m : M A) (k : A -> M B) (w : World) :
  (forall a w', final (k a w') = w') -> final (bind m k w) = final (m w).
Proof. intros H. unfold bind. destruct (m w); [apply H|reflexivity]. Qed.

Lemma process_message_steps (env : Env) (uploadsDir : string)
      (summary : Summary) (email : Email.t) (w : World) :
  In (Email.id email, Email.subject email) (keys w) ->
  steps KBulk env (eq (Email.id email)) w
    (final (process_message env uploadsDir summary email w)).
Proof.
  intros Hkey. unfold process_message. cbv zeta.
  rewrite final_bind. unfold get_existing.
  destruct (existing_query_ok (msg_env env (Email.id email))); [|apply steps_refl].
  destruct (ledgered (Email.id email) w) eqn:Hfresh; [apply steps_refl|].
  destruct (named (moduleName (parseModuleTagFromSubject (Email.subject email))))
    as [name|] eqn:Hname.
  2:{ rewrite final_bind_pure by reflexivity. apply verdict_steps; [discriminate|exact Hkey|].
      unfold bulk_route. rewrite Hname. reflexivity. }
  rewrite final_bind. unfold get_module.
  destruct (module_query_ok (msg_env env (Email.id email))); [|apply steps_refl].
  destruct (find _ (modules w)) as [module|] eqn:Hfind.
  2:{ rewrite final_bind_pure by reflexivity. apply verdict_steps; [discriminate|exact Hkey|].
      unfold bulk_route. rewrite Hname, Hfind. reflexivity. }
  destruct (inbox_enabled module) eqn:Hen; cbn [negb].
  - rewrite final_bind_pure by reflexivity.
    eapply (creation_steps Bulk);
      [exact Hfresh|exact Hkey|discriminate|apply create_record_creation].
  - rewrite final_bind_pure by reflexivity. apply verdict_steps; [discriminate|exact Hkey|].
    unfold bulk_route. rewrite Hname, Hfind, Hen. reflexivity.
Qed.

Lemma In_firstn {A} (n : nat) (l : list A) (x : A) : In x (firstn n l) -> In x l.
Proof.
  intros H. rewrite <- (firstn_skipn n l). apply in_or_app. left. exact H.
Qed.

(** The messages a fetch returns are messages of the mailbox. *)
Lemma fetched_keys (n : nat) (unreadOnly : bool) (w : World) (email : Email.t) :
  In email (listed n unreadOnly (mailbox w)) ->
  In (Email.id email, Email.subject email) (keys w).
Proof.
  unfold listed. intros H. apply in_map_iff in H. destruct H as (m & <- & Hm).
  apply In_firstn in Hm. apply filter_In in Hm. destruct Hm as [Hm _].
  unfold keys. apply in_map_iff. exists m. split; [reflexivity|exact Hm].
Qed.

Lemma steps_log_call (k : Kind) (env : Env) (T : string -> Prop) (c : Call) (w : World) :
  is_mark_read c = false -> steps k env T w (log_call c w).
Proof.
  intros Hc. apply steps_core. unfold same_core.
  rewrite (mark_reads_log_call c w Hc). repeat split; reflexivity.
Qed.

Lemma steps_flags (k : Kind) (env : Env) (T : string -> Prop) (w : World) (a b : bool) :
  steps k env T w (set_isProcessing a (set_debugLogging b w)).
Proof. apply steps_core. unfold same_core. repeat split; reflexivity. Qed.

Lemma steps_set_isProcessing (k : Kind) (env : Env) (T : string -> Prop) (w : World) (a : bool) :
  steps k env T w (set_isProcessing a w).
Proof. apply steps_core. unfold same_core. repeat split; reflexivity. Qed.

Lemma bulk_loop_steps (env : Env) (uploadsDir : string) (batch : list Email.t)
      (acc : Summary) (w : World) :
  (forall x, In x batch -> In (Email.id x, Email.subject x) (keys w)) ->
  steps KBulk env (ids_of batch) w
    (final (for_fold batch (process_message env uploadsDir) acc w)).
Proof.
  intros Hkeys. apply for_fold_steps. intros a x w2 Hx H2.
  apply (steps_weaken _ _ (eq (Email.id x))).
  { intros i <-. unfold ids_of. apply in_map, Hx. }
  apply process_message_steps.
  destruct (steps_frame _ _ _ _ _ H2) as [_ Hk]. rewrite Hk. apply Hkeys, Hx.
Qed.

(** [POST /process] writes for the messages of its batch only. *)
Lemma post_process_steps_batch (env : Env) (uploadsDir : string) (w : World) :
  steps KBulk env (ids_of (listed 50 true (mailbox w))) w
    (final (post_process env uploadsDir w)).
Proof.
  unfold post_process. rewrite final_try_catch.
  match goal with
  | |- steps _ _ ?T _ match ?body w with _ => _ end =>
      assert (H : steps KBulk env T w (final (body w)));
      [|destruct (body w); exact H]
  end.
  rewrite final_bind. unfold fetchInboxEmails.
  set (w1 := log_call (ListMessages 50 true) w).
  assert (S1 : steps KBulk env (ids_of (listed 50 true (mailbox w))) w w1)
    by (apply steps_log_call; reflexivity).
  destruct (fetch_ok env); [|exact S1].
  rewrite final_bind_pure by reflexivity.
  eapply steps_trans; [exact S1|].
  apply bulk_loop_steps. intros x Hx.
  change (keys w1) with (keys w). eapply fetched_keys. exact Hx.
Qed.

Lemma post_process_steps (env : Env) (uploadsDir : string) (w : World) :
  steps KBulk env any_id w (final (post_process env uploadsDir w)).
Proof.
  eapply steps_weaken; [|apply post_process_steps_batch]. intros; exact I.
Qed.

Lemma post_process_single_steps (env : Env) (uploadsDir emailId : string)
      (bodyModuleName userEmail : option string) (w : World) :
  steps KSingle env any_id w
    (final (post_process_single env uploadsDir emailId bodyModuleName userEmail w)).
Proof.
  unfold post_process_single. cbv zeta. rewrite final_try_catch.
  match goal with
  | |- steps _ _ _ _ match ?body w with _ => _ end =>
      assert (H : steps KSingle env any_id w (final (body w)));
      [|destruct (body w); exact H]
  end.
  rewrite final_bind. unfold fetchInboxEmails.
  set (w1 := log_call (ListMessages 100 false) w).
  assert (S1 : steps KSingle env any_id w w1) by (apply steps_log_call; reflexivity).
  destruct (fetch_ok env); [|exact S1].
  destruct (find _ _) as [email|] eqn:Hfind; [|exact S1].
  pose proof (find_some _ _ Hfind) as [Hin Hid].
  apply String.eqb_eq in Hid. subst emailId.
  rewrite final_bind. unfold get_existing.
  destruct (existing_query_ok (msg_env env (Email.id email))); [|exact S1].
  change (ledgered (Email.id email) w1) with (ledgered (Email.id email) w).
  destruct (ledgered (Email.id email) w) eqn:Hfresh; [exact S1|].
  match goal with
  | |- steps _ _ _ _ (final (match ?t with _ => _ end w1)) =>
      destruct t as [target|]; [|exact S1]
  end.
  rewrite final_bind. unfold get_module.
  destruct (module_query_ok (msg_env env (Email.id email))); [|exact S1].
  destruct (find _ (modules w1)) as [module|]; [|exact S1].
  rewrite final_bind_pure by reflexivity.
  eapply steps_trans; [exact S1|].
  apply (steps_weaken _ _ (eq (Email.id email))); [intros; exact I|].
  eapply (creation_steps (Single userEmail));
    [exact Hfresh| |discriminate|apply create_record_creation].
  change (keys w1) with (keys w). eapply fetched_keys. exact Hin.
Qed.

(** The scheduled pass writes only for the messages of its batch whose
    subject routes to a module of its prefiltered set. *)
Lemma processEmails_steps_batch (env : Env) (uploadsDir : string) (w : World) :
  steps KAuto env (routed_ids (modules w) (listed 50 true (mailbox w))) w
    (final (processEmails env uploadsDir w)).
Proof.
  set (T := routed_ids (modules w) (listed 50 true (mailbox w))).
  unfold processEmails. rewrite final_bind. unfold loadDebugSetting.
  match goal with
  | |- steps _ _ _ _ (final (bind _ _ (set_debugLogging ?b w))) => set (dbg := b)
  end.
  unfold bind at 1. unfold read.
  change (isProcessing (set_debugLogging dbg w)) with (isProcessing w).
  destruct (isProcessing w) eqn:Hbusy.
  { apply steps_core. unfold same_core. repeat split; reflexivity. }
  unfold bind at 1. unfold modify.
  set (w1 := set_isProcessing true (set_debugLogging dbg w)).
  assert (S1 : steps KAuto env T w w1) by apply steps_flags.
  unfold try_catch_finally.
  match goal with
  | |- steps _ _ _ _ (final match try_catch ?body ?h w1 with _ => _ end) =>
      assert (H : steps KAuto env T w (final (try_catch body h w1)));
      [|destruct (try_catch body h w1); simpl in *;
        (eapply steps_trans; [exact H|apply steps_set_isProcessing])]
  end.
  rewrite final_try_catch.
  match goal with
  | |- steps _ _ _ _ match ?body w1 with _ => _ end =>
      assert (H : steps KAuto env T w (final (body w1)));
      [|destruct (body w1); exact H]
  end.
  rewrite final_bind. unfold all_active_modules.
  destruct (modules_query_ok env); [|exact S1].
  change (modules w1) with (modules w).
  set (mods := filter auto_enabled (filter ModuleRow.is_active (modules w))).
  destruct (List.length mods =? 0).
  { eapply steps_trans; [exact S1|apply steps_set_isProcessing]. }
  rewrite final_bind. unfold fetchInboxEmails.
  set (w2 := log_call (ListMessages 50 true) w1).
  assert (S2 : steps KAuto env T w w2).
  { eapply steps_trans; [exact S1|]. apply steps_log_call. reflexivity. }
  destruct (fetch_ok env).
  2:{ eapply steps_trans; [exact S2|apply steps_set_isProcessing]. }
  eapply steps_trans; [exact S2|].
  change (mailbox w1) with (mailbox w).
  apply for_each_steps. intros x w3 Hx H3.
  destruct (steps_frame _ _ _ _ _ H3) as [Hm Hk].
  eapply steps_weaken; [|apply process_message_auto_steps].
  - intros i [-> Hr]. exists x. split; [exact Hx|]. split; [reflexivity|].
    rewrite Hm in Hr. exact Hr.
  - rewrite Hm. reflexivity.
  - rewrite Hk. change (keys w2) with (keys w). eapply fetched_keys. exact Hx.
Qed.

Lemma processEmails_steps (env : Env) (uploadsDir : string) (w : World) :
  steps KAuto env any_id w (final (processEmails env uploadsDir w)).
Proof.
  eapply steps_weaken; [|apply processEmails_steps_batch]. intros; exact I.
Qed.

(** ** Invariants of the transition system *)

Lemma ledgered_false_rows (e : string) (w : World) :
  ledgered e w = false <-> rows_for e w = [].
Proof.
  unfold ledgered, rows_for.
  induction (processed_emails w) as [|r l IH]; simpl.
  - split; reflexivity.
  - destruct (String.eqb (Ledger.email_id r) e); simpl.
    + split; discriminate.
    + exact IH.
Qed.

Lemma ledgered_false_not_in (e : string) (w : World) :
  ledgered e w = false -> ~ In e (List.map Ledger.email_id (processed_emails w)).
Proof.
  unfold ledgered. intros H Hin.
  apply in_map_iff in Hin. destruct Hin as (r & Hr & Hin).
  assert (Ht : existsb (fun r => String.eqb (Ledger.email_id r) e) (processed_emails w) = true).
  { apply existsb_exists. exists r. split; [exact Hin|].
    rewrite Hr. apply String.eqb_refl. }
  congruence.
Qed.

Lemma NoDup_snoc {A} (l : list A) (x : A) : NoDup l -> ~ In x l -> NoDup (l ++ [x]).
Proof.
  induction l as [|a l IH]; simpl; intros Hnd Hx.
  - constructor; [intros []|constructor].
  - inversion Hnd as [|a' l' Ha Hl]; subst. constructor.
    + intros Hin. apply in_app_or in Hin. destruct Hin as [Hin|[->|[]]].
      * exact (Ha Hin).
      * apply Hx. left. reflexivity.
    + apply IH; [exact Hl|]. intros Hin. apply Hx. right. exact Hin.
Qed.

Lemma filter_snoc_out {A} (p : A -> bool) (l : list A) (x : A) :
  p x = false -> filter p (l ++ [x]) = filter p l.
Proof. intros H. rewrite filter_app. simpl. rewrite H. apply app_nil_r. Qed.

(** The ledger stays unique: every row is written for a message that has
    none. *)
Lemma steps_unique_ledger (k : Kind) (env : Env) (T : string -> Prop) (w w' : World) :
  steps k env T w w' -> unique_ledger w -> unique_ledger w'.
Proof.
  induction 1 as [|w1 w2 Hs IH He]; intros Hu; [exact Hu|].
  specialize (IH Hu).
  destruct He as [row HT Hf Hrec Hid
                 | row rid mid HT Hst Hrid Hmid Hf Hrec Hkey Hex Hauto
                 | row HT Hk Hst Hrid Hf Hkey Hroute
                 | emailId ok HT Hrec
                 | w2 Hc].
  - exact IH.
  - unfold unique_ledger. simpl. rewrite map_app. simpl.
    apply NoDup_snoc; [exact IH|apply ledgered_false_not_in, Hf].
  - unfold unique_ledger. simpl. rewrite map_app. simpl.
    apply NoDup_snoc; [exact IH|apply ledgered_false_not_in, Hf].
  - unfold unique_ledger. rewrite markEmailAsRead_final. destruct ok; exact IH.
  - destruct Hc as (C1 & C2 & C3 & C4 & C5 & C6).
    unfold unique_ledger. rewrite C2. exact IH.
Qed.

Lemma ledgered_differs (e e' : string) (w : World) :
  ledgered e w = true -> ledgered e' w = false -> String.eqb e' e = false.
Proof.
  intros H1 H2. destruct (String.eqb_spec e' e) as [->|]; [congruence|reflexivity].
Qed.

Lemma read_requests_mark_reads (e : string) (w w' : World) :
  mark_reads w' = mark_reads w -> read_requests e w' = read_requests e w.
Proof.
  unfold mark_reads, read_requests. intros H.
  assert (E : forall l,
             filter (fun c => match c with
                              | MarkRead i => String.eqb i e
                              | _ => false
                              end) l =
             filter (fun c => match c with
                              | MarkRead i => String.eqb i e
                              | _ => false
                              end) (filter is_mark_read l)).
  { induction l as [|c l IH]; simpl; [reflexivity|].
    destruct c; simpl; try exact IH.
    destruct (String.eqb emailId e); [rewrite IH|]; auto. }
  rewrite (E (calls w')), (E (calls w)), H. reflexivity.
Qed.

Lemma in_mailbox_set_read (e emailId : string) (mb : list Email.t) :
  String.eqb emailId e = false ->
  filter (fun m => String.eqb (Email.id m) e) (List.map (set_read emailId) mb) =
  filter (fun m => String.eqb (Email.id m) e) mb.
Proof.
  intros Hne. induction mb as [|m mb IH]; [reflexivity|].
  cbn [List.map filter].
  assert (Hid : Email.id (set_read emailId m) = Email.id m)
    by (unfold set_read; destruct (String.eqb (Email.id m) emailId); reflexivity).
  rewrite Hid, IH.
  destruct (String.eqb (Email.id m) e) eqn:He; [|reflexivity].
  apply String.eqb_eq in He.
  unfold set_read. rewrite He, String.eqb_sym, Hne. reflexivity.
Qed.

(** A message that is not among those the writes are made for stays as
    it is: its ledger rows, its records, its entry in the mailbox and the
    [markEmailAsRead] calls for it. *)
Lemma steps_untouched (k : Kind) (env : Env) (T : string -> Prop) (w w' : World)
      (e : string) :
  steps k env T w w' -> ~ T e ->
  rows_for e w' = rows_for e w /\
  records_for e w' = records_for e w /\
  in_mailbox e w' = in_mailbox e w /\
  read_requests e w' = read_requests e w.
Proof.
  intros Hs Hno. induction Hs as [|w1 w2 Hs IH He]; [repeat split; reflexivity|].
  destruct IH as (IH1 & IH2 & IH3 & IH4).
  assert (Hne : forall i, T i -> String.eqb i e = false).
  { intros i Hi. destruct (String.eqb_spec i e) as [->|]; [contradiction|reflexivity]. }
  destruct He as [row HT Hf Hrec Hid
                 | row rid mid HT Hst Hrid Hmid Hf Hrec Hkey Hex Hauto
                 | row HT Hk Hst Hrid Hf Hkey Hroute
                 | emailId ok HT Hrec
                 | w2 Hc].
  - repeat split; try assumption. rewrite <- IH2. unfold records_for. simpl.
    apply filter_snoc_out, Hne, HT.
  - repeat split; try assumption. rewrite <- IH1. unfold rows_for. simpl.
    apply filter_snoc_out, Hne, HT.
  - repeat split; try assumption. rewrite <- IH1. unfold rows_for. simpl.
    apply filter_snoc_out, Hne, HT.
  - rewrite markEmailAsRead_final. cbv zeta.
    assert (Hreq : read_requests e (log_call (MarkRead emailId) w1) = read_requests e w1).
    { unfold read_requests, log_call. simpl. apply filter_snoc_out, Hne, HT. }
    destruct ok; repeat split; try assumption.
    + rewrite <- IH3. unfold in_mailbox. simpl. apply in_mailbox_set_read, Hne, HT.
    + rewrite <- IH4. exact Hreq.
    + rewrite <- IH4. exact Hreq.
  - destruct Hc as (C1 & C2 & C3 & C4 & C5 & C6).
    repeat split.
    + rewrite <- IH1. unfold rows_for. rewrite C2. reflexivity.
    + rewrite <- IH2. unfold records_for. rewrite C3. reflexivity.
    + rewrite <- IH3. unfold in_mailbox. rewrite C5. reflexivity.
    + rewrite <- IH4. apply read_requests_mark_reads, C6.
Qed.

(** A message that is in the ledger: no write of any pass concerns it. *)
Lemma steps_ledgered (k : Kind) (env : Env) (T : string -> Prop) (w w' : World) (e : string) :
  steps k env T w w' -> ledgered e w = true ->
  rows_for e w' = rows_for e w /\ records_for e w' = records_for e w.
Proof.
  intros Hs Hl. induction Hs as [|w1 w2 Hs IH He]; [split; reflexivity|].
  destruct IH as [IH1 IH2].
  assert (Hl1 : ledgered e w1 = true).
  { destruct (ledgered e w1) eqn:E; [reflexivity|].
    apply ledgered_false_rows in E. rewrite IH1 in E.
    apply ledgered_false_rows in E. congruence. }
  destruct He as [row HT Hf Hrec Hid
                 | row rid mid HT Hst Hrid Hmid Hf Hrec Hkey Hex Hauto
                 | row HT Hk Hst Hrid Hf Hkey Hroute
                 | emailId ok HT Hrec
                 | w2 Hc].
  - split; [exact IH1|]. rewrite <- IH2. unfold records_for. simpl.
    apply filter_snoc_out. eapply ledgered_differs; eassumption.
  - split; [|exact IH2]. rewrite <- IH1. unfold rows_for. simpl.
    apply filter_snoc_out. eapply ledgered_differs; eassumption.
  - split; [|exact IH2]. rewrite <- IH1. unfold rows_for. simpl.
    apply filter_snoc_out. eapply ledgered_differs; eassumption.
  - rewrite markEmailAsRead_final. destruct ok; split; assumption.
  - destruct Hc as (C1 & C2 & C3 & C4 & C5 & C6).
    unfold rows_for, records_for in *. rewrite C2, C3. split; assumption.
Qed.

Lemma record_ok_differs (env : Env) (e e' : string) :
  record_insert_ok (msg_env env e) = false ->
  record_insert_ok (msg_env env e') = true ->
  String.eqb e' e = false.
Proof.
  intros H1 H2. destruct (String.eqb_spec e' e) as [->|]; [congruence|reflexivity].
Qed.

(** A message whose record cannot be inserted: no record, no 'processed'
    row and no [markEmailAsRead] for it; the only rows it can get are the
    verdicts of [POST /process]. *)
Lemma steps_record_fails (k : Kind) (env : Env) (T : string -> Prop) (w w' : World) (e : string) :
  record_insert_ok (msg_env env e) = false ->
  steps k env T w w' ->
  records_for e w' = records_for e w /\
  in_mailbox e w' = in_mailbox e w /\
  read_requests e w' = read_requests e w /\
  exists rows, rows_for e w' = rows_for e w ++ rows /\
               Forall (verdict_for k w e) rows.
Proof.
  intros Hfail Hs. induction Hs as [|w1 w2 Hs IH He].
  - repeat split; try reflexivity. exists []. split; [symmetry; apply app_nil_r|constructor].
  - destruct IH as (IH1 & IH2 & IH3 & rows & IH4 & IH5).
    destruct (steps_frame _ _ _ _ _ Hs) as [Fm Fk].
    destruct He as [row HT Hf Hrec Hid
                   | row rid mid HT Hst Hrid Hmid Hf Hrec Hkey Hex Hauto
                   | row HT Hk Hst Hrid Hf Hkey Hroute
                   | emailId ok HT Hrec
                   | w2 Hc].
    + repeat split; try assumption.
      * rewrite <- IH1. unfold records_for. simpl.
        apply filter_snoc_out. eapply record_ok_differs; eassumption.
      * exists rows. split; assumption.
    + repeat split; try assumption.
      exists rows. split; [|exact IH5]. rewrite <- IH4. unfold rows_for. simpl.
      apply filter_snoc_out. eapply record_ok_differs; eassumption.
    + repeat split; try assumption.
      destruct (String.eqb (Ledger.email_id row) e) eqn:Hrow.
      * exists (rows ++ [row]). split.
        -- unfold rows_for in *. simpl. rewrite filter_app. simpl.
           rewrite Hrow, IH4. symmetry. apply app_assoc.
        -- apply Forall_app. split; [exact IH5|]. constructor; [|constructor].
           apply String.eqb_eq in Hrow. subst e.
           unfold verdict_for. rewrite <- Fm, <- Fk. repeat split; assumption.
      * exists rows. split; [|exact IH5]. rewrite <- IH4. unfold rows_for. simpl.
        apply filter_snoc_out. exact Hrow.
    + pose proof (record_ok_differs env e emailId Hfail Hrec) as Hne.
      rewrite markEmailAsRead_final. cbv zeta.
      assert (Hreq : read_requests e (log_call (MarkRead emailId) w1) = read_requests e w1).
      { unfold read_requests, log_call. simpl. apply filter_snoc_out. exact Hne. }
      destruct ok.
      * repeat split; try assumption.
        -- rewrite <- IH2. unfold in_mailbox. simpl. apply in_mailbox_set_read, Hne.
        -- rewrite <- IH3. exact Hreq.
        -- exists rows. split; assumption.
      * repeat split; try assumption.
        -- rewrite <- IH3. exact Hreq.
        -- exists rows. split; assumption.
    + destruct Hc as (C1 & C2 & C3 & C4 & C5 & C6).
      repeat split.
      * rewrite <- IH1. unfold records_for. rewrite C3. reflexivity.
      * rewrite <- IH2. unfold in_mailbox. rewrite C5. reflexivity.
      * rewrite <- IH3. apply read_requests_mark_reads, C6.
      * exists rows. split; [|exact IH5]. rewrite <- IH4. unfold rows_for.
        rewrite C2. reflexivity.
Qed.

(** The scheduled pass writes 'processed' rows only, each for a message
    whose subject routes to a module of its prefiltered set. *)
Lemma steps_auto_rows (env : Env) (T : string -> Prop) (w w' : World) :
  steps KAuto env T w w' ->
  exists rows, processed_emails w' = processed_emails w ++ rows /\
               Forall (auto_row w) rows.
Proof.
  intros Hs. induction Hs as [|w1 w2 Hs IH He].
  - exists []. split; [symmetry; apply app_nil_r|constructor].
  - destruct IH as (rows & IH1 & IH2).
    destruct (steps_frame _ _ _ _ _ Hs) as [Fm Fk].
    destruct He as [row HT Hf Hrec Hid
                   | row rid mid HT Hst Hrid Hmid Hf Hrec Hkey Hex Hauto
                   | row HT Hk Hst Hrid Hf Hkey Hroute
                   | emailId ok HT Hrec
                   | w2 Hc].
    + exists rows. split; assumption.
    + exists (rows ++ [row]). split.
      * simpl. rewrite IH1. symmetry. apply app_assoc.
      * apply Forall_app. split; [exact IH2|]. constructor; [|constructor].
        destruct (Hauto eq_refl) as (m & Hm & Hmid').
        unfold auto_row. rewrite <- Fm, <- Fk. repeat split; try assumption.
        -- exists m. split; [exact Hm|]. rewrite Hmid, Hmid'. reflexivity.
        -- exists rid. exact Hrid.
    + discriminate Hk.
    + exists rows. rewrite markEmailAsRead_final. destruct ok; split; assumption.
    + destruct Hc as (C1 & C2 & C3 & C4 & C5 & C6).
      exists rows. rewrite C2. split; assumption.
Qed.

(** Every 'processed' row a pass writes names a record that the pass has
    inserted before, for the same message. *)
Lemma steps_backed (k : Kind) (env : Env) (T : string -> Prop) (w w' : World) :
  steps k env T w w' ->
  (exists recs, module_records w' = module_records w ++ recs) /\
  exists rows, processed_emails w' = processed_emails w ++ rows /\
               Forall (backed w') rows.
Proof.
  intros Hs. induction Hs as [|w1 w2 Hs IH He].
  - split; [exists []; symmetry; apply app_nil_r|].
    exists []. split; [symmetry; apply app_nil_r|constructor].
  - destruct IH as ((recs & IH0) & rows & IH1 & IH2).
    destruct He as [row HT Hf Hrec Hid
                   | row rid mid HT Hst Hrid Hmid Hf Hrec Hkey Hex Hauto
                   | row HT Hk Hst Hrid Hf Hkey Hroute
                   | emailId ok HT Hrec
                   | w2 Hc].
    + split.
      * exists (recs ++ [row]). simpl. rewrite IH0. symmetry. apply app_assoc.
      * exists rows. split; [exact IH1|].
        eapply Forall_impl; [|exact IH2]. intros r Hr Hp.
        destruct (Hr Hp) as (rec & Hin & Hrest). exists rec. split; [|exact Hrest].
        simpl. apply in_or_app. left. exact Hin.
    + split; [exists recs; exact IH0|].
      exists (rows ++ [row]). split.
      * simpl. rewrite IH1. symmetry. apply app_assoc.
      * apply Forall_app. split; [exact IH2|]. constructor; [|constructor].
        intros _. destruct Hex as (rec & Hin & Hid & Hor & _).
        exists rec. repeat split; [exact Hin| |exact Hor]. rewrite Hrid, Hid. reflexivity.
    + split; [exists recs; exact IH0|].
      exists (rows ++ [row]). split.
      * simpl. rewrite IH1. symmetry. apply app_assoc.
      * apply Forall_app. split; [exact IH2|]. constructor; [|constructor].
        intros Hp. contradiction.
    + rewrite markEmailAsRead_final.
      destruct ok; (split; [exists recs; exact IH0|exists rows; split; assumption]).
    + destruct Hc as (C1 & C2 & C3 & C4 & C5 & C6).
      split; [exists recs; rewrite C3; exact IH0|].
      exists rows. rewrite C2. split; [exact IH1|].
      eapply Forall_impl; [|exact IH2]. intros r Hr Hp.
      destruct (Hr Hp) as (rec & Hin & Hrest). exists rec. rewrite C3.
      split; assumption.
Qed.

(** ** The claims about the ledger *)

(** C1: a message that already has a row in the ledger gets no further
    ledger row and no record from any pass: the scheduled pass, the bulk
    handler and the single-message handler (for any target) leave its rows
    and the records created for it as they are; and a ledger with at most
    one row per message id has at most one row per message id afterwards. *)
Theorem ledgered_message_not_reprocessed
  (env : Env) (uploadsDir target : string) (bodyModuleName userEmail : option string)
  (w : World) (e : string) (He : ledgered e w = true) :
  (rows_for e (final (processEmails env uploadsDir w)) = rows_for e w /\
   records_for e (final (processEmails env uploadsDir w)) = records_for e w) /\
  (rows_for e (final (post_process env uploadsDir w)) = rows_for e w /\
   records_for e (final (post_process env uploadsDir w)) = records_for e w) /\
  (rows_for e (final (post_process_single env uploadsDir target bodyModuleName
                        userEmail w)) = rows_for e w /\
   records_for e (final (post_process_single env uploadsDir target bodyModuleName
                           userEmail w)) = records_for e w) /\
  (unique_ledger w ->
   unique_ledger (final (processEmails env uploadsDir w)) /\
   unique_ledger (final (post_process env uploadsDir w)) /\
   unique_ledger (final (post_process_single env uploadsDir target bodyModuleName
                           userEmail w))).
Proof.
  pose proof (processEmails_steps env uploadsDir w) as Sa.
  pose proof (post_process_steps env uploadsDir w) as Sb.
  pose proof (post_process_single_steps env uploadsDir target bodyModuleName userEmail w)
    as Ss.
  split; [exact (steps_ledgered _ _ _ _ _ e Sa He)|].
  split; [exact (steps_ledgered _ _ _ _ _ e Sb He)|].
  split; [exact (steps_ledgered _ _ _ _ _ e Ss He)|].
  intros Hu. repeat split; eapply steps_unique_ledger; eassumption.
Qed.

Lemma ledgered_message_not_reprocessed_witness :
  ledgered "m1" Sample.handled_world = true /\
  rows_for "m1" (final (processEmails Sample.env_ok "/srv/uploads" Sample.handled_world))
  = rows_for "m1" Sample.handled_world /\
  records_for "m1" (final (post_process Sample.env_ok "/srv/uploads" Sample.handled_world))
  = records_for "m1" Sample.handled_world.
Proof.
  pose proof (ledgered_message_not_reprocessed Sample.env_ok "/srv/uploads" "m1"
                None None Sample.handled_world "m1" eq_refl) as H.
  split; [reflexivity|].
  split; [exact (proj1 (proj1 H))|exact (proj2 (proj1 (proj2 H)))].
Defined.

Lemma no_verdict_outside_bulk (k : Kind) (w : World) (e : string) (rows : list Ledger.t) :
  k <> KBulk -> Forall (verdict_for k w e) rows -> rows = [].
Proof.
  intros Hk H. destruct H as [|r rows Hr _]; [reflexivity|].
  destruct Hr as [Hb _]. contradiction.
Qed.

(** C2: (a) every 'processed' row a pass adds to the ledger names a record
    that is in [module_records], inserted for the same message; (b) when
    the INSERT of the record fails for a message that has no ledger row,
    then after the scheduled pass and after the single-message handler the
    message still has no ledger row, and after the bulk handler it has no
    'processed' row (a row it has is a verdict on a subject that does not
    route, so none at all when every subject under its id routes); in all
    three no record was created for it, it stands in the mailbox as before
    (unread if it was), and [markEmailAsRead] was not called for it, so
    the next pass finds it again. *)
Theorem failed_record_insert_leaves_message
  (env : Env) (uploadsDir target : string) (bodyModuleName userEmail : option string)
  (w : World) (e : string) :
  let auto := final (processEmails env uploadsDir w) in
  let bulk := final (post_process env uploadsDir w) in
  let single := final (post_process_single env uploadsDir target bodyModuleName
                         userEmail w) in
  let untouched w' :=
    records_for e w' = records_for e w /\
    in_mailbox e w' = in_mailbox e w /\
    read_requests e w' = read_requests e w in
  (forall w', In w' [auto; bulk; single] ->
     exists rows, processed_emails w' = processed_emails w ++ rows /\
                  Forall (backed w') rows) /\
  (record_insert_ok (msg_env env e) = false ->
   ledgered e w = false ->
   (rows_for e auto = [] /\ untouched auto) /\
   (rows_for e single = [] /\ untouched single) /\
   (Forall (verdict_for KBulk w e) (rows_for e bulk) /\
    Forall (fun r => Ledger.status r <> processed) (rows_for e bulk) /\
    ((forall s, In (e, s) (keys w) -> bulk_route (modules w) s <> None) ->
     rows_for e bulk = []) /\
    untouched bulk)).
Proof.
  intros auto bulk single untouched.
  pose proof (processEmails_steps env uploadsDir w) as Sa.
  pose proof (post_process_steps env uploadsDir w) as Sb.
  pose proof (post_process_single_steps env uploadsDir target bodyModuleName userEmail w)
    as Ss.
  fold auto in Sa. fold bulk in Sb. fold single in Ss.
  split.
  - intros w' [<-|[<-|[<-|[]]]].
    + exact (proj2 (steps_backed _ _ _ _ _ Sa)).
    + exact (proj2 (steps_backed _ _ _ _ _ Sb)).
    + exact (proj2 (steps_backed _ _ _ _ _ Ss)).
  - intros Hfail Hfresh.
    apply ledgered_false_rows in Hfresh.
    destruct (steps_record_fails _ _ _ _ _ e Hfail Sa) as (A1 & A2 & A3 & ra & A4 & A5).
    destruct (steps_record_fails _ _ _ _ _ e Hfail Sb) as (B1 & B2 & B3 & rb & B4 & B5).
    destruct (steps_record_fails _ _ _ _ _ e Hfail Ss) as (C1 & C2 & C3 & rc & C4 & C5).
    rewrite Hfresh in A4, B4, C4. simpl in A4, B4, C4.
    rewrite (no_verdict_outside_bulk KAuto w e ra) in A4 by (discriminate || exact A5).
    rewrite (no_verdict_outside_bulk KSingle w e rc) in C4 by (discriminate || exact C5).
    split; [split; [exact A4|repeat split; assumption]|].
    split; [split; [exact C4|repeat split; assumption]|].
    rewrite B4. split; [exact B5|].
    split; [eapply Forall_impl; [|exact B5]; intros r Hr; apply Hr|].
    split; [|repeat split; assumption].
    intros Hroutes. destruct B5 as [|r rows Hr _]; [reflexivity|].
    destruct Hr as (_ & _ & _ & Hkey & Hnone).
    exfalso. exact (Hroutes _ Hkey Hnone).
Qed.

Lemma failed_record_insert_leaves_message_witness :
  record_insert_ok (msg_env Sample.env_record_fails "m1") = false /\
  ledgered "m1" (Sample.world (ConfigObject true true) Sample.tagged) = false /\
  rows_for "m1"
    (final (processEmails Sample.env_record_fails "/srv/uploads"
              (Sample.world (ConfigObject true true) Sample.tagged))) = [] /\
  in_mailbox "m1"
    (final (processEmails Sample.env_record_fails "/srv/uploads"
              (Sample.world (ConfigObject true true) Sample.tagged)))
  = [Sample.tagged].
Proof.
  pose proof (failed_record_insert_leaves_message Sample.env_record_fails
                "/srv/uploads" "m1" None None
                (Sample.world (ConfigObject true true) Sample.tagged) "m1") as H.
  cbv zeta in H. destruct H as [_ H].
  specialize (H eq_refl eq_refl). destruct H as [[Hrows [_ [Hbox _]]] _].
  split; [reflexivity|]. split; [reflexivity|].
  split; [exact Hrows|exact Hbox].
Defined.

(** C10: the rows the scheduled pass adds to the ledger all have status
    'processed', a module id and a record id, and belong to a message of
    the mailbox whose subject carries a tag that names a module of the
    prefiltered set (active, [enableEmailInbox] and [autoProcessEmails]
    truthy); a message id under which no subject routes that way gets no
    row from the pass.  Rows with another status are not written by it. *)
Theorem auto_pass_writes_processed_rows_only
  (env : Env) (uploadsDir : string) (w : World) :
  (exists rows,
      processed_emails (final (processEmails env uploadsDir w)) =
        processed_emails w ++ rows /\
      Forall (auto_row w) rows /\
      Forall (fun r => Ledger.status r = processed /\
                       Ledger.module_id r <> None /\
                       Ledger.record_id r <> None) rows) /\
  (forall e,
      (forall s, In (e, s) (keys w) -> auto_route (modules w) s = None) ->
      rows_for e (final (processEmails env uploadsDir w)) = rows_for e w).
Proof.
  pose proof (processEmails_steps env uploadsDir w) as Sa.
  destruct (steps_auto_rows _ _ _ _ Sa) as (rows & Hrows & Hall).
  split.
  - exists rows. split; [exact Hrows|]. split; [exact Hall|].
    eapply Forall_impl; [|exact Hall].
    intros r (Hst & _ & (m & _ & Hm) & (rid & Hrid)).
    rewrite Hm, Hrid. repeat split; [exact Hst|discriminate|discriminate].
  - intros e Hno. unfold rows_for. rewrite Hrows, filter_app.
    assert (E : filter (fun r => String.eqb (Ledger.email_id r) e) rows = []).
    { clear Hrows. induction Hall as [|r rows Hr _ IH]; [reflexivity|].
      simpl. destruct (String.eqb (Ledger.email_id r) e) eqn:Hre; [|exact IH].
      apply String.eqb_eq in Hre. subst e.
      destruct Hr as (_ & Hkey & (m & Hm & _) & _).
      rewrite (Hno _ Hkey) in Hm. discriminate Hm. }
    rewrite E. apply app_nil_r.
Qed.

Lemma auto_pass_writes_processed_rows_only_witness :
  (forall s, In ("m1", s) (keys (Sample.world (ConfigObject true true) Sample.untagged)) ->
             auto_route (modules (Sample.world (ConfigObject true true) Sample.untagged)) s
             = None) /\
  rows_for "m1"
    (final (processEmails Sample.env_ok "/srv/uploads"
              (Sample.world (ConfigObject true true) Sample.untagged)))
  = rows_for "m1" (Sample.world (ConfigObject true true) Sample.untagged).
Proof.
  assert (H : forall s,
             In ("m1", s) (keys (Sample.world (ConfigObject true true) Sample.untagged)) ->
             auto_route (modules (Sample.world (ConfigObject true true) Sample.untagged)) s
             = None).
  { intros s [Hs|[]]. injection Hs as <-. reflexivity. }
  split; [exact H|].
  exact (proj2 (auto_pass_writes_processed_rows_only Sample.env_ok "/srv/uploads"
                  (Sample.world (ConfigObject true true) Sample.untagged)) "m1" H).
Defined.

(** ** The claims about single messages *)

(** C3, as stated, for the scheduled pass: an unread message without a tag
    gets exactly one 'skipped' row.  The scheduled pass writes none. *)
Lemma auto_pass_writes_no_skipped_row :
  named (moduleName (parseModuleTagFromSubject (Email.subject Sample.untagged))) = None /\
  Email.isRead Sample.untagged = false /\
  processed_emails
    (final (processEmails Sample.env_ok "/srv/uploads"
              (Sample.world (ConfigObject true true) Sample.untagged))) = [] /\
  List.length
    (rows_for "m1"
       (final (processEmails Sample.env_ok "/srv/uploads"
                 (Sample.world (ConfigObject true true) Sample.untagged)))) <> 1.
Proof.
  repeat split. vm_compute. discriminate.
Qed.

Lemma NoDup_map_filter {A B} (f : A -> B) (p : A -> bool) (l : list A) :
  NoDup (List.map f l) -> NoDup (List.map f (filter p l)).
Proof.
  induction l as [|a l IH]; simpl; intros H; [constructor|].
  inversion H as [|? ? Ha Hl]; subst.
  destruct (p a); [|apply IH, Hl]. simpl. constructor; [|apply IH, Hl].
  intros Hin. apply Ha. apply in_map_iff in Hin. destruct Hin as (x & Hx & Hin).
  apply filter_In in Hin. apply in_map_iff. exists x. split; [exact Hx|apply Hin].
Qed.

Lemma NoDup_map_firstn {A B} (f : A -> B) (n : nat) (l : list A) :
  NoDup (List.map f l) -> NoDup (List.map f (firstn n l)).
Proof.
  intros H. rewrite <- (firstn_skipn n l), map_app in H.
  exact (NoDup_app_remove_r _ _ H).
Qed.

(** Distinct ids in the mailbox are distinct ids in every listing. *)
Lemma listed_ids_distinct (n : nat) (unreadOnly : bool) (mb : list Email.t) :
  NoDup (List.map Email.id mb) -> NoDup (List.map Email.id (listed n unreadOnly mb)).
Proof.
  intros H. unfold listed. rewrite map_map.
  change (fun x => Email.id (with_default_subject x)) with Email.id.
  apply NoDup_map_firstn, NoDup_map_filter, H.
Qed.

Lemma NoDup_map_same {A B} (f : A -> B) (l : list A) (x y : A) :
  NoDup (List.map f l) -> In x l -> In y l -> f x = f y -> x = y.
Proof.
  induction l as [|a l IH]; simpl; intros H Hx Hy Hf; [contradiction|].
  inversion H as [|? ? Ha Hl]; subst.
  destruct Hx as [->|Hx], Hy as [->|Hy].
  - reflexivity.
  - exfalso. apply Ha. rewrite Hf. apply in_map, Hy.
  - exfalso. apply Ha. rewrite <- Hf. apply in_map, Hx.
  - apply IH; assumption.
Qed.

(** What [POST /process] does with one message without a tag. *)
Lemma process_message_untagged (env : Env) (uploadsDir : string) (summary summary' : Summary)
      (email : Email.t) (w w' : World) :
  named (moduleName (parseModuleTagFromSubject (Email.subject email))) = None ->
  ledgered (Email.id email) w = false ->
  process_message env uploadsDir summary email w = Ret summary' w' ->
  w' = with_ledger_row (verdict_row email None skipped "No module tag in subject") w.
Proof.
  intros Htag Hfresh. unfold process_message. cbv zeta.
  unfold bind, get_existing, insert_processed_email, ret.
  destruct (existing_query_ok (msg_env env (Email.id email))); [|discriminate].
  rewrite Hfresh, Htag. simpl Ledger.email_id. rewrite Hfresh.
  destruct (ledger_insert_ok (msg_env env (Email.id email))); [|discriminate].
  simpl. intros H. injection H as _ <-. reflexivity.
Qed.

Lemma rows_for_fresh_row (row : Ledger.t) (w : World) :
  ledgered (Ledger.email_id row) w = false ->
  rows_for (Ledger.email_id row) (with_ledger_row row w) = [row].
Proof.
  intros Hfresh. apply ledgered_false_rows in Hfresh.
  unfold rows_for in *. simpl. rewrite filter_app, Hfresh. simpl.
  rewrite String.eqb_refl. reflexivity.
Qed.

(** The loop of [POST /process], when it runs to its end, over a batch
    with distinct ids that holds a message without a tag. *)
Lemma bulk_loop_untagged (env : Env) (uploadsDir : string) (email : Email.t) :
  named (moduleName (parseModuleTagFromSubject (Email.subject email))) = None ->
  forall (batch : list Email.t) (acc acc' : Summary) (w w' : World),
    (forall x, In x batch -> In (Email.id x, Email.subject x) (keys w)) ->
    for_fold batch (process_message env uploadsDir) acc w = Ret acc' w' ->
    In email batch ->
    NoDup (List.map Email.id batch) ->
    ledgered (Email.id email) w = false ->
    rows_for (Email.id email) w' =
      [verdict_row email None skipped "No module tag in subject"] /\
    records_for (Email.id email) w' = records_for (Email.id email) w /\
    in_mailbox (Email.id email) w' = in_mailbox (Email.id email) w /\
    read_requests (Email.id email) w' = read_requests (Email.id email) w.
Proof.
  intros Htag. induction batch as [|x rest IH]; intros acc acc' w w' Hkeys Hrun Hin Hnd Hfresh.
  - contradiction.
  - simpl in Hrun. unfold bind in Hrun.
    destruct (process_message env uploadsDir acc x w) as [acc1 w1|w1] eqn:E1;
      [|discriminate].
    simpl in Hnd. inversion Hnd as [|? ? Hx Hrest]; subst.
    assert (Hkeys1 : forall y, In y rest -> In (Email.id y, Email.subject y) (keys w1)).
    { intros y Hy.
      pose proof (process_message_steps env uploadsDir acc x w (Hkeys x (or_introl eq_refl)))
        as Sx.
      rewrite E1 in Sx. simpl in Sx.
      destruct (steps_frame _ _ _ _ _ Sx) as [_ Hk]. rewrite Hk.
      apply Hkeys. right. exact Hy. }
    pose proof (bulk_loop_steps env uploadsDir rest acc1 w1 Hkeys1) as Srest.
    rewrite Hrun in Srest. simpl in Srest.
    destruct Hin as [->|Hin].
    + pose proof (process_message_untagged _ _ _ _ _ _ _ Htag Hfresh E1) as ->.
      destruct (steps_untouched _ _ _ _ _ (Email.id email) Srest Hx)
        as (U1 & U2 & U3 & U4).
      rewrite U1, U2, U3, U4. repeat split; try reflexivity.
      exact (rows_for_fresh_row
               (verdict_row email None skipped "No module tag in subject") w Hfresh).
    + assert (Hne : Email.id x <> Email.id email).
      { intros Heq. apply Hx. rewrite Heq. apply in_map, Hin. }
      pose proof (process_message_steps env uploadsDir acc x w (Hkeys x (or_introl eq_refl)))
        as Sx.
      rewrite E1 in Sx. simpl in Sx.
      destruct (steps_untouched _ _ _ _ _ (Email.id email) Sx Hne)
        as (U1 & U2 & U3 & U4).
      assert (Hfresh1 : ledgered (Email.id email) w1 = false).
      { apply ledgered_false_rows. rewrite U1. apply ledgered_false_rows, Hfresh. }
      destruct (IH acc1 acc' w1 w' Hkeys1 Hrun Hin Hrest Hfresh1) as (I1 & I2 & I3 & I4).
      rewrite I1, I2, I3, I4, U2, U3, U4. repeat split; reflexivity.
Qed.

Lemma post_process_completed (env : Env) (uploadsDir : string) (w w' : World)
      (summary : Summary) (total : nat) :
  post_process env uploadsDir w = Ret (Processed summary total) w' ->
  for_fold (listed 50 true (mailbox w)) (process_message env uploadsDir) no_summary
    (log_call (ListMessages 50 true) w) = Ret summary w'.
Proof.
  unfold post_process, try_catch, bind, fetchInboxEmails, ret.
  destruct (fetch_ok env); [|discriminate].
  destruct (for_fold _ _ _ _) as [s1 w1|w1]; [|discriminate].
  intros H. injection H as <- _ <-. reflexivity.
Qed.

Lemma creation_keeps_record (v : Variant) (env : Env) (email : Email.t)
      (module : ModuleRow.t) (cleanSubject : string) (w : World)
      (r : result (nat * (nat * nat) * nat)) :
  creation v env email module cleanSubject w r ->
  record_insert_ok (msg_env env (Email.id email)) = true ->
  In (new_record v email module cleanSubject w) (module_records (final r)).
Proof.
  intros Hr Hok.
  assert (H1 : In (new_record v email module cleanSubject w)
                  (module_records (with_record v email module cleanSubject w))).
  { unfold with_record. simpl. apply in_or_app. right. left. reflexivity. }
  assert (H3 : forall i d k w3,
             grown (with_ledger_row
                      (processed_row email (ModuleRow.id module) (S (module_records_seq w)))
                      (with_record v email module cleanSubject w)) w3 i d k ->
             In (new_record v email module cleanSubject w) (module_records w3)).
  { intros i d k w3 G. destruct (grown_core _ _ _ _ _ G) as (_ & _ & C3 & _).
    rewrite C3. exact H1. }
  destruct Hr as [Hrec | Hrec Hled | i d k w3 Hrec Hlok Hf G Hh
                 | i d k w3 Hrec Hlok Hf G Hh Hsend Hsent
                 | i d k w3 Hrec Hlok Hf G Hh Hsent]; simpl final.
  - congruence.
  - exact H1.
  - exact (H3 _ _ _ _ G).
  - exact (H3 _ _ _ _ G).
  - unfold completed. cbv zeta. rewrite markEmailAsRead_final. cbv zeta.
    destruct (mark_read_ok (msg_env env (Email.id email)));
      destruct (auto_response_ok (msg_env env (Email.id email)));
      exact (H3 _ _ _ _ G).
Qed.

(** The single-message handler creates the record whatever the module's
    [enableEmailInbox] says: whenever the message is fetched, has no ledger
    row, the target names an active module and the statements up to the
    INSERT of the record succeed, a record for the message is in
    [module_records] afterwards. *)
Lemma process_single_never_reads_config (env : Env) (uploadsDir : string)
      (userEmail : option string) (email : Email.t) (module : ModuleRow.t)
      (target : string) (w : World) :
  fetch_ok env = true ->
  find (fun m => String.eqb (Email.id m) (Email.id email))
       (listed 100 false (mailbox w)) = Some email ->
  ledgered (Email.id email) w = false ->
  existing_query_ok (msg_env env (Email.id email)) = true ->
  module_query_ok (msg_env env (Email.id email)) = true ->
  record_insert_ok (msg_env env (Email.id email)) = true ->
  Js.truthy target = true ->
  find (fun m => ModuleRow.is_active m &&
                 String.eqb (Js.sql_lower (ModuleRow.name m)) (Js.sql_lower target))
       (modules w) = Some module ->
  records_for (Email.id email)
    (final (post_process_single env uploadsDir (Email.id email) (Some target)
              userEmail w)) <> [].
Proof.
  intros Hfetch Hfind Hfresh Hq Hmq Hrec Htarget Hmod.
  unfold post_process_single. cbv zeta. rewrite final_try_catch.
  match goal with
  | |- records_for _ match ?body w with _ => _ end <> [] =>
      assert (H : records_for (Email.id email) (final (body w)) <> []);
      [|destruct (body w); exact H]
  end.
  rewrite final_bind. unfold fetchInboxEmails. rewrite Hfetch.
  rewrite Hfind.
  rewrite final_bind. unfold get_existing. rewrite Hq.
  change (ledgered (Email.id email) (log_call (ListMessages 100 false) w))
    with (ledgered (Email.id email) w).
  rewrite Hfresh. unfold named. rewrite Htarget.
  rewrite final_bind. unfold get_module. rewrite Hmq.
  change (modules (log_call (ListMessages 100 false) w)) with (modules w).
  rewrite Hmod. rewrite final_bind_pure by reflexivity.
  match goal with
  | |- records_for _ (final (create_record ?v ?en ?up ?em ?mo ?cs ?w1)) <> [] =>
      pose proof (creation_keeps_record v en em mo cs w1 _
                    (create_record_creation v en up em mo cs w1) Hrec) as Hin
  end.
  intros Hnil.
  assert (Hin' : In (new_record (Single userEmail) email module
                       (cleanSubject (parseModuleTagFromSubject (Email.subject email)))
                       (log_call (ListMessages 100 false) w))
                    (records_for (Email.id email)
                       (final (create_record (Single userEmail) env uploadsDir email module
                                 (cleanSubject (parseModuleTagFromSubject (Email.subject email)))
                                 (log_call (ListMessages 100 false) w))))).
  { unfold records_for. apply filter_In. split; [exact Hin|]. simpl. apply String.eqb_refl. }
  rewrite Hnil in Hin'. exact Hin'.
Qed.

(** C5: the handler of [POST /process-single/:emailId] selects the
    [config] of the target module and never reads it.  For a module whose
    [enableEmailInbox] is false it creates the record and writes a
    'processed' row, where [POST /process] on the same state writes the
    verdict 'Email inbox not enabled for module' and no record. *)
Theorem process_single_ignores_enableEmailInbox :
  let w := Sample.world (ConfigObject false false) Sample.tagged in
  let single := final (post_process_single Sample.env_ok "/srv/uploads" "m1"
                         None None w) in
  let bulk := final (post_process Sample.env_ok "/srv/uploads" w) in
  inbox_enabled (Sample.support (ConfigObject false false)) = false /\
  List.map RecordRow.origin (module_records single) = ["m1"] /\
  List.map (fun r => (Ledger.status r, Ledger.record_id r)) (processed_emails single)
  = [(processed, Some 1)] /\
  module_records bulk = [] /\
  List.map (fun r => (Ledger.status r, Ledger.error_message r)) (processed_emails bulk)
  = [(skipped, Some "Email inbox not enabled for module")].
Proof.
  cbv zeta. repeat split; vm_compute; reflexivity.
Qed.

(** ** The history entry *)

Lemma history_after_mark_read (ok : bool) (emailId : string) (w : World) :
  record_history (final (markEmailAsRead ok emailId w)) = record_history w /\
  record_images (final (markEmailAsRead ok emailId w)) = record_images w /\
  record_documents (final (markEmailAsRead ok emailId w)) = record_documents w /\
  record_links (final (markEmailAsRead ok emailId w)) = record_links w.
Proof. rewrite markEmailAsRead_final. destruct ok; repeat split; reflexivity. Qed.

(** C9, as stated: the bare text when all counts are zero, and no clause
    with a zero count.  The scheduled pass writes its own text for a message
    without attachments and links, and the attachment clause of every pass
    names both counts as soon as one of them is positive. *)
Lemma history_text_differs :
  List.map History.description
    (filter (fun h => String.eqb (History.action h) "created")
       (record_history
          (final (processEmails Sample.env_ok "/srv/uploads"
                    (Sample.world (ConfigObject true true) Sample.tagged)))))
  = ["Record created from email (auto)"]
  /\ "Record created from email (auto)" <> "Record created from email"
  /\ List.map History.description
    (filter (fun h => String.eqb (History.action h) "created")
       (record_history
          (final (post_process Sample.env_photo "/srv/uploads"
                    (Sample.world (ConfigObject true false) Sample.tagged)))))
  = ["Record created from email with 1 image(s) and 0 document(s)"].
Proof.
  split; [vm_compute; reflexivity|]. split; [discriminate|vm_compute; reflexivity].
Qed.

(** C9, amended: when the creation sequence of a pass runs to its end for a
    message, it has written exactly one history entry with action
    'created' (followed at most by the 'email_sent' entry), whose counts are
    the numbers of image, document and link rows it has inserted.  The
    description starts with the text of the pass ('Record created from
    email' for [POST /process], with ' (auto)' appended for the scheduled
    pass and ' (manual)' for the single-message handler); it is that text
    alone when all counts are zero; otherwise ' with ' follows, then the
    attachment clause 'N image(s) and M document(s)' if N + M > 0 (both
    counts are named) and the clause 'K link(s)' if K > 0, separated by
    ', ' when both are there. *)
Theorem created_history_entry
  (v : Variant) (env : Env) (uploadsDir : string) (email : Email.t)
  (module : ModuleRow.t) (cleanSubject : string) (w w' : World)
  (recordId images documents links : nat)
  (Hrun : create_record v env uploadsDir email module cleanSubject w =
          Ret (recordId, (images, documents), links) w') :
  let entry := created_entry v email (ModuleRow.id module) recordId
                 images documents links in
  let label := created_label v in
  let attachmentClause :=
    Js.of_nat images +++ " image(s) and " +++ Js.of_nat documents +++ " document(s)" in
  let linkClause := Js.of_nat links +++ " link(s)" in
  (exists sent,
      record_history w' = record_history w ++ entry :: sent /\
      (sent = [] \/ sent = [sent_entry email (ModuleRow.id module) recordId])) /\
  History.action entry = "created" /\
  History.record_id entry = recordId /\
  List.length (record_images w') = List.length (record_images w) + images /\
  List.length (record_documents w') = List.length (record_documents w) + documents /\
  List.length (record_links w') = List.length (record_links w) + links /\
  label = match v with
          | Automatic => "Record created from email (auto)"
          | Bulk => "Record created from email"
          | Single _ => "Record created from email (manual)"
          end /\
  (images + documents = 0 -> links = 0 -> History.description entry = label) /\
  (0 < images + documents -> links = 0 ->
   History.description entry = label +++ " with " +++ attachmentClause) /\
  (images + documents = 0 -> 0 < links ->
   History.description entry = label +++ " with " +++ linkClause) /\
  (0 < images + documents -> 0 < links ->
   History.description entry =
     label +++ " with " +++ (attachmentClause +++ ", " +++ linkClause)).
Proof.
  intros entry label attachmentClause linkClause.
  pose proof (create_record_creation v env uploadsDir email module cleanSubject w) as Hc.
  rewrite Hrun in Hc.
  inversion Hc as [| | | | i d k w3 Hrec Hlok Hf G Hh Hsent]. subst.
  unfold completed. cbv zeta.
  match goal with
  | |- context [final (markEmailAsRead ?ok ?i ?x)] =>
      destruct (history_after_mark_read ok i x) as (Mh & Mi & Md & Ml)
  end.
  destruct G as [_ Gh Gi Gd Gl]. simpl in Gh, Gi, Gd, Gl.
  split.
  { rewrite Mh. cbv zeta.
    destruct (auto_response_ok (msg_env env (Email.id email))).
    - exists [sent_entry email (ModuleRow.id module) (S (module_records_seq w))].
      split; [|right; reflexivity]. simpl. rewrite Gh, <- app_assoc. reflexivity.
    - exists []. split; [|left; reflexivity]. simpl. rewrite Gh. reflexivity. }
  split; [reflexivity|]. split; [reflexivity|].
  split.
  { rewrite Mi. cbv zeta.
    destruct (auto_response_ok (msg_env env (Email.id email))); exact Gi. }
  split.
  { rewrite Md. cbv zeta.
    destruct (auto_response_ok (msg_env env (Email.id email))); exact Gd. }
  split.
  { rewrite Ml. cbv zeta.
    destruct (auto_response_ok (msg_env env (Email.id email))); exact Gl. }
  split; [destruct v; reflexivity|].
  unfold entry, created_entry, historyDesc. simpl History.description.
  repeat split.
  - intros Ha Hl. rewrite Ha, Hl. reflexivity.
  - intros Ha Hl. apply Nat.ltb_lt in Ha. rewrite Ha, Hl. reflexivity.
  - intros Ha Hl. apply Nat.ltb_lt in Hl. rewrite Ha, Hl. reflexivity.
  - intros Ha Hl. apply Nat.ltb_lt in Ha, Hl. rewrite Ha, Hl. reflexivity.
Qed.

Lemma created_history_entry_witness :
  History.description
    (created_entry Bulk Sample.tagged 7 1 1 0 0)
  = "Record created from email" +++ " with " +++
    (Js.of_nat 1 +++ " image(s) and " +++ Js.of_nat 0 +++ " document(s)").
Proof.
  assert (Hrun : exists w',
             create_record Bulk Sample.env_photo "/srv/uploads" Sample.tagged
               (Sample.support (ConfigObject true false)) "Broken chair"
               (Sample.world (ConfigObject true false) Sample.tagged)
             = Ret (1, (1, 0), 0) w').
  { eexists. vm_compute. reflexivity. }
  destruct Hrun as (w' & Hrun).
  pose proof (created_history_entry _ _ _ _ _ _ _ _ _ _ _ _ Hrun) as H.
  cbv zeta in H.
  destruct H as (_ & _ & _ & _ & _ & _ & _ & _ & H & _).
  apply H; [apply Nat.lt_0_1|reflexivity].
Defined.

(* ================================================================== *)
(** * Further properties of the code *)
(* ================================================================== *)

(** ** Link extraction *)

Lemma has_url_In (u : string) (links : list Link) :
  has_url u links = true <-> In u (List.map url links).
Proof.
  unfold has_url. rewrite existsb_exists. split.
  - intros (l & Hl & He). apply String.eqb_eq in He. subst u. apply in_map, Hl.
  - intros H. apply in_map_iff in H. destruct H as (l & He & Hl).
    exists l. split; [exact Hl|]. rewrite He. apply String.eqb_refl.
Qed.

(** A loop that appends the entries it keeps, unless their URL is there
    already, returns every kept URL once. *)
Lemma dedup_fold (keep : string -> bool) (mk : string * string -> Link)
      (ms : list (string * string)) (links0 : list Link) :
  (forall m, url (mk m) = fst m) ->
  NoDup (List.map url links0) ->
  NoDup (List.map url (fold_left (add_kept keep mk) ms links0)) /\
  forall u, In u (List.map url (fold_left (add_kept keep mk) ms links0)) <->
            In u (List.map url links0) \/ (In u (List.map fst ms) /\ keep u = true).
Proof.
  intros Hmk. revert links0. induction ms as [|m ms IH]; intros links0 Hnd.
  - simpl. split; [exact Hnd|]. intros u. split; [auto|]. intros [H|[[] _]]. exact H.
  - simpl fold_left. unfold add_kept at 2 4.
    destruct (keep (fst m) && negb (has_url (fst m) links0)) eqn:E.
    + apply andb_true_iff in E. destruct E as [Hk Hn]. apply negb_true_iff in Hn.
      assert (Hnd' : NoDup (List.map url (links0 ++ [mk m]))).
      { rewrite map_app. simpl. rewrite Hmk. apply NoDup_snoc; [exact Hnd|].
        intros Hin. apply has_url_In in Hin. congruence. }
      destruct (IH (links0 ++ [mk m]) Hnd') as [I1 I2].
      split; [exact I1|]. intros u. rewrite I2, map_app, in_app_iff. simpl.
      rewrite Hmk. split.
      * intros [[H|[H|[]]]|[H Hku]]; auto. subst u. right. split; [left; reflexivity|exact Hk].
      * intros [H|[[H|H] Hku]]; auto.
    + destruct (IH links0 Hnd) as [I1 I2].
      split; [exact I1|]. intros u. rewrite I2. simpl. split.
      * intros [H|[H Hku]]; auto.
      * intros [H|[[H|H] Hku]]; auto. subst u. left.
        apply andb_false_iff in E. destruct E as [E|E]; [congruence|].
        apply negb_false_iff in E. apply has_url_In, E.
Qed.

Lemma length_take_le (n : nat) (s : string) : String.length (Js.take n s) <= n.
Proof.
  revert s. induction n as [|n IH]; intros s; [destruct s; simpl; lia|].
  destruct s as [|c s]; simpl; [lia|]. specialize (IH s). lia.
Qed.

Lemma fold_left_ext {A B} (f g : A -> B -> A) (l : list B) (a : A) :
  (forall a b, f a b = g a b) -> fold_left f l a = fold_left g l a.
Proof.
  intros H. revert a. induction l as [|b l IH]; intros a; [reflexivity|].
  simpl. rewrite H. apply IH.
Qed.

Lemma processor_extract_kept (html : string) :
  Processor.extractLinksFromHtml html =
  if Js.truthy html
  then fold_left (add_kept processor_keeps processor_link) (Re.anchors html) []
  else [].
Proof.
  unfold Processor.extractLinksFromHtml.
  destruct (Js.truthy html); simpl negb; cbv iota; [|reflexivity].
  apply fold_left_ext. intros links m.
  unfold Processor.add_link, add_kept, processor_keeps, processor_link.
  destruct (skipped_scheme (fst m)); [reflexivity|].
  destruct (Js.includes "unsubscribe" (Js.toLowerCase (fst m)) ||
            Js.includes "tracking" (Js.toLowerCase (fst m))); [reflexivity|].
  simpl negb. simpl andb.
  rewrite (andb_comm (negb (has_url (fst m) links))). reflexivity.
Qed.

Lemma inbox_extract_kept (url_hostname : string -> option string) (html : string) :
  Inbox.extractLinksFromHtml url_hostname html =
  if Js.truthy html
  then fold_left (add_kept inbox_keeps (inbox_link url_hostname)) (Re.anchors html) []
  else [].
Proof.
  unfold Inbox.extractLinksFromHtml.
  destruct (Js.truthy html); simpl negb; cbv iota; [|reflexivity].
  apply fold_left_ext. intros links m.
  unfold Inbox.add_link, add_kept, inbox_keeps, inbox_link.
  destruct (skipped_scheme (fst m)); [reflexivity|].
  destruct (Inbox.skipped_noise (fst m)); reflexivity.
Qed.

Lemma processor_links_nodup (html : string) :
  NoDup (List.map url (Processor.extractLinksFromHtml html)).
Proof.
  rewrite processor_extract_kept. destruct (Js.truthy html); [|constructor].
  apply dedup_fold; [reflexivity|constructor].
Qed.

Lemma inbox_links_nodup (url_hostname : string -> option string) (html : string) :
  NoDup (List.map url (Inbox.extractLinksFromHtml url_hostname html)).
Proof.
  rewrite inbox_extract_kept. destruct (Js.truthy html); [|constructor].
  apply dedup_fold; [reflexivity|constructor].
Qed.

(** X2: the links the processor's extractor returns are exactly the URLs of
    the anchors found that start with none of the five schemes, contain
    neither [unsubscribe] nor [tracking] in any case, and are at most 2000
    characters long; each is returned once, with a title of at most 255
    characters. *)
Theorem processor_links_exact (html : string) :
  let links := Processor.extractLinksFromHtml html in
  NoDup (List.map url links) /\
  (forall u, In u (List.map url links) <->
             Js.truthy html = true /\
             In u (List.map fst (Re.anchors html)) /\
             skipped_scheme u = false /\
             Js.includes "unsubscribe" (Js.toLowerCase u) = false /\
             Js.includes "tracking" (Js.toLowerCase u) = false /\
             String.length u <= 2000) /\
  Forall (fun l => String.length (title l) <= 255) links.
Proof.
  cbv zeta. split; [apply processor_links_nodup|].
  rewrite processor_extract_kept.
  destruct (Js.truthy html).
  2:{ split; [|constructor].
      intros u. split; [intros []|intros [H _]; discriminate H]. }
  destruct (dedup_fold processor_keeps processor_link (Re.anchors html) []
              (fun m => eq_refl) (NoDup_nil _)) as [_ D2].
  split.
  - intros u. rewrite D2. unfold processor_keeps. simpl. split.
    + intros [[]|[Hin Hk]].
      apply andb_true_iff in Hk. destruct Hk as [Hk H3].
      apply andb_true_iff in Hk. destruct Hk as [H1 H2].
      apply negb_true_iff in H1, H2. apply orb_false_iff in H2. destruct H2 as [H2a H2b].
      apply Nat.leb_le in H3. repeat split; assumption.
    + intros (_ & Hin & H1 & H2 & H3 & H4). right. split; [exact Hin|].
      rewrite H1, H2, H3. apply Nat.leb_le in H4. rewrite H4. reflexivity.
  - apply fold_left_invariant; [constructor|].
    intros links m Hall. unfold add_kept.
    destruct (processor_keeps (fst m) && negb (has_url (fst m) links)); [|exact Hall].
    apply Forall_app. split; [exact Hall|]. constructor; [|constructor].
    unfold processor_link. cbn [title]. apply length_take_le.
Qed.

(** X3: the links the router's extractor returns are exactly the URLs of
    the anchors found that start with none of the five schemes and contain
    none of the four noise words; each is returned once, with a title of at
    most 255 characters, whatever the host lookup answers. *)
Theorem inbox_links_exact (url_hostname : string -> option string) (html : string) :
  let links := Inbox.extractLinksFromHtml url_hostname html in
  NoDup (List.map url links) /\
  (forall u, In u (List.map url links) <->
             Js.truthy html = true /\
             In u (List.map fst (Re.anchors html)) /\
             skipped_scheme u = false /\
             Inbox.skipped_noise u = false) /\
  Forall (fun l => String.length (title l) <= 255) links.
Proof.
  cbv zeta. split; [apply inbox_links_nodup|].
  rewrite inbox_extract_kept.
  destruct (Js.truthy html).
  2:{ split; [|constructor].
      intros u. split; [intros []|intros [H _]; discriminate H]. }
  destruct (dedup_fold inbox_keeps (inbox_link url_hostname) (Re.anchors html) []
              (fun m => eq_refl) (NoDup_nil _)) as [_ D2].
  split.
  - intros u. rewrite D2. unfold inbox_keeps. simpl. split.
    + intros [[]|[Hin Hk]].
      apply andb_true_iff in Hk. destruct Hk as [H1 H2].
      apply negb_true_iff in H1, H2. repeat split; assumption.
    + intros (_ & Hin & H1 & H2). right. split; [exact Hin|].
      rewrite H1, H2. reflexivity.
  - apply fold_left_invariant; [constructor|].
    intros links m Hall. unfold add_kept.
    destruct (inbox_keeps (fst m) && negb (has_url (fst m) links)); [|exact Hall].
    apply Forall_app. split; [exact Hall|]. constructor; [|constructor].
    unfold inbox_link. cbn [title]. apply length_take_le.
Qed.

(** ** The savers of attachments and links *)

(** A loop whose body never throws on the elements of the list returns, and
    an invariant that follows the elements visited holds at the end. *)
Lemma for_fold_prefix {B S} (I : list B -> S -> World -> Prop)
      (l : list B) (body : S -> B -> M S) :
  (forall pre x acc w, In x l -> I pre acc w ->
     exists acc' w', body acc x w = Ret acc' w' /\ I (pre ++ [x]) acc' w') ->
  forall acc w, I [] acc w ->
    exists acc' w', for_fold l body acc w = Ret acc' w' /\ I l acc' w'.
Proof.
  intros Hbody.
  assert (G : forall suf pre acc w,
             (forall x, In x suf -> In x l) -> I pre acc w ->
             exists acc' w', for_fold suf body acc w = Ret acc' w' /\ I (pre ++ suf) acc' w').
  { induction suf as [|x suf IH]; simpl; intros pre acc w Hin HI.
    - exists acc, w. rewrite app_nil_r. split; [reflexivity|exact HI].
    - destruct (Hbody pre x acc w (Hin x (or_introl eq_refl)) HI) as (acc1 & w1 & E1 & H1).
      unfold bind. rewrite E1.
      destruct (IH (pre ++ [x]) acc1 w1 (fun y Hy => Hin y (or_intror Hy)) H1)
        as (acc2 & w2 & E2 & H2).
      exists acc2, w2. split; [exact E2|]. rewrite <- app_assoc in H2. exact H2. }
  intros acc w HI. apply (G l [] acc w (fun x Hx => Hx) HI).
Qed.

Lemma set_links_same (w : World) : set_links (record_links w ++ []) w = w.
Proof. rewrite app_nil_r. destruct w; reflexivity. Qed.

Lemma processor_links_bounded (html : string) :
  Forall (fun l => String.length (url l) <= 2000 /\ String.length (title l) <= 255)
         (Processor.extractLinksFromHtml html).
Proof.
  unfold Processor.extractLinksFromHtml.
  destruct (negb (Js.truthy html)); [constructor|].
  apply fold_left_invariant; [constructor|].
  intros links m Hall. unfold Processor.add_link.
  destruct (skipped_scheme (fst m)); [exact Hall|].
  destruct (Js.includes "unsubscribe" (Js.toLowerCase (fst m)) ||
            Js.includes "tracking" (Js.toLowerCase (fst m))); [exact Hall|].
  destruct (negb (has_url (fst m) links) && (String.length (fst m) <=? 2000)) eqn:E;
    [|exact Hall].
  apply andb_true_iff in E. destruct E as [_ E]. apply Nat.leb_le in E.
  apply Forall_app. split; [exact Hall|]. constructor; [|constructor].
  cbn [url title]. split; [exact E|apply length_take_le].
Qed.

Lemma take_take (n : nat) (s : string) : Js.take n (Js.take n s) = Js.take n s.
Proof.
  revert s. induction n as [|n IH]; intros s; [destruct s; reflexivity|].
  destruct s as [|c s]; simpl; [reflexivity|]. rewrite IH. reflexivity.
Qed.

(** The shape of what saving the links of a message returns and leaves. *)
Lemma save_links_shape (v : Variant) (env : Env) (me : MsgEnv)
      (recordId moduleId : nat) (html : string) (w : World) :
  exists rows,
    save_links v env me recordId moduleId html w =
      Ret (List.length rows) (set_links (record_links w ++ rows) w) /\
    List.map LinkRow.url rows =
      filter (fun u => (String.length u <=? 2000) && link_insert_ok me u)
             (List.map url (extracted v env html)) /\
    Forall (link_row_ok recordId moduleId) rows /\
    NoDup (List.map LinkRow.url rows).
Proof.
  set (keep := fun u => (String.length u <=? 2000) && link_insert_ok me u).
  set (I := fun (pre : list Link) (n : nat) (w' : World) =>
              exists rows,
                w' = set_links (record_links w ++ rows) w /\
                n = List.length rows /\
                List.map LinkRow.url rows = filter keep (List.map url pre) /\
                Forall (link_row_ok recordId moduleId) rows).
  assert (I0 : I [] 0 w).
  { exists []. rewrite set_links_same. repeat split; constructor. }
  assert (Hstep : forall pre x acc w1 t,
             String.length t <= 255 ->
             I pre acc w1 ->
             String.length (url x) <= 2000 ->
             exists acc' w',
               save_link me recordId moduleId (url x) t acc w1 = Ret acc' w' /\
               I (pre ++ [x]) acc' w').
  { intros pre x acc w1 t Ht (rows & Ew & En & Eu & Hrows) Hlen.
    unfold save_link, try_catch, bind, insert_link, ret.
    assert (Hk : keep (url x) = link_insert_ok me (url x)).
    { unfold keep. apply Nat.leb_le in Hlen. rewrite Hlen. reflexivity. }
    destruct (link_insert_ok me (url x)) eqn:Eok.
    - eexists _, _. split; [reflexivity|].
      exists (rows ++ [{| LinkRow.record_id := recordId; LinkRow.module_id := moduleId;
                          LinkRow.url := url x; LinkRow.title := t;
                          LinkRow.description := "Extracted from email" |}]).
      subst w1 acc. repeat split.
      + unfold set_links. simpl. rewrite <- app_assoc. reflexivity.
      + rewrite length_app. simpl. lia.
      + rewrite !map_app, filter_app, Eu. simpl. rewrite Hk. reflexivity.
      + apply Forall_app. split; [exact Hrows|]. constructor; [|constructor].
        unfold link_row_ok. simpl. repeat split; assumption.
    - exists acc, w1. split; [reflexivity|].
      exists rows. repeat split; try assumption.
      rewrite map_app, filter_app, Eu. simpl. rewrite Hk. symmetry. apply app_nil_r. }
  assert (Hfinish : forall links n w',
             NoDup (List.map url links) -> I links n w' ->
             exists rows,
               Ret n w' = Ret (List.length rows) (set_links (record_links w ++ rows) w) /\
               List.map LinkRow.url rows = filter keep (List.map url links) /\
               Forall (link_row_ok recordId moduleId) rows /\
               NoDup (List.map LinkRow.url rows)).
  { intros links n w' Hnd (rows & Ew & En & Eu & Hrows).
    exists rows. subst n w'. repeat split; try assumption.
    rewrite Eu. apply NoDup_filter, Hnd. }
  destruct v as [| |userEmail]; cbn [save_links extracted].
  - unfold saveLinks.
    destruct (for_fold_prefix I (Processor.extractLinksFromHtml html)
                (fun savedCount link =>
                   save_link me recordId moduleId (url link) (title link) savedCount))
      with (acc := 0) (w := w) as (n & w' & E & HI); [|exact I0|].
    + intros pre x acc w1 Hin HI.
      pose proof (proj1 (Forall_forall _ _) (processor_links_bounded html) x Hin) as [B1 B2].
      apply Hstep; assumption.
    + rewrite E. apply Hfinish; [|exact HI]. apply processor_links_nodup.
  - unfold saveEmailLinks.
    destruct (for_fold_prefix I (Inbox.extractLinksFromHtml (url_hostname env) html)
                (fun savedCount link =>
                   if 2000 <? String.length (url link) then ret savedCount
                   else save_link me recordId moduleId (url link)
                                  (Js.take 255 (title link)) savedCount))
      with (acc := 0) (w := w) as (n & w' & E & HI); [|exact I0|].
    + intros pre x acc w1 Hin HI.
      destruct (2000 <? String.length (url x)) eqn:E2.
      * exists acc, w1. split; [reflexivity|].
        destruct HI as (rows & Ew & En & Eu & Hrows).
        exists rows. repeat split; try assumption.
        rewrite map_app, filter_app, Eu. simpl. unfold keep.
        apply Nat.ltb_lt in E2.
        destruct (String.length (url x) <=? 2000) eqn:E3;
          [apply Nat.leb_le in E3; lia|]. simpl. symmetry. apply app_nil_r.
      * apply Nat.ltb_ge in E2. apply Hstep; [apply length_take_le|exact HI|exact E2].
    + rewrite E. apply Hfinish; [|exact HI]. apply inbox_links_nodup.
  - unfold saveEmailLinks.
    destruct (for_fold_prefix I (Inbox.extractLinksFromHtml (url_hostname env) html)
                (fun savedCount link =>
                   if 2000 <? String.length (url link) then ret savedCount
                   else save_link me recordId moduleId (url link)
                                  (Js.take 255 (title link)) savedCount))
      with (acc := 0) (w := w) as (n & w' & E & HI); [|exact I0|].
    + intros pre x acc w1 Hin HI.
      destruct (2000 <? String.length (url x)) eqn:E2.
      * exists acc, w1. split; [reflexivity|].
        destruct HI as (rows & Ew & En & Eu & Hrows).
        exists rows. repeat split; try assumption.
        rewrite map_app, filter_app, Eu. simpl. unfold keep.
        apply Nat.ltb_lt in E2.
        destruct (String.length (url x) <=? 2000) eqn:E3;
          [apply Nat.leb_le in E3; lia|]. simpl. symmetry. apply app_nil_r.
      * apply Nat.ltb_ge in E2. apply Hstep; [apply length_take_le|exact HI|exact E2].
    + rewrite E. apply Hfinish; [|exact HI]. apply inbox_links_nodup.
Qed.

Lemma with_attachments_none (w : World) : with_attachments [] [] [] [] w = w.
Proof. unfold with_attachments. rewrite !app_nil_r. destruct w; reflexivity. Qed.

Lemma with_attachments_call (imgs : list ImageRow.t) (docs : list DocumentRow.t)
      (fs : list string) (cs : list Call) (c : Call) (w : World) :
  log_call c (with_attachments imgs docs fs cs w) =
  with_attachments imgs docs fs (cs ++ [c]) w.
Proof.
  unfold log_call, with_attachments, set_calls. simpl.
  rewrite <- app_assoc. reflexivity.
Qed.

Lemma with_attachments_file (imgs : list ImageRow.t) (docs : list DocumentRow.t)
      (fs : list string) (cs : list Call) (p : string) (w : World) :
  set_files (files (with_attachments imgs docs fs cs w) ++ [p])
            (with_attachments imgs docs fs cs w) =
  with_attachments imgs docs (fs ++ [p]) cs w.
Proof.
  unfold with_attachments, set_files, set_calls. simpl.
  rewrite <- app_assoc. reflexivity.
Qed.

Lemma with_attachments_image (imgs : list ImageRow.t) (docs : list DocumentRow.t)
      (fs : list string) (cs : list Call) (r : ImageRow.t) (w : World) :
  set_images (record_images (with_attachments imgs docs fs cs w) ++ [r])
             (with_attachments imgs docs fs cs w) =
  with_attachments (imgs ++ [r]) docs fs cs w.
Proof.
  unfold with_attachments, set_files, set_calls, set_images. simpl.
  rewrite <- app_assoc. reflexivity.
Qed.

Lemma with_attachments_document (imgs : list ImageRow.t) (docs : list DocumentRow.t)
      (fs : list string) (cs : list Call) (r : DocumentRow.t) (w : World) :
  set_documents (record_documents (with_attachments imgs docs fs cs w) ++ [r])
                (with_attachments imgs docs fs cs w) =
  with_attachments imgs (docs ++ [r]) fs cs w.
Proof.
  unfold with_attachments, set_files, set_calls, set_documents. simpl.
  rewrite <- app_assoc. reflexivity.
Qed.

Lemma startsWith_append (p s : string) : Js.startsWith p (p +++ s) = true.
Proof.
  induction p as [|c p IH]; [reflexivity|]. simpl. rewrite Ascii.eqb_refl. exact IH.
Qed.

Lemma image_rows_more (recordId moduleId : nat) (userEmail : string)
      (fs : list string) (p : string) (imgs : list ImageRow.t) :
  Forall (image_row_ok recordId moduleId userEmail fs) imgs ->
  Forall (image_row_ok recordId moduleId userEmail (fs ++ [p])) imgs.
Proof.
  apply Forall_impl. intros r (H1 & H2 & H3 & H4 & H5).
  repeat split; try assumption. apply in_or_app. left. exact H5.
Qed.

Lemma document_rows_more (recordId moduleId : nat) (userEmail : string)
      (fs : list string) (p : string) (docs : list DocumentRow.t) :
  Forall (document_row_ok recordId moduleId userEmail fs) docs ->
  Forall (document_row_ok recordId moduleId userEmail (fs ++ [p])) docs.
Proof.
  apply Forall_impl. intros r (H1 & H2 & H3 & H4 & H5).
  repeat split; try assumption. apply in_or_app. left. exact H5.
Qed.

(** The shape of what saving the attachments of a message returns and
    leaves. *)
Lemma saveAttachments_shape (me : MsgEnv) (emailId : string)
      (recordId moduleId : nat) (userEmail : string) (w : World) :
  exists imgs docs fs cs,
    saveAttachments me emailId recordId moduleId userEmail w =
      Ret (List.length imgs, List.length docs) (with_attachments imgs docs fs cs w) /\
    List.length imgs + List.length docs <= List.length fs /\
    List.length fs <= listed_attachments me /\
    Forall (image_row_ok recordId moduleId userEmail fs) imgs /\
    Forall (document_row_ok recordId moduleId userEmail fs) docs /\
    Forall (fun c => is_mark_read c = false) cs.
Proof.
  assert (E0 : log_call (ListAttachments emailId) w =
               with_attachments [] [] [] [ListAttachments emailId] w).
  { rewrite <- (with_attachments_none w) at 1. apply with_attachments_call. }
  unfold saveAttachments, bind, getEmailAttachments, listed_attachments.
  rewrite E0.
  destruct (attachments me) as [atts|].
  2:{ exists [], [], [], [ListAttachments emailId]. unfold ret. simpl.
      repeat split; try constructor; auto. }
  set (I := fun (pre : list AttachmentEnv) (counts : nat * nat) (w' : World) =>
              exists imgs docs fs cs,
                w' = with_attachments imgs docs fs cs w /\
                counts = (List.length imgs, List.length docs) /\
                List.length imgs + List.length docs <= List.length fs /\
                List.length fs <= List.length pre /\
                Forall (image_row_ok recordId moduleId userEmail fs) imgs /\
                Forall (document_row_ok recordId moduleId userEmail fs) docs /\
                Forall (fun c => is_mark_read c = false) cs).
  destruct (for_fold_prefix I atts (save_attachment emailId recordId moduleId userEmail))
    with (acc := (0, 0)) (w := with_attachments [] [] [] [ListAttachments emailId] w)
    as (counts & w' & E & HI).
  - intros pre a counts w1 _ (imgs & docs & fs & cs & Ew & Ec & Hle & Hfs & Hi & Hd & Hcs).
    subst w1 counts.
    assert (Hcs' : Forall (fun c => is_mark_read c = false)
                          (cs ++ [Download emailId (Attachment.id (meta a))])).
    { apply Forall_app. split; [exact Hcs|]. constructor; [reflexivity|constructor]. }
    unfold save_attachment, try_catch, bind, downloadAttachment, writeFileSync,
      insert_image, insert_document, ret.
    rewrite with_attachments_call.
    destruct (download_ok a); cbn [negb].
    2:{ eexists _, _. split; [reflexivity|].
        exists imgs, docs, fs, (cs ++ [Download emailId (Attachment.id (meta a))]).
        rewrite length_app. simpl. repeat split; try assumption; lia. }
    destruct (write_ok a).
    2:{ eexists _, _. split; [reflexivity|].
        exists imgs, docs, fs, (cs ++ [Download emailId (Attachment.id (meta a))]).
        rewrite length_app. simpl. repeat split; try assumption; lia. }
    rewrite with_attachments_file.
    destruct (isImageContentType (Attachment.contentType (meta a))) eqn:Eimg;
      destruct (row_insert_ok a).
    + rewrite with_attachments_image.
      eexists _, _. split; [reflexivity|]. eexists _, docs, _, _.
      split; [reflexivity|]. cbn [fst snd]. rewrite !length_app. simpl.
      repeat split; try (f_equal; lia); try lia; try assumption.
      * apply Forall_app. split; [apply image_rows_more, Hi|].
        constructor; [|constructor]. unfold image_row_ok. cbn.
        repeat split; try reflexivity.
        apply in_or_app. right. left. reflexivity.
      * apply document_rows_more, Hd.
    + eexists _, _. split; [reflexivity|]. eexists imgs, docs, _, _.
      split; [reflexivity|]. rewrite !length_app. simpl.
      repeat split; try (f_equal; lia); try lia; try assumption.
      * apply image_rows_more, Hi.
      * apply document_rows_more, Hd.
    + rewrite with_attachments_document.
      eexists _, _. split; [reflexivity|]. eexists imgs, _, _, _.
      split; [reflexivity|]. cbn [fst snd]. rewrite !length_app. simpl.
      repeat split; try (f_equal; lia); try lia; try assumption.
      * apply image_rows_more, Hi.
      * apply Forall_app. split; [apply document_rows_more, Hd|].
        constructor; [|constructor]. unfold document_row_ok. cbn.
        repeat split; try reflexivity.
        apply in_or_app. right. left. reflexivity.
    + eexists _, _. split; [reflexivity|]. eexists imgs, docs, _, _.
      split; [reflexivity|]. rewrite !length_app. simpl.
      repeat split; try (f_equal; lia); try lia; try assumption.
      * apply image_rows_more, Hi.
      * apply document_rows_more, Hd.
  - exists [], [], [], [ListAttachments emailId]. simpl.
    repeat split; try constructor; auto.
  - destruct HI as (imgs & docs & fs & cs & Ew & Ec & Hle & Hfs & Hi & Hd & Hcs).
    exists imgs, docs, fs, cs. rewrite E, Ew, Ec. repeat split; assumption.
Qed.

(** X4: saving the links of a message never throws; it adds to
    [record_links] one row for every extracted link whose URL has at most
    2000 characters and whose INSERT succeeds, in the order of extraction,
    returns their number and changes nothing else.  The rows are for the
    record and the module given, carry the fixed description and a title
    of at most 255 characters, no two of them have the same URL, and there
    are no more of them than extracted links. *)
Theorem save_links_result (v : Variant) (env : Env) (me : MsgEnv)
        (recordId moduleId : nat) (html : string) (w : World) :
  exists rows,
    save_links v env me recordId moduleId html w =
      Ret (List.length rows) (set_links (record_links w ++ rows) w) /\
    List.map LinkRow.url rows =
      filter (fun u => (String.length u <=? 2000) && link_insert_ok me u)
             (List.map url (extracted v env html)) /\
    Forall (link_row_ok recordId moduleId) rows /\
    NoDup (List.map LinkRow.url rows) /\
    List.length rows <= List.length (extracted v env html).
Proof.
  destruct (save_links_shape v env me recordId moduleId html w) as (rows & E & U & F & N).
  exists rows. repeat split; try assumption.
  rewrite <- (length_map LinkRow.url rows), U.
  rewrite <- (length_map url (extracted v env html)).
  apply filter_length_le.
Qed.

(** X5: saving the attachments of a message never throws.  It adds rows
    of images and documents, files and calls to the mail service, and
    changes nothing else; the two numbers it returns are the numbers of
    rows added.  No more files are written than attachments are listed, a
    row is added only for a file written, under [/uploads/images/] or
    [/uploads/documents/], for the record, module and user given; the
    calls added never mark a message read. *)
Theorem saveAttachments_result (me : MsgEnv) (emailId : string)
        (recordId moduleId : nat) (userEmail : string) (w : World) :
  exists imgs docs fs cs,
    saveAttachments me emailId recordId moduleId userEmail w =
      Ret (List.length imgs, List.length docs) (with_attachments imgs docs fs cs w) /\
    List.length imgs + List.length docs <= List.length fs /\
    List.length fs <= listed_attachments me /\
    Forall (image_row_ok recordId moduleId userEmail fs) imgs /\
    Forall (document_row_ok recordId moduleId userEmail fs) docs /\
    Forall (fun c => is_mark_read c = false) cs /\
    mark_reads (with_attachments imgs docs fs cs w) = mark_reads w.
Proof.
  destruct (saveAttachments_shape me emailId recordId moduleId userEmail w)
    as (imgs & docs & fs & cs & E & H1 & H2 & H3 & H4 & H5).
  exists imgs, docs, fs, cs. repeat split; try assumption.
  unfold mark_reads, with_attachments. simpl. rewrite filter_app.
  assert (G : filter is_mark_read cs = []).
  { clear E. induction H5 as [|c cs Hc _ IH]; [reflexivity|].
    simpl. rewrite Hc. exact IH. }
  rewrite G. apply app_nil_r.
Qed.

(** ** File names of saved attachments *)

Lemma split_last_dot_dotless (s : string) :
  dotless s = true -> split_last_dot s = None.
Proof.
  induction s as [|c s IH]; simpl; [reflexivity|].
  intros H. apply andb_true_iff in H. destruct H as [Hc Hs].
  rewrite (IH Hs). apply negb_true_iff in Hc. rewrite Hc. reflexivity.
Qed.

Lemma split_last_dot_app (base ext : string) :
  dotless ext = true -> split_last_dot (base +++ "." +++ ext) = Some (base, ext).
Proof.
  intros H. induction base as [|c base IH].
  - simpl. rewrite (split_last_dot_dotless ext H). reflexivity.
  - change ((String c base) +++ "." +++ ext) with (String c (base +++ "." +++ ext)).
    assert (E : forall s, split_last_dot (String c s) =
                          match split_last_dot s with
                          | Some (b, e) => Some (String c b, e)
                          | None => if Ascii.eqb c "." then Some (EmptyString, s) else None
                          end) by reflexivity.
    rewrite E, IH. reflexivity.
Qed.

Lemma length_append (a b : string) :
  String.length (a +++ b) = String.length a + String.length b.
Proof. induction a as [|c a IH]; simpl; [reflexivity|]. rewrite IH. reflexivity. Qed.

Lemma append_cancel_r (a b r : string) : a +++ r = b +++ r -> a = b.
Proof.
  revert b. induction a as [|c a IH]; intros [|d b] H.
  - reflexivity.
  - apply (f_equal String.length) in H. simpl in H. rewrite length_append in H. lia.
  - apply (f_equal String.length) in H. simpl in H. rewrite length_append in H. lia.
  - simpl in H. injection H as Hc Hr. subst d. f_equal. apply IH, Hr.
Qed.

Lemma append_cancel_l (p a b : string) : p +++ a = p +++ b -> a = b.
Proof.
  induction p as [|c p IH]; simpl; intros H; [exact H|].
  injection H as H. apply IH, H.
Qed.

(** X6: the stored name of an attachment keeps the extension of the
    original name: for a name whose part after the last dot is not empty,
    the random suffix goes between the base name and that dot; a name
    without a dot gets the suffix at its end. *)
Theorem generateUniqueFilename_keeps_extension (uniqueId base ext : string) :
  dotless ext = true ->
  generateUniqueFilename uniqueId (base +++ "." +++ ext) =
    (if Js.truthy ext then base +++ "-" +++ uniqueId +++ "." +++ ext
     else base +++ "-" +++ uniqueId) /\
  generateUniqueFilename uniqueId ext = ext +++ "-" +++ uniqueId.
Proof.
  intros H. unfold generateUniqueFilename.
  rewrite (split_last_dot_app base ext H), (split_last_dot_dotless ext H).
  split; reflexivity.
Qed.

Lemma generateUniqueFilename_keeps_extension_witness :
  dotless "png" = true /\
  generateUniqueFilename "00ff00ff00ff00ff" "site.plan.png" =
    "site.plan-00ff00ff00ff00ff.png" /\
  generateUniqueFilename "00ff00ff00ff00ff" "png" = "png-00ff00ff00ff00ff".
Proof.
  split; [reflexivity|].
  exact (generateUniqueFilename_keeps_extension "00ff00ff00ff00ff" "site.plan" "png" eq_refl).
Defined.

(** X7: two attachments with the same original name are stored under
    different names whenever their random suffixes differ. *)
Theorem generateUniqueFilename_separates (u1 u2 originalName : string) :
  String.eqb u1 u2 = false ->
  String.eqb (generateUniqueFilename u1 originalName)
             (generateUniqueFilename u2 originalName) = false.
Proof.
  intros H. apply String.eqb_neq. apply String.eqb_neq in H.
  intros E. apply H. clear H. unfold generateUniqueFilename in E.
  destruct (split_last_dot originalName) as [[baseName ext]|].
  - destruct (Js.truthy ext).
    + apply append_cancel_l in E. apply (append_cancel_l "-") in E.
      apply append_cancel_r in E. exact E.
    + apply append_cancel_l in E. apply (append_cancel_l "-") in E. exact E.
  - apply append_cancel_l in E. apply (append_cancel_l "-") in E. exact E.
Qed.

Lemma generateUniqueFilename_separates_witness :
  String.eqb "00ff00ff00ff00ff" "00ff00ff00ff00fe" = false /\
  String.eqb (generateUniqueFilename "00ff00ff00ff00ff" "scan.pdf")
             (generateUniqueFilename "00ff00ff00ff00fe" "scan.pdf") = false.
Proof.
  split; [reflexivity|].
  exact (generateUniqueFilename_separates "00ff00ff00ff00ff" "00ff00ff00ff00fe"
           "scan.pdf" eq_refl).
Defined.

(** ** The summary of POST /process *)

(** An invariant of the turns that return is an invariant of a loop that
    returns. *)
Lemma for_fold_inv {B S} (I : list B -> S -> World -> Prop)
      (l : list B) (body : S -> B -> M S) :
  (forall pre x acc w acc' w', In x l -> I pre acc w ->
     body acc x w = Ret acc' w' -> I (pre ++ [x]) acc' w') ->
  forall acc w acc' w', I [] acc w ->
    for_fold l body acc w = Ret acc' w' -> I l acc' w'.
Proof.
  intros Hbody.
  assert (G : forall suf pre acc w acc' w',
             (forall x, In x suf -> In x l) -> I pre acc w ->
             for_fold suf body acc w = Ret acc' w' -> I (pre ++ suf) acc' w').
  { induction suf as [|x suf IH]; simpl; intros pre acc w acc' w' Hin HI Hrun.
    - unfold ret in Hrun. injection Hrun as <- <-. rewrite app_nil_r. exact HI.
    - unfold bind in Hrun.
      destruct (body acc x w) as [acc1 w1|w1] eqn:E1; [|discriminate].
      replace (pre ++ x :: suf) with ((pre ++ [x]) ++ suf)
        by (rewrite <- app_assoc; reflexivity).
      apply (IH (pre ++ [x]) acc1 w1); [intros y Hy; apply Hin; right; exact Hy| |exact Hrun].
      apply (Hbody pre x acc w); [apply Hin; left; reflexivity|exact HI|exact E1]. }
  intros acc w acc' w' HI Hrun. apply (G l [] acc w acc' w' (fun x Hx => Hx) HI Hrun).
Qed.

Lemma completed_ledger (v : Variant) (env : Env) (email : Email.t) (module : ModuleRow.t)
      (cleanSubject : string) (recordId i d k : nat) (w : World) :
  processed_emails (completed v env email module cleanSubject recordId i d k w) =
  processed_emails w.
Proof.
  unfold completed. cbv zeta. rewrite markEmailAsRead_final. cbv zeta.
  destruct (mark_read_ok _), (auto_response_ok _); reflexivity.
Qed.

Lemma ledgered_app (e : string) (w w' : World) (rows : list Ledger.t) :
  processed_emails w' = processed_emails w ++ rows ->
  ledgered e w = true -> ledgered e w' = true.
Proof.
  unfold ledgered. intros -> H. rewrite existsb_app, H. reflexivity.
Qed.

Lemma ledgered_last (row : Ledger.t) (w w' : World) :
  processed_emails w' = processed_emails w ++ [row] ->
  ledgered (Ledger.email_id row) w' = true.
Proof.
  unfold ledgered. intros ->. rewrite existsb_app. simpl.
  rewrite String.eqb_refl. apply orb_true_iff. right. reflexivity.
Qed.

(** What a run of [create_record] that returns has written to the ledger. *)
Lemma creation_returns (v : Variant) (env : Env) (email : Email.t)
      (module : ModuleRow.t) (cleanSubject : string) (w w' : World)
      (r : nat * (nat * nat) * nat) :
  creation v env email module cleanSubject w (Ret r w') ->
  ledgered (Email.id email) w = false /\
  fst (fst r) = S (module_records_seq w) /\
  processed_emails w' =
    processed_emails w ++ [processed_row email (ModuleRow.id module) (fst (fst r))].
Proof.
  intros H. inversion H as [| | | |i d k w3 H1 H2 H3 Hg H4 H5]; subst.
  split; [exact H3|]. split; [reflexivity|].
  rewrite completed_ledger.
  destruct Hg as [(_ & C2 & _) _ _ _ _]. rewrite C2. reflexivity.
Qed.

Lemma summary_ids_processed (x : string * nat * nat) (s : Summary) :
  Permutation (summary_ids (push_processed x s)) (summary_ids s ++ [fst (fst x)]).
Proof.
  unfold summary_ids, push_processed. simpl. rewrite map_app. simpl.
  rewrite <- !app_assoc. apply Permutation_app_head.
  rewrite (app_assoc (List.map fst (skipped_list s))).
  apply Permutation_app_comm.
Qed.

Lemma summary_ids_skipped (x : string * string) (s : Summary) :
  Permutation (summary_ids (push_skipped x s)) (summary_ids s ++ [fst x]).
Proof.
  unfold summary_ids, push_skipped. simpl. rewrite map_app. simpl.
  rewrite <- !app_assoc. do 2 apply Permutation_app_head.
  apply Permutation_app_comm.
Qed.

Lemma summary_ids_error (x : string * string) (s : Summary) :
  Permutation (summary_ids (push_error x s)) (summary_ids s ++ [fst x]).
Proof.
  unfold summary_ids, push_error. simpl. rewrite map_app. simpl.
  rewrite <- !app_assoc. reflexivity.
Qed.

(** One turn of the loop of [POST /process] that returns: the message has
    a ledger row, and its id went to one of the three lists. *)
Lemma process_message_returns (env : Env) (uploadsDir : string)
      (summary summary' : Summary) (email : Email.t) (w w' : World) :
  process_message env uploadsDir summary email w = Ret summary' w' ->
  ledgered (Email.id email) w' = true /\
  Permutation (summary_ids summary') (summary_ids summary ++ [Email.id email]) /\
  (processed_list summary' = processed_list summary \/
   exists mid rid,
     processed_list summary' = processed_list summary ++ [(Email.id email, mid, rid)] /\
     In (processed_row email mid rid) (processed_emails w')).
Proof.
  unfold process_message. cbv zeta.
  unfold bind at 1. unfold get_existing.
  destruct (existing_query_ok (msg_env env (Email.id email))); [|discriminate].
  destruct (ledgered (Email.id email) w) eqn:El.
  { unfold ret. intros H. injection H as <- <-.
    split; [exact El|]. split; [apply summary_ids_skipped|left; reflexivity]. }
  assert (Hverdict : forall mid st msg (s1 : Summary) entry,
             Permutation (summary_ids s1) (summary_ids summary ++ [Email.id email]) ->
             processed_list s1 = processed_list summary ->
             (insert_processed_email (ledger_insert_ok (msg_env env (Email.id email)))
                (verdict_row email mid st msg) ;;; ret s1) w = Ret entry w' ->
             ledgered (Email.id email) w' = true /\
             Permutation (summary_ids entry) (summary_ids summary ++ [Email.id email]) /\
             (processed_list entry = processed_list summary \/
              exists mid rid,
                processed_list entry =
                  processed_list summary ++ [(Email.id email, mid, rid)] /\
                In (processed_row email mid rid) (processed_emails w'))).
  { intros mid st msg s1 entry Hp Hl. unfold bind, insert_processed_email, ret.
    destruct (ledger_insert_ok _ && negb _); [|discriminate].
    intros H. injection H as <- <-.
    split; [|split; [exact Hp|left; exact Hl]].
    apply (ledgered_last (verdict_row email mid st msg) w). reflexivity. }
  destruct (named (moduleName (parseModuleTagFromSubject (Email.subject email))))
    as [name|].
  2:{ apply Hverdict; [apply summary_ids_skipped|reflexivity]. }
  unfold bind at 1. unfold get_module.
  destruct (module_query_ok (msg_env env (Email.id email))); [|discriminate].
  destruct (find _ (modules w)) as [module|].
  2:{ apply Hverdict; [apply summary_ids_error|reflexivity]. }
  destruct (negb (inbox_enabled module)).
  { apply Hverdict; [apply summary_ids_skipped|reflexivity]. }
  unfold bind.
  pose proof (create_record_creation Bulk env uploadsDir email module
                (cleanSubject (parseModuleTagFromSubject (Email.subject email))) w) as Hc.
  destruct (create_record Bulk env uploadsDir email module _ w) as [r w1|w1];
    [|discriminate].
  unfold ret. intros H. injection H as <- <-.
  destruct (creation_returns _ _ _ _ _ _ _ _ Hc) as (_ & _ & Hrows).
  split; [|split; [apply summary_ids_processed|]].
  - apply (ledgered_last (processed_row email (ModuleRow.id module) (fst (fst r))) w).
    exact Hrows.
  - right. exists (ModuleRow.id module), (fst (fst r)). split; [reflexivity|].
    rewrite Hrows. apply in_or_app. right. left. reflexivity.
Qed.

(** What holds of summary and ledger when [POST /process] answers with
    its summary. *)
Lemma post_process_batch_ledgered (env : Env) (uploadsDir : string) (w w' : World)
      (summary : Summary) (total : nat) :
  post_process env uploadsDir w = Ret (Processed summary total) w' ->
  Permutation (summary_ids summary) (List.map Email.id (listed 50 true (mailbox w))) /\
  Forall (fun x => ledgered (Email.id x) w' = true) (listed 50 true (mailbox w)) /\
  Forall (entry_ledgered w') (processed_list summary).
Proof.
  intros Hrun.
  pose proof (post_process_completed _ _ _ _ _ _ Hrun) as Hloop.
  set (w0 := log_call (ListMessages 50 true) w) in *.
  set (batch := listed 50 true (mailbox w)) in *.
  set (I := fun (pre : list Email.t) (s : Summary) (w1 : World) =>
              keys w1 = keys w0 /\
              Permutation (summary_ids s) (List.map Email.id pre) /\
              Forall (fun x => ledgered (Email.id x) w1 = true) pre /\
              Forall (entry_ledgered w1) (processed_list s)).
  assert (HI : I batch summary w').
  { apply (for_fold_inv I batch (process_message env uploadsDir)) with (3 := Hloop).
    - intros pre x acc w1 acc' w2 Hin (K & P & L & B) E.
      assert (Hkey : In (Email.id x, Email.subject x) (keys w1)).
      { rewrite K. change (keys w0) with (keys w). eapply fetched_keys. exact Hin. }
      pose proof (process_message_steps env uploadsDir acc x w1 Hkey) as Sx.
      rewrite E in Sx. simpl in Sx.
      destruct (steps_frame _ _ _ _ _ Sx) as [_ K2].
      destruct (steps_backed _ _ _ _ _ Sx) as (_ & rows & Hrows & _).
      destruct (process_message_returns _ _ _ _ _ _ _ E) as (R1 & R2 & R3).
      assert (Hmono : forall p, entry_ledgered w1 p -> entry_ledgered w2 p).
      { intros p (row & Hr & Hrest). exists row. split; [|exact Hrest].
        rewrite Hrows. apply in_or_app. left. exact Hr. }
      repeat split.
      + rewrite K2. exact K.
      + rewrite map_app. simpl. rewrite R2. apply Permutation_app_tail, P.
      + apply Forall_app. split.
        * revert L. apply Forall_impl. intros y Hy. eapply ledgered_app; eassumption.
        * constructor; [exact R1|constructor].
      + destruct R3 as [->|(mid & rid & -> & Hrow)].
        * revert B. apply Forall_impl. exact Hmono.
        * apply Forall_app. split; [revert B; apply Forall_impl; exact Hmono|].
          constructor; [|constructor].
          exists (processed_row x mid rid). repeat split; try reflexivity. exact Hrow.
    - repeat split; constructor. }
  destruct HI as (_ & P & L & B). repeat split; assumption.
Qed.

(** X8: when [POST /process] answers with its summary, the summary
    accounts for the batch: [total] is the number of unread messages
    listed (at most 50), every message of the batch is named by exactly
    one of the lists [processed], [skipped] and [errors], and the lists
    name no other message; every message of the batch then has a row in
    the ledger, and every entry of [processed] has its 'processed' row
    with that module and record. *)
Theorem post_process_summary_accounts (env : Env) (uploadsDir : string) (w w' : World)
        (summary : Summary) (total : nat) :
  post_process env uploadsDir w = Ret (Processed summary total) w' ->
  total = List.length (listed 50 true (mailbox w)) /\
  total <= 50 /\
  List.length (processed_list summary) + List.length (skipped_list summary) +
    List.length (errors_list summary) = total /\
  Permutation (summary_ids summary) (List.map Email.id (listed 50 true (mailbox w))) /\
  Forall (fun x => ledgered (Email.id x) w' = true) (listed 50 true (mailbox w)) /\
  Forall (entry_ledgered w') (processed_list summary).
Proof.
  intros Hrun.
  assert (Htotal : total = List.length (listed 50 true (mailbox w))).
  { revert Hrun. unfold post_process, try_catch, bind, fetchInboxEmails, ret.
    destruct (fetch_ok env); [|discriminate].
    destruct (for_fold _ _ _ _) as [s1 w1|w1]; [|discriminate].
    intros H. injection H as _ <- _. reflexivity. }
  destruct (post_process_batch_ledgered _ _ _ _ _ _ Hrun) as (P & L & B).
  split; [exact Htotal|]. split.
  { rewrite Htotal. unfold listed. rewrite length_map. apply firstn_le_length. }
  split.
  { apply Permutation_length in P. unfold summary_ids in P.
    rewrite !length_app, !length_map in P. rewrite Htotal. lia. }
  repeat split; assumption.
Qed.

Lemma post_process_summary_accounts_witness :
  exists summary total w',
    post_process Sample.env_ok "/srv/uploads"
      (Sample.world (ConfigObject true true) Sample.tagged)
    = Ret (Processed summary total) w' /\
    total = 1 /\
    Permutation (summary_ids summary) ["m1"] /\
    Forall (entry_ledgered w') (processed_list summary).
Proof.
  eexists _, _, _. split; [vm_compute; reflexivity|].
  destruct (post_process_summary_accounts Sample.env_ok "/srv/uploads"
              (Sample.world (ConfigObject true true) Sample.tagged) _ _ _ eq_refl)
    as (H1 & _ & _ & H3 & _ & H5).
  split; [exact H1|]. split; [exact H3|exact H5].
Defined.

(** X9: after [POST /process] has answered with its summary, the listing
    of [GET /unprocessed] names no message of the batch that was handled,
    whatever the mail service and the database answer then; a listing
    that is answered writes nothing, it only calls the mail service
    once. *)
Theorem unprocessed_after_post_process (env env' : Env) (uploadsDir : string)
        (ok : bool) (w w' w'' : World) (summary : Summary) (total : nat)
        (emails : list (Email.t * TagParse)) :
  post_process env uploadsDir w = Ret (Processed summary total) w' ->
  get_unprocessed env' ok w' = Ret (Listed emails) w'' ->
  w'' = log_call (ListMessages 50 true) w' /\
  forall x, In x emails ->
            ~ In (Email.id (fst x)) (List.map Email.id (listed 50 true (mailbox w))).
Proof.
  intros Hrun Hlist.
  destruct (post_process_batch_ledgered _ _ _ _ _ _ Hrun) as (_ & L & _).
  revert Hlist. unfold get_unprocessed, try_catch, bind, fetchInboxEmails,
    all_processed_ids, ret.
  destruct (fetch_ok env'); [|discriminate].
  destruct ok; [|discriminate].
  intros H. injection H as <- <-. split; [reflexivity|].
  intros x Hx Hbatch. unfold with_tags in Hx.
  apply in_map_iff in Hx. destruct Hx as (e & <- & He). simpl in Hbatch.
  apply filter_In in He. destruct He as [_ He]. apply negb_true_iff in He.
  apply in_map_iff in Hbatch. destruct Hbatch as (b & Hid & Hb).
  pose proof (proj1 (Forall_forall _ _) L b Hb) as Hled. cbv beta in Hled.
  rewrite Hid in Hled. unfold ledgered in Hled. simpl in He.
  unfold set_has in He.
  apply existsb_exists in Hled. destruct Hled as (row & Hrow & Heq).
  apply String.eqb_eq in Heq.
  assert (Hc : existsb (String.eqb (Email.id e))
                       (List.map Ledger.email_id (processed_emails w')) = true).
  { apply existsb_exists. exists (Ledger.email_id row).
    split; [apply in_map, Hrow|]. rewrite Heq. apply String.eqb_refl. }
  congruence.
Qed.

Lemma unprocessed_after_post_process_witness :
  exists summary total w' emails w'',
    post_process Sample.env_ok "/srv/uploads"
      (Sample.world (ConfigObject true false) Sample.untagged)
    = Ret (Processed summary total) w' /\
    get_unprocessed Sample.env_ok true w' = Ret (Listed emails) w'' /\
    forall x, In x emails -> ~ In (Email.id (fst x)) ["m1"].
Proof.
  eexists _, _, _, _, _. split; [vm_compute; reflexivity|].
  split; [vm_compute; reflexivity|].
  exact (proj2 (unprocessed_after_post_process Sample.env_ok Sample.env_ok "/srv/uploads"
                  true (Sample.world (ConfigObject true false) Sample.untagged)
                  _ _ _ _ _ eq_refl eq_refl)).
Defined.

(** ** The answers of POST /process-single *)

Lemma rows_for_appended (row : Ledger.t) (w w' : World) :
  ledgered (Ledger.email_id row) w = false ->
  processed_emails w' = processed_emails w ++ [row] ->
  rows_for (Ledger.email_id row) w' = [row].
Proof.
  intros Hfresh Hrows. apply ledgered_false_rows in Hfresh.
  unfold rows_for in *. rewrite Hrows, filter_app, Hfresh. simpl.
  rewrite String.eqb_refl. reflexivity.
Qed.

(** X10: the handler of [POST /process-single/:emailId] always answers.
    An answer with status 400 or 404 comes with no write at all: the state
    is the one before, but for the one call that lists the mailbox.  The
    answer of success names the record just created for the message: the
    message is one of those listed, it had no ledger row, it now has
    exactly one, the 'processed' row with the module and record of the
    answer, and the record is in [module_records]. *)
Theorem post_process_single_answers (env : Env) (uploadsDir emailId : string)
        (bodyModuleName userEmail : option string) (w : World) :
  exists resp w',
    post_process_single env uploadsDir emailId bodyModuleName userEmail w = Ret resp w' /\
    match resp with
    | Failed code _ =>
        (code = 400 \/ code = 404 \/ code = 500) /\
        (code <> 500 -> w' = log_call (ListMessages 100 false) w)
    | ProcessedSingle recordId moduleId _ _ _ =>
        exists email,
          In email (listed 100 false (mailbox w)) /\
          Email.id email = emailId /\
          ledgered emailId w = false /\
          rows_for emailId w' = [processed_row email moduleId recordId] /\
          exists rec, In rec (module_records w') /\
                      RecordRow.id rec = recordId /\
                      RecordRow.module_id rec = moduleId /\
                      RecordRow.origin rec = emailId
    | Processed _ _ => False
    end.
Proof.
  unfold post_process_single. cbv zeta.
  unfold try_catch, bind at 1, fetchInboxEmails, ret.
  set (w1 := log_call (ListMessages 100 false) w).
  destruct (fetch_ok env).
  2:{ eexists _, _. split; [reflexivity|]. split; [auto|reflexivity]. }
  destruct (find _ _) as [email|] eqn:Hfind.
  2:{ eexists _, _. split; [reflexivity|]. split; [auto|reflexivity]. }
  pose proof (find_some _ _ Hfind) as [Hin Hid].
  apply String.eqb_eq in Hid. subst emailId.
  unfold bind at 1. unfold get_existing.
  destruct (existing_query_ok (msg_env env (Email.id email))).
  2:{ eexists _, _. split; [reflexivity|]. split; [auto|intros H; contradiction H; reflexivity]. }
  change (ledgered (Email.id email) w1) with (ledgered (Email.id email) w).
  destruct (ledgered (Email.id email) w) eqn:Hfresh.
  { eexists _, _. split; [reflexivity|]. split; [auto|reflexivity]. }
  destruct (match named bodyModuleName with
            | Some n => Some n
            | None => named (moduleName (parseModuleTagFromSubject (Email.subject email)))
            end) as [target|].
  2:{ eexists _, _. split; [reflexivity|]. split; [auto|reflexivity]. }
  unfold bind at 1. unfold get_module.
  destruct (module_query_ok (msg_env env (Email.id email))).
  2:{ eexists _, _. split; [reflexivity|]. split; [auto|intros H; contradiction H; reflexivity]. }
  destruct (find _ (modules w1)) as [module|].
  2:{ eexists _, _. split; [reflexivity|]. split; [auto|reflexivity]. }
  unfold bind.
  set (cs := cleanSubject (parseModuleTagFromSubject (Email.subject email))).
  pose proof (create_record_creation (Single userEmail) env uploadsDir email module cs w1)
    as Hc.
  destruct (create_record (Single userEmail) env uploadsDir email module cs w1)
    as [r w2|w2] eqn:E.
  2:{ eexists _, _. split; [reflexivity|]. split; [auto|intros H; contradiction H; reflexivity]. }
  eexists _, _. split; [reflexivity|].
  exists email. split; [exact Hin|]. split; [reflexivity|]. split; [reflexivity|].
  destruct (creation_returns _ _ _ _ _ _ _ _ Hc) as (_ & Hrid & Hrows).
  split.
  - apply (rows_for_appended (processed_row email (ModuleRow.id module) (fst (fst r))) w1);
      [exact Hfresh|exact Hrows].
  - exists (new_record (Single userEmail) email module cs w1).
    split; [|split; [|split]].
    + change w2 with (final (Ret r w2)).
      eapply creation_keeps_record; [exact Hc|].
      inversion Hc; assumption.
    + rewrite Hrid. reflexivity.
    + reflexivity.
    + reflexivity.
Qed.

(* ================================================================== *)
(** * Relations that every pass respects *)
(* ================================================================== *)

(** A relation between states that is reflexive and transitive, holds
    across the bookkeeping of a pass, across the INSERT of a verdict row
    and across the creation of a record for a message without ledger row,
    holds between the state before and after each of the three passes. *)
Section Passes.

Variable env : Env.
Variable uploadsDir : string.
Variable R : World -> World -> Prop.

Hypothesis R_refl : forall w, R w w.
Hypothesis R_trans : forall w1 w2 w3, R w1 w2 -> R w2 w3 -> R w1 w3.
Hypothesis R_call : forall c w, is_mark_read c = false -> R w (log_call c w).
Hypothesis R_isProcessing : forall b w, R w (set_isProcessing b w).
Hypothesis R_debugLogging : forall b w, R w (set_debugLogging b w).
Hypothesis R_verdict :
  forall email moduleId st message w,
    st <> processed ->
    ledgered (Email.id email) w = false ->
    R w (with_ledger_row (verdict_row email moduleId st message) w).
Hypothesis R_create :
  forall v email module cleanSubject w,
    ledgered (Email.id email) w = false ->
    R w (final (create_record v env uploadsDir email module cleanSubject w)).

Lemma for_each_closed {B} (l : list B) (body : B -> M unit) (w : World) :
  (forall x w1, R w1 (final (body x w1))) -> R w (final (for_each l body w)).
Proof.
  intros Hbody. revert w. induction l as [|x l IH]; intros w; simpl.
  - apply R_refl.
  - rewrite final_bind. specialize (Hbody x w).
    destruct (body x w) as [[] w1|w1]; simpl in Hbody; [|exact Hbody].
    eapply R_trans; [exact Hbody|apply IH].
Qed.

Lemma for_fold_closed {B S} (l : list B) (body : S -> B -> M S) (acc : S) (w : World) :
  (forall a x w1, R w1 (final (body a x w1))) -> R w (final (for_fold l body acc w)).
Proof.
  intros Hbody. revert acc w. induction l as [|x l IH]; intros acc w; simpl.
  - apply R_refl.
  - rewrite final_bind. specialize (Hbody acc x w).
    destruct (body acc x w) as [acc1 w1|w1]; simpl in Hbody; [|exact Hbody].
    eapply R_trans; [exact Hbody|apply IH].
Qed.

Lemma verdict_closed (email : Email.t) (moduleId : option nat) (st : Status)
      (message : string) (w : World) :
  st <> processed ->
  ledgered (Email.id email) w = false ->
  R w (final (insert_processed_email (ledger_insert_ok (msg_env env (Email.id email)))
                (verdict_row email moduleId st message) w)).
Proof.
  intros Hst Hfresh. unfold insert_processed_email.
  destruct (ledger_insert_ok _ && negb _); simpl; [|apply R_refl].
  apply R_verdict; assumption.
Qed.

Lemma process_message_auto_closed (mods : list ModuleRow.t) (email : Email.t) (w : World) :
  R w (final (process_message_auto env uploadsDir mods email w)).
Proof.
  unfold process_message_auto. cbv zeta. rewrite final_bind. unfold get_existing.
  destruct (existing_query_ok (msg_env env (Email.id email))); [|apply R_refl].
  destruct (ledgered (Email.id email) w) eqn:Hfresh; [apply R_refl|].
  destruct (named _) as [name|]; [|apply R_refl].
  destruct (find_auto_module mods name) as [module|]; [|apply R_refl].
  rewrite final_guarded. apply R_create, Hfresh.
Qed.

Lemma process_message_closed (summary : Summary) (email : Email.t) (w : World) :
  R w (final (process_message env uploadsDir summary email w)).
Proof.
  unfold process_message. cbv zeta. rewrite final_bind. unfold get_existing.
  destruct (existing_query_ok (msg_env env (Email.id email))); [|apply R_refl].
  destruct (ledgered (Email.id email) w) eqn:Hfresh; [apply R_refl|].
  destruct (named _) as [name|].
  2:{ rewrite final_bind_pure by reflexivity.
      apply verdict_closed; [discriminate|exact Hfresh]. }
  rewrite final_bind. unfold get_module.
  destruct (module_query_ok (msg_env env (Email.id email))); [|apply R_refl].
  destruct (find _ (modules w)) as [module|].
  2:{ rewrite final_bind_pure by reflexivity.
      apply verdict_closed; [discriminate|exact Hfresh]. }
  destruct (negb (inbox_enabled module)).
  { rewrite final_bind_pure by reflexivity.
    apply verdict_closed; [discriminate|exact Hfresh]. }
  rewrite final_bind_pure by reflexivity. apply R_create, Hfresh.
Qed.

Lemma post_process_closed (w : World) : R w (final (post_process env uploadsDir w)).
Proof.
  unfold post_process. rewrite final_try_catch.
  match goal with
  | |- R _ match ?body w with _ => _ end =>
      assert (H : R w (final (body w))); [|destruct (body w); exact H]
  end.
  rewrite final_bind. unfold fetchInboxEmails.
  set (w1 := log_call (ListMessages 50 true) w).
  assert (S1 : R w w1) by (apply R_call; reflexivity).
  destruct (fetch_ok env); [|exact S1].
  rewrite final_bind_pure by reflexivity.
  eapply R_trans; [exact S1|].
  apply for_fold_closed. intros a x w2. apply process_message_closed.
Qed.

Lemma post_process_single_closed (emailId : string)
      (bodyModuleName userEmail : option string) (w : World) :
  R w (final (post_process_single env uploadsDir emailId bodyModuleName userEmail w)).
Proof.
  unfold post_process_single. cbv zeta. rewrite final_try_catch.
  match goal with
  | |- R _ match ?body w with _ => _ end =>
      assert (H : R w (final (body w))); [|destruct (body w); exact H]
  end.
  rewrite final_bind. unfold fetchInboxEmails.
  set (w1 := log_call (ListMessages 100 false) w).
  assert (S1 : R w w1) by (apply R_call; reflexivity).
  destruct (fetch_ok env); [|exact S1].
  destruct (find _ _) as [email|] eqn:Hfind; [|exact S1].
  pose proof (find_some _ _ Hfind) as [Hin Hid].
  apply String.eqb_eq in Hid. subst emailId.
  rewrite final_bind. unfold get_existing.
  destruct (existing_query_ok (msg_env env (Email.id email))); [|exact S1].
  change (ledgered (Email.id email) w1) with (ledgered (Email.id email) w).
  destruct (ledgered (Email.id email) w) eqn:Hfresh; [exact S1|].
  match goal with
  | |- R _ (final (match ?t with _ => _ end w1)) =>
      destruct t as [target|]; [|exact S1]
  end.
  rewrite final_bind. unfold get_module.
  destruct (module_query_ok (msg_env env (Email.id email))); [|exact S1].
  destruct (find _ (modules w1)) as [module|]; [|exact S1].
  rewrite final_bind_pure by reflexivity.
  eapply R_trans; [exact S1|]. apply R_create. exact Hfresh.
Qed.

Lemma processEmails_closed (w : World) : R w (final (processEmails env uploadsDir w)).
Proof.
  unfold processEmails. rewrite final_bind. unfold loadDebugSetting.
  match goal with
  | |- R _ (final (bind _ _ (set_debugLogging ?b w))) => set (dbg := b)
  end.
  assert (S0 : R w (set_debugLogging dbg w)) by apply R_debugLogging.
  unfold bind at 1. unfold read.
  change (isProcessing (set_debugLogging dbg w)) with (isProcessing w).
  destruct (isProcessing w) eqn:Hbusy; [exact S0|].
  unfold bind at 1. unfold modify.
  set (w1 := set_isProcessing true (set_debugLogging dbg w)).
  assert (S1 : R w w1) by (eapply R_trans; [exact S0|apply R_isProcessing]).
  unfold try_catch_finally.
  match goal with
  | |- R _ (final match try_catch ?body ?h w1 with _ => _ end) =>
      assert (H : R w (final (try_catch body h w1)));
      [|destruct (try_catch body h w1); simpl in *;
        (eapply R_trans; [exact H|apply R_isProcessing])]
  end.
  rewrite final_try_catch.
  match goal with
  | |- R _ match ?body w1 with _ => _ end =>
      assert (H : R w (final (body w1))); [|destruct (body w1); exact H]
  end.
  rewrite final_bind. unfold all_active_modules.
  destruct (modules_query_ok env); [|exact S1].
  destruct (List.length _ =? 0).
  { eapply R_trans; [exact S1|apply R_isProcessing]. }
  rewrite final_bind. unfold fetchInboxEmails.
  set (w2 := log_call (ListMessages 50 true) w1).
  assert (S2 : R w w2).
  { eapply R_trans; [exact S1|]. apply R_call. reflexivity. }
  destruct (fetch_ok env).
  2:{ eapply R_trans; [exact S2|apply R_isProcessing]. }
  eapply R_trans; [exact S2|].
  apply for_each_closed. intros x w3. apply process_message_auto_closed.
Qed.

End Passes.

(** ** Messages are marked read after their ledger row *)

Lemma read_after_ledger_refl (w : World) : read_after_ledger w w.
Proof.
  split; [exists []; symmetry; apply app_nil_r|]. intros e H. left. exact H.
Qed.

Lemma ledgered_false_before (e : string) (w w' : World) (rows : list Ledger.t) :
  processed_emails w' = processed_emails w ++ rows ->
  ledgered e w' = false -> ledgered e w = false.
Proof.
  intros Hrows H. destruct (ledgered e w) eqn:E; [|reflexivity].
  rewrite (ledgered_app e w w' rows Hrows E) in H. discriminate.
Qed.

Lemma read_after_ledger_trans (w1 w2 w3 : World) :
  read_after_ledger w1 w2 -> read_after_ledger w2 w3 -> read_after_ledger w1 w3.
Proof.
  intros [[r1 E1] H1] [[r2 E2] H2]. split.
  - exists (r1 ++ r2). rewrite E2, E1, app_assoc. reflexivity.
  - intros e He. destruct (H2 e He) as [H|(Hf & row & Hrow & Hid & Hst)].
    + destruct (H1 e H) as [H'|(Hf & row & Hrow & Hid & Hst)]; [left; exact H'|].
      right. split; [exact Hf|]. exists row. split; [|split; assumption].
      rewrite E2. apply in_or_app. left. exact Hrow.
    + right. split; [eapply ledgered_false_before; eassumption|].
      exists row. split; [exact Hrow|split; assumption].
Qed.

(** States with the same ledger and the same calls of [markEmailAsRead]. *)
Lemma read_after_ledger_same (w w' : World) :
  processed_emails w' = processed_emails w ->
  mark_reads w' = mark_reads w ->
  read_after_ledger w w'.
Proof.
  intros H1 H2. split; [exists []; rewrite H1; symmetry; apply app_nil_r|].
  intros e He. left. rewrite <- H2. exact He.
Qed.

Lemma mark_reads_completed (v : Variant) (env : Env) (email : Email.t)
      (module : ModuleRow.t) (cleanSubject : string) (recordId i d k : nat) (w : World) :
  mark_reads (completed v env email module cleanSubject recordId i d k w) =
  mark_reads w ++ [MarkRead (Email.id email)].
Proof.
  unfold completed. cbv zeta. rewrite markEmailAsRead_final. cbv zeta.
  destruct (mark_read_ok _), (auto_response_ok _);
    unfold mark_reads, announced, log_call, with_history; simpl;
    rewrite !filter_app; simpl; rewrite app_nil_r; reflexivity.
Qed.

Lemma mark_reads_announced (v : Variant) (email : Email.t)
      (module : ModuleRow.t) (cleanSubject : string) (recordId i d k : nat) (w : World) :
  mark_reads (announced v email module cleanSubject recordId i d k w) = mark_reads w /\
  processed_emails (announced v email module cleanSubject recordId i d k w) =
    processed_emails w.
Proof.
  unfold mark_reads, announced, log_call, with_history; simpl.
  rewrite filter_app. simpl. rewrite app_nil_r. split; reflexivity.
Qed.

Lemma read_after_ledger_creation (v : Variant) (env : Env) (email : Email.t)
      (module : ModuleRow.t) (cleanSubject : string) (w : World)
      (r : result (nat * (nat * nat) * nat)) :
  creation v env email module cleanSubject w r -> read_after_ledger w (final r).
Proof.
  set (row := processed_row email (ModuleRow.id module) (S (module_records_seq w))).
  assert (Hrow : forall w3 i d k,
             grown (with_ledger_row row (with_record v email module cleanSubject w))
                   w3 i d k ->
             processed_emails w3 = processed_emails w ++ [row] /\
             mark_reads w3 = mark_reads w).
  { intros w3 i d k [(_ & C2 & _ & _ & _ & C6) _ _ _ _]. split; assumption. }
  assert (Hquiet : forall w',
             processed_emails w' = processed_emails w ++ [row] ->
             mark_reads w' = mark_reads w ->
             read_after_ledger w w').
  { intros w' E1 E2. split; [exists [row]; exact E1|].
    intros e He. left. rewrite <- E2. exact He. }
  intros H. inversion H as [ | |i d k w3 H1 H2 H3 Hg H4
                              |i d k w3 H1 H2 H3 Hg H4 H5 H6
                              |i d k w3 H1 H2 H3 Hg H4 H5]; subst; simpl.
  - apply read_after_ledger_refl.
  - apply read_after_ledger_same; reflexivity.
  - destruct (Hrow _ _ _ _ Hg). apply Hquiet; assumption.
  - destruct (Hrow _ _ _ _ Hg) as [E1 E2].
    destruct (mark_reads_announced v email module cleanSubject
                (S (module_records_seq w)) i d k w3) as [A1 A2].
    apply Hquiet; congruence.
  - destruct (Hrow _ _ _ _ Hg) as [E1 E2]. split.
    + exists [row]. rewrite completed_ledger. exact E1.
    + intros e He. rewrite mark_reads_completed, E2 in He.
      apply in_app_or in He. destruct He as [He|[He|[]]]; [left; exact He|].
      injection He as <-. right. split; [exact H3|].
      exists row. split; [|split; reflexivity].
      rewrite completed_ledger, E1. apply in_or_app. right. left. reflexivity.
Qed.

Lemma pass_read_after_ledger (env : Env) (uploadsDir : string) (w w' : World) :
  pass_result env uploadsDir w w' -> read_after_ledger w w'.
Proof.
  assert (Hcall : forall c w1, is_mark_read c = false -> read_after_ledger w1 (log_call c w1)).
  { intros c w1 Hc. apply read_after_ledger_same; [reflexivity|].
    apply mark_reads_log_call, Hc. }
  assert (Hp : forall b w1, read_after_ledger w1 (set_isProcessing b w1))
    by (intros; apply read_after_ledger_same; reflexivity).
  assert (Hd : forall b w1, read_after_ledger w1 (set_debugLogging b w1))
    by (intros; apply read_after_ledger_same; reflexivity).
  assert (Hv : forall email moduleId st message w1,
             st <> processed -> ledgered (Email.id email) w1 = false ->
             read_after_ledger w1
               (with_ledger_row (verdict_row email moduleId st message) w1)).
  { intros email moduleId st message w1 _ _. split; [eexists; reflexivity|].
    intros e He. left. exact He. }
  assert (Hc : forall v email module cleanSubject w1,
             ledgered (Email.id email) w1 = false ->
             read_after_ledger w1
               (final (create_record v env uploadsDir email module cleanSubject w1))).
  { intros v email module cleanSubject w1 _.
    apply read_after_ledger_creation with (v := v) (env := env) (email := email)
                                          (module := module) (cleanSubject := cleanSubject).
    apply create_record_creation. }
  intros [->|[->|(emailId & bodyModuleName & userEmail & ->)]].
  - apply processEmails_closed;
      first [assumption|exact read_after_ledger_refl|exact read_after_ledger_trans].
  - apply post_process_closed;
      first [assumption|exact read_after_ledger_refl|exact read_after_ledger_trans].
  - apply post_process_single_closed;
      first [assumption|exact read_after_ledger_refl|exact read_after_ledger_trans].
Qed.

(** X11: in each of the three passes [markEmailAsRead] is called for a
    message only after its 'processed' row was written: a message for
    which the pass has called it had no ledger row before the pass and has
    a 'processed' row after it.  A message without a 'processed' row
    after the pass was therefore not marked read by it, and the ledger
    never loses a row. *)
Theorem mark_read_follows_processed_row (env : Env) (uploadsDir : string)
        (w w' : World) (e : string) :
  pass_result env uploadsDir w w' ->
  In (MarkRead e) (calls w') ->
  ~ In (MarkRead e) (calls w) ->
  ledgered e w = false /\
  (exists row, In row (processed_emails w') /\
               Ledger.email_id row = e /\
               Ledger.status row = processed) /\
  (forall row, In row (processed_emails w) -> In row (processed_emails w')).
Proof.
  intros Hpass Hin Hnew.
  destruct (pass_read_after_ledger _ _ _ _ Hpass) as [[rows Hrows] H].
  assert (Hm : In (MarkRead e) (mark_reads w')).
  { unfold mark_reads. apply filter_In. split; [exact Hin|reflexivity]. }
  destruct (H e Hm) as [Hold|(Hf & Hrow)].
  - exfalso. apply Hnew. unfold mark_reads in Hold. apply filter_In in Hold. apply Hold.
  - split; [exact Hf|]. split; [exact Hrow|].
    intros row Hr. rewrite Hrows. apply in_or_app. left. exact Hr.
Qed.

Lemma mark_read_follows_processed_row_witness :
  ledgered "m1" (Sample.world (ConfigObject true true) Sample.tagged) = false /\
  exists row,
    In row (processed_emails
              (final (processEmails Sample.env_ok "/srv/uploads"
                        (Sample.world (ConfigObject true true) Sample.tagged)))) /\
    Ledger.email_id row = "m1" /\
    Ledger.status row = processed.
Proof.
  destruct (mark_read_follows_processed_row Sample.env_ok "/srv/uploads"
              (Sample.world (ConfigObject true true) Sample.tagged)
              (final (processEmails Sample.env_ok "/srv/uploads"
                        (Sample.world (ConfigObject true true) Sample.tagged)))
              "m1") as (H1 & H2 & _).
  - left. reflexivity.
  - vm_compute. repeat (try (left; reflexivity); right).
  - simpl. intros [].
  - split; [exact H1|exact H2].
Defined.

(** ** No row without its record *)

Lemma adds_refl (rid mid : nat) (w : World) : adds rid mid w w.
Proof.
  split; [reflexivity| | | |]; exists []; (split; [symmetry; apply app_nil_r|constructor]).
Qed.

Lemma adds_trans (rid mid : nat) (w1 w2 w3 : World) :
  adds rid mid w1 w2 -> adds rid mid w2 w3 -> adds rid mid w1 w3.
Proof.
  intros [A1 (h1 & A2 & A2') (l1 & A3 & A3') (i1 & A4 & A4') (d1 & A5 & A5')]
         [B1 (h2 & B2 & B2') (l2 & B3 & B3') (i2 & B4 & B4') (d2 & B5 & B5')].
  split.
  - congruence.
  - exists (h1 ++ h2). split; [rewrite B2, A2, app_assoc; reflexivity|].
    apply Forall_app. split; assumption.
  - exists (l1 ++ l2). split; [rewrite B3, A3, app_assoc; reflexivity|].
    apply Forall_app. split; assumption.
  - exists (i1 ++ i2). split; [rewrite B4, A4, app_assoc; reflexivity|].
    apply Forall_app. split; assumption.
  - exists (d1 ++ d2). split; [rewrite B5, A5, app_assoc; reflexivity|].
    apply Forall_app. split; assumption.
Qed.

(** States with the same records and the same four tables. *)
Lemma adds_same (rid mid : nat) (w w' : World) :
  module_records w' = module_records w ->
  record_history w' = record_history w ->
  record_links w' = record_links w ->
  record_images w' = record_images w ->
  record_documents w' = record_documents w ->
  adds rid mid w w'.
Proof.
  intros H1 H2 H3 H4 H5.
  split; [exact H1| | | |]; exists [];
    (split; [rewrite app_nil_r; assumption|constructor]).
Qed.

Lemma adds_history_entry (rid mid : nat) (h : History.t) (w : World) :
  History.record_id h = rid -> History.module_id h = mid ->
  adds rid mid w (with_history h w).
Proof.
  intros H1 H2. split; [reflexivity| | | |].
  - exists [h]. split; [reflexivity|]. constructor; [split; assumption|constructor].
  - exists []. split; [symmetry; apply app_nil_r|constructor].
  - exists []. split; [symmetry; apply app_nil_r|constructor].
  - exists []. split; [symmetry; apply app_nil_r|constructor].
Qed.

Lemma adds_links_rows (rid mid : nat) (rows : list LinkRow.t) (w : World) :
  Forall (link_row_ok rid mid) rows ->
  adds rid mid w (set_links (record_links w ++ rows) w).
Proof.
  intros H. split; [reflexivity| | | |].
  - exists []. split; [symmetry; apply app_nil_r|constructor].
  - exists rows. split; [reflexivity|].
    revert H. apply Forall_impl. intros l (H1 & H2 & _). split; assumption.
  - exists []. split; [symmetry; apply app_nil_r|constructor].
  - exists []. split; [symmetry; apply app_nil_r|constructor].
Qed.

Lemma adds_attachments (rid mid : nat) (userEmail : string)
      (imgs : list ImageRow.t) (docs : list DocumentRow.t)
      (fs : list string) (cs : list Call) (w : World) :
  Forall (image_row_ok rid mid userEmail fs) imgs ->
  Forall (document_row_ok rid mid userEmail fs) docs ->
  adds rid mid w (with_attachments imgs docs fs cs w).
Proof.
  intros Hi Hd. split; [reflexivity| | | |].
  - exists []. split; [symmetry; apply app_nil_r|constructor].
  - exists []. split; [symmetry; apply app_nil_r|constructor].
  - exists imgs. split; [reflexivity|].
    revert Hi. apply Forall_impl. intros l (H1 & H2 & _). split; assumption.
  - exists docs. split; [reflexivity|].
    revert Hd. apply Forall_impl. intros l (H1 & H2 & _). split; assumption.
Qed.

(** Whatever way [create_record] ends, either nothing was written, or the
    record was, and every row written after it to the four tables is for
    that record and its module. *)
Lemma create_record_adds (v : Variant) (env : Env) (uploadsDir : string)
      (email : Email.t) (module : ModuleRow.t) (cleanSubject : string) (w : World) :
  final (create_record v env uploadsDir email module cleanSubject w) = w \/
  adds (S (module_records_seq w)) (ModuleRow.id module)
       (with_record v email module cleanSubject w)
       (final (create_record v env uploadsDir email module cleanSubject w)).
Proof.
  unfold create_record. cbv zeta.
  set (me := msg_env env (Email.id email)).
  set (mid := ModuleRow.id module).
  set (rid := S (module_records_seq w)).
  set (w1 := with_record v email module cleanSubject w).
  set (w2 := with_ledger_row (processed_row email mid rid) w1).
  destruct (record_insert_ok me) eqn:Hrec.
  2:{ rewrite (bind_exn_eq _ _ w w) by reflexivity. left. reflexivity. }
  right.
  rewrite (bind_ret_eq _ _ w w1 rid) by reflexivity.
  destruct (ledger_insert_ok me && negb (ledgered (Email.id email) w)) eqn:Hled.
  2:{ rewrite (bind_exn_eq _ _ w1 w1).
      - apply adds_refl.
      - unfold insert_processed_email.
        change (ledgered (Ledger.email_id (processed_row email mid rid)) w1)
          with (ledgered (Email.id email) w).
        rewrite Hled. reflexivity. }
  rewrite (bind_ret_eq _ _ w1 w2 tt)
    by (unfold insert_processed_email;
        change (ledgered (Ledger.email_id (processed_row email mid rid)) w1)
          with (ledgered (Email.id email) w);
        rewrite Hled; reflexivity).
  assert (A2 : adds rid mid w1 w2) by (apply adds_same; reflexivity).
  assert (Hatt : exists counts w3,
             (if Js.truthy uploadsDir
              then saveAttachments me (Email.id email) rid mid (Email.fromAddress email)
              else ret (0, 0)) w2 = Ret counts w3 /\
             adds rid mid w1 w3).
  { destruct (Js.truthy uploadsDir).
    - destruct (saveAttachments_shape me (Email.id email) rid mid
                  (Email.fromAddress email) w2)
        as (imgs & docs & fs & cs & E & _ & _ & Hi & Hd & _).
      eexists _, _. split; [exact E|].
      eapply adds_trans; [exact A2|]. eapply adds_attachments; eassumption.
    - exists (0, 0), w2. split; [reflexivity|exact A2]. }
  destruct Hatt as ([i d] & w3 & Eatt & A3).
  rewrite (bind_ret_eq _ _ _ _ _ Eatt).
  destruct (save_links_shape v env me rid mid (Email.body email) w3)
    as (rows & Elinks & _ & Hrows & _).
  rewrite (bind_ret_eq _ _ _ _ _ Elinks).
  set (k := List.length rows).
  set (w4 := set_links (record_links w3 ++ rows) w3).
  assert (A4 : adds rid mid w1 w4).
  { eapply adds_trans; [exact A3|]. apply adds_links_rows, Hrows. }
  simpl fst. simpl snd.
  destruct (history_insert_ok me) eqn:Hhist.
  2:{ rewrite (bind_exn_eq _ _ w4 w4) by reflexivity. exact A4. }
  rewrite (bind_ret_eq _ _ w4 (with_history (created_entry v email mid rid i d k) w4) tt)
    by reflexivity.
  set (w5 := announced v email module cleanSubject rid i d k w4).
  assert (A5 : adds rid mid w1 w5).
  { eapply adds_trans; [exact A4|].
    eapply adds_trans; [apply (adds_history_entry rid mid (created_entry v email mid rid i d k));
                        reflexivity|].
    apply adds_same; reflexivity. }
  rewrite (bind_ret_eq _ _ _ w5 (auto_response_ok me)) by reflexivity.
  assert (Hread : forall wa, adds rid mid w1 wa ->
             adds rid mid w1
               (final ((markEmailAsRead (mark_read_ok me) (Email.id email) ;;;
                        ret (rid, (i, d), k)) wa))).
  { intros wa Ha. rewrite final_bind_pure by reflexivity.
    rewrite markEmailAsRead_final. cbv zeta.
    eapply adds_trans; [exact Ha|].
    destruct (mark_read_ok me); apply adds_same; reflexivity. }
  destruct (auto_response_ok me) eqn:Hsend.
  - destruct (sent_history_insert_ok me) eqn:Hsent.
    + rewrite (bind_ret_eq _ _ w5 (with_history (sent_entry email mid rid) w5) tt)
        by reflexivity.
      apply Hread. eapply adds_trans; [exact A5|].
      apply adds_history_entry; reflexivity.
    + rewrite (bind_exn_eq _ _ w5 w5) by reflexivity. exact A5.
  - rewrite (bind_ret_eq _ _ w5 w5 tt) by reflexivity.
    apply Hread, A5.
Qed.

Lemma has_record_more (w w' : World) (recs : list RecordRow.t) (rid mid : nat) :
  module_records w' = module_records w ++ recs ->
  has_record w rid mid -> has_record w' rid mid.
Proof.
  intros E (rec & Hin & H1 & H2). exists rec. split; [|split; assumption].
  rewrite E. apply in_or_app. left. exact Hin.
Qed.

Lemma no_orphans_refl (w : World) : no_orphans w w.
Proof.
  split; exists []; try (split; [|constructor]); symmetry; apply app_nil_r.
Qed.

Lemma no_orphans_trans (w1 w2 w3 : World) :
  no_orphans w1 w2 -> no_orphans w2 w3 -> no_orphans w1 w3.
Proof.
  intros [(r1 & A1) (h1 & A2 & A2') (l1 & A3 & A3') (i1 & A4 & A4') (d1 & A5 & A5')]
         [(r2 & B1) (h2 & B2 & B2') (l2 & B3 & B3') (i2 & B4 & B4') (d2 & B5 & B5')].
  split.
  - exists (r1 ++ r2). rewrite B1, A1, app_assoc. reflexivity.
  - exists (h1 ++ h2). split; [rewrite B2, A2, app_assoc; reflexivity|].
    apply Forall_app. split; [|assumption].
    revert A2'. apply Forall_impl. intros h. apply (has_record_more w2 w3 r2), B1.
  - exists (l1 ++ l2). split; [rewrite B3, A3, app_assoc; reflexivity|].
    apply Forall_app. split; [|assumption].
    revert A3'. apply Forall_impl. intros h. apply (has_record_more w2 w3 r2), B1.
  - exists (i1 ++ i2). split; [rewrite B4, A4, app_assoc; reflexivity|].
    apply Forall_app. split; [|assumption].
    revert A4'. apply Forall_impl. intros h. apply (has_record_more w2 w3 r2), B1.
  - exists (d1 ++ d2). split; [rewrite B5, A5, app_assoc; reflexivity|].
    apply Forall_app. split; [|assumption].
    revert A5'. apply Forall_impl. intros h. apply (has_record_more w2 w3 r2), B1.
Qed.

Lemma no_orphans_same (w w' : World) :
  module_records w' = module_records w ->
  record_history w' = record_history w ->
  record_links w' = record_links w ->
  record_images w' = record_images w ->
  record_documents w' = record_documents w ->
  no_orphans w w'.
Proof.
  intros H1 H2 H3 H4 H5.
  split; exists []; try (split; [|constructor]); rewrite app_nil_r; assumption.
Qed.

Lemma no_orphans_created (v : Variant) (email : Email.t) (module : ModuleRow.t)
      (cleanSubject : string) (w w' : World) :
  adds (S (module_records_seq w)) (ModuleRow.id module)
       (with_record v email module cleanSubject w) w' ->
  no_orphans w w'.
Proof.
  intros [A1 (hs & A2 & A2') (ls & A3 & A3') (imgs & A4 & A4') (ds & A5 & A5')].
  assert (Hrec : has_record w' (S (module_records_seq w)) (ModuleRow.id module)).
  { exists (new_record v email module cleanSubject w).
    split; [|split; reflexivity].
    rewrite A1. simpl. apply in_or_app. right. left. reflexivity. }
  split.
  - exists [new_record v email module cleanSubject w]. rewrite A1. reflexivity.
  - exists hs. split; [exact A2|]. revert A2'. apply Forall_impl.
    intros h [-> ->]. exact Hrec.
  - exists ls. split; [exact A3|]. revert A3'. apply Forall_impl.
    intros h [-> ->]. exact Hrec.
  - exists imgs. split; [exact A4|]. revert A4'. apply Forall_impl.
    intros h [-> ->]. exact Hrec.
  - exists ds. split; [exact A5|]. revert A5'. apply Forall_impl.
    intros h [-> ->]. exact Hrec.
Qed.

(** X12: none of the three passes leaves a row without its record: a
    pass only adds rows to [module_records], [record_history],
    [record_links], [record_images] and [record_documents], and every row
    it adds to one of the last four names a record, with its module, that
    is in [module_records] when the pass ends, however the pass ends. *)
Theorem passes_leave_no_orphans (env : Env) (uploadsDir : string) (w w' : World) :
  pass_result env uploadsDir w w' -> no_orphans w w'.
Proof.
  assert (Hcall : forall c w1, is_mark_read c = false -> no_orphans w1 (log_call c w1))
    by (intros; apply no_orphans_same; reflexivity).
  assert (Hp : forall b w1, no_orphans w1 (set_isProcessing b w1))
    by (intros; apply no_orphans_same; reflexivity).
  assert (Hd : forall b w1, no_orphans w1 (set_debugLogging b w1))
    by (intros; apply no_orphans_same; reflexivity).
  assert (Hv : forall email moduleId st message w1,
             st <> processed -> ledgered (Email.id email) w1 = false ->
             no_orphans w1 (with_ledger_row (verdict_row email moduleId st message) w1))
    by (intros; apply no_orphans_same; reflexivity).
  assert (Hc : forall v email module cleanSubject w1,
             ledgered (Email.id email) w1 = false ->
             no_orphans w1
               (final (create_record v env uploadsDir email module cleanSubject w1))).
  { intros v email module cleanSubject w1 _.
    destruct (create_record_adds v env uploadsDir email module cleanSubject w1) as [->|H].
    - apply no_orphans_refl.
    - eapply no_orphans_created. exact H. }
  intros [->|[->|(emailId & bodyModuleName & userEmail & ->)]].
  - apply processEmails_closed;
      first [assumption|exact no_orphans_refl|exact no_orphans_trans].
  - apply post_process_closed;
      first [assumption|exact no_orphans_refl|exact no_orphans_trans].
  - apply post_process_single_closed;
      first [assumption|exact no_orphans_refl|exact no_orphans_trans].
Qed.

Lemma passes_leave_no_orphans_witness :
  no_orphans (Sample.world (ConfigObject true true) Sample.tagged)
    (final (post_process Sample.env_photo "/srv/uploads"
              (Sample.world (ConfigObject true true) Sample.tagged))).
Proof.
  apply (passes_leave_no_orphans Sample.env_photo "/srv/uploads").
  right. left. reflexivity.
Defined.

(** ** One failing message does not stop the scheduled pass *)

(** What [create_record] does when the statements for the message succeed. *)
Lemma create_record_done (v : Variant) (env : Env) (uploadsDir : string)
      (email : Email.t) (module : ModuleRow.t) (cleanSubject : string) (w : World) :
  ledgered (Email.id email) w = false ->
  statements_ok (msg_env env (Email.id email)) ->
  exists r w',
    create_record v env uploadsDir email module cleanSubject w = Ret r w' /\
    turned_into_record email module w'.
Proof.
  intros Hfresh (O1 & O2 & O3 & O4).
  pose proof (create_record_creation v env uploadsDir email module cleanSubject w) as Hc.
  destruct (create_record v env uploadsDir email module cleanSubject w) as [r w'|w'] eqn:E.
  2:{ exfalso.
      inversion Hc as [H1|H1 H2|i d k w3 H1 H2 H3 Hg H4
                       |i d k w3 H1 H2 H3 Hg H4 H5 H6|]; subst; try congruence.
      rewrite O2, Hfresh in H2. discriminate. }
  exists r, w'. split; [reflexivity|].
  destruct (creation_returns _ _ _ _ _ _ _ _ Hc) as (_ & Hrid & Hrows).
  exists (fst (fst r)). split; [|split].
  - apply (rows_for_appended (processed_row email (ModuleRow.id module) (fst (fst r))) w);
      assumption.
  - exists (new_record v email module cleanSubject w).
    split; [|split; [rewrite Hrid; reflexivity|reflexivity]].
    unfold records_for. apply filter_In. split; [|apply String.eqb_refl].
    change w' with (final (Ret r w')).
    eapply creation_keeps_record; [exact Hc|exact O1].
  - inversion Hc as [| | | |i d k w3 H1 H2 H3 Hg H4 H5]; subst.
    unfold read_requests. apply filter_In. split; [|apply String.eqb_refl].
    assert (Hm : In (MarkRead (Email.id email))
                    (mark_reads (completed v env email module cleanSubject
                                   (S (module_records_seq w)) i d k w3))).
    { rewrite mark_reads_completed. apply in_or_app. right. left. reflexivity. }
    unfold mark_reads in Hm. apply filter_In in Hm. apply Hm.
Qed.

Lemma process_message_auto_returns (env : Env) (uploadsDir : string)
      (mods : list ModuleRow.t) (email : Email.t) (w : World) :
  existing_query_ok (msg_env env (Email.id email)) = true ->
  exists w', process_message_auto env uploadsDir mods email w = Ret tt w'.
Proof.
  intros Hq. unfold process_message_auto. cbv zeta.
  unfold bind at 1. unfold get_existing. rewrite Hq.
  destruct (ledgered (Email.id email) w); [eexists; reflexivity|].
  destruct (named _) as [name|]; [|eexists; reflexivity].
  destruct (find_auto_module mods name) as [module|]; [|eexists; reflexivity].
  unfold try_catch, bind, ret.
  destruct (create_record _ _ _ _ _ _ _) as [r w1|w1]; eexists; reflexivity.
Qed.

Lemma turned_into_record_untouched (k : Kind) (env : Env) (T : string -> Prop)
      (email : Email.t) (module : ModuleRow.t) (w w' : World) :
  steps k env T w w' -> ~ T (Email.id email) ->
  turned_into_record email module w -> turned_into_record email module w'.
Proof.
  intros Hs Hno (rid & H1 & H2 & H3).
  destruct (steps_untouched _ _ _ _ _ (Email.id email) Hs Hno) as (U1 & U2 & _ & U4).
  exists rid. rewrite U1, U2, U4. repeat split; assumption.
Qed.

(** The loop of the scheduled pass over a batch with distinct ids, in which
    every ledger lookup succeeds. *)
Lemma auto_loop_processes (env : Env) (uploadsDir : string)
      (mods : list ModuleRow.t) (email : Email.t) (module : ModuleRow.t) :
  statements_ok (msg_env env (Email.id email)) ->
  forall (batch : list Email.t) (w : World),
    mods = filter auto_enabled (filter ModuleRow.is_active (modules w)) ->
    (forall x, In x batch -> In (Email.id x, Email.subject x) (keys w)) ->
    (forall x, In x batch -> existing_query_ok (msg_env env (Email.id x)) = true) ->
    NoDup (List.map Email.id batch) ->
    In email batch ->
    ledgered (Email.id email) w = false ->
    auto_route (modules w) (Email.subject email) = Some module ->
    turned_into_record email module
      (final (for_each batch (process_message_auto env uploadsDir mods) w)).
Proof.
  intros Hok. induction batch as [|x rest IH];
    intros w Hmods Hkeys Hq Hnd Hin Hfresh Hroute; [contradiction|].
  simpl in Hnd. inversion Hnd as [|? ? Hx Hrest]; subst x0 l.
  simpl for_each. rewrite final_bind.
  assert (Hsteps : forall w1,
             modules w1 = modules w -> keys w1 = keys w ->
             steps KAuto env (ids_of rest) w1
               (final (for_each rest (process_message_auto env uploadsDir mods) w1))).
  { intros w1 Hm Hk. apply for_each_steps. intros y w2 Hy H2.
    destruct (steps_frame _ _ _ _ _ H2) as [Hm2 Hk2].
    eapply steps_weaken; [|apply process_message_auto_steps].
    - intros i [-> _]. unfold ids_of. apply in_map, Hy.
    - rewrite Hm2, Hm. exact Hmods.
    - rewrite Hk2, Hk. apply Hkeys. right. exact Hy. }
  pose proof (process_message_auto_steps env uploadsDir mods x w Hmods
                (Hkeys x (or_introl eq_refl))) as Sx.
  destruct Hin as [->|Hin].
  - (* the message itself *)
    assert (E : exists w1,
               process_message_auto env uploadsDir mods email w = Ret tt w1 /\
               turned_into_record email module w1).
    { unfold process_message_auto. cbv zeta.
      unfold bind at 1. unfold get_existing.
      rewrite (Hq email (or_introl eq_refl)), Hfresh.
      unfold auto_route in Hroute.
      destruct (named _) as [name|]; [|discriminate].
      rewrite <- Hmods in Hroute. rewrite Hroute.
      destruct (create_record_done Automatic env uploadsDir email module
                  (cleanSubject (parseModuleTagFromSubject (Email.subject email)))
                  w Hfresh Hok) as (r & w1 & E1 & T1).
      exists w1. unfold try_catch, bind, ret. rewrite E1. split; [reflexivity|exact T1]. }
    destruct E as (w1 & E1 & T1). rewrite E1 in Sx |- *. simpl in Sx.
    destruct (steps_frame _ _ _ _ _ Sx) as [Hm Hk].
    eapply turned_into_record_untouched; [apply Hsteps; assumption|exact Hx|exact T1].
  - (* a message before it *)
    assert (Hne : Email.id x <> Email.id email).
    { intros Heq. apply Hx. rewrite Heq. apply in_map, Hin. }
    destruct (process_message_auto_returns env uploadsDir mods x w
                (Hq x (or_introl eq_refl))) as (w1 & E1).
    rewrite E1 in Sx |- *. simpl in Sx.
    destruct (steps_frame _ _ _ _ _ Sx) as [Hm Hk].
    destruct (steps_untouched _ _ _ _ _ (Email.id email) Sx) as (U1 & _).
    { intros [Heq _]. apply Hne. symmetry. exact Heq. }
    apply IH.
    + rewrite Hm. exact Hmods.
    + intros y Hy. rewrite Hk. apply Hkeys. right. exact Hy.
    + intros y Hy. apply Hq. right. exact Hy.
    + exact Hrest.
    + exact Hin.
    + apply ledgered_false_rows. rewrite U1. apply ledgered_false_rows, Hfresh.
    + rewrite Hm. exact Hroute.
Qed.

Lemma auto_route_some_module (mods : list ModuleRow.t) (subject : string)
      (module : ModuleRow.t) :
  auto_route mods subject = Some module ->
  (List.length (filter auto_enabled (filter ModuleRow.is_active mods)) =? 0) = false.
Proof.
  unfold auto_route, find_auto_module. destruct (named _); [|discriminate].
  destruct (filter auto_enabled (filter ModuleRow.is_active mods)); [discriminate|].
  reflexivity.
Qed.

(** X13: one failing message does not stop the scheduled pass.  Let the
    ids of the mailbox be distinct and let the ledger lookups of the
    batch succeed.  A message of the batch without ledger row, whose
    subject routes to a module and whose own statements succeed, is
    turned into a record by the pass (one 'processed' ledger row naming a
    record created for it in that module, [markEmailAsRead] called),
    whatever fails for the other messages and whether or not the mail
    service delivers the reply or marks the message read. *)
Theorem scheduled_pass_isolates_failures (env : Env) (uploadsDir : string) (w : World)
        (email : Email.t) (module : ModuleRow.t) :
  NoDup (List.map Email.id (mailbox w)) ->
  isProcessing w = false ->
  modules_query_ok env = true ->
  fetch_ok env = true ->
  (forall x, In x (listed 50 true (mailbox w)) ->
             existing_query_ok (msg_env env (Email.id x)) = true) ->
  In email (listed 50 true (mailbox w)) ->
  ledgered (Email.id email) w = false ->
  auto_route (modules w) (Email.subject email) = Some module ->
  statements_ok (msg_env env (Email.id email)) ->
  turned_into_record email module (final (processEmails env uploadsDir w)).
Proof.
  intros Hids Hbusy Hmq Hfetch Hq Hin Hfresh Hroute Hok.
  unfold processEmails. rewrite final_bind. unfold loadDebugSetting.
  match goal with
  | |- turned_into_record _ _ (final (bind _ _ (set_debugLogging ?b w))) => set (dbg := b)
  end.
  unfold bind at 1. unfold read.
  change (isProcessing (set_debugLogging dbg w)) with (isProcessing w).
  rewrite Hbusy. unfold bind at 1. unfold modify.
  set (w1 := set_isProcessing true (set_debugLogging dbg w)).
  unfold try_catch_finally.
  match goal with
  | |- turned_into_record _ _ (final match try_catch ?body ?h w1 with _ => _ end) =>
      assert (H : turned_into_record email module (final (try_catch body h w1)));
      [|destruct (try_catch body h w1); exact H]
  end.
  rewrite final_try_catch.
  match goal with
  | |- turned_into_record _ _ match ?body w1 with _ => _ end =>
      assert (H : turned_into_record email module (final (body w1)));
      [|destruct (body w1); exact H]
  end.
  rewrite final_bind. unfold all_active_modules. rewrite Hmq.
  change (modules w1) with (modules w).
  rewrite (auto_route_some_module _ _ _ Hroute).
  rewrite final_bind. unfold fetchInboxEmails. rewrite Hfetch.
  change (mailbox w1) with (mailbox w).
  apply auto_loop_processes; try assumption.
  - reflexivity.
  - intros x Hx. eapply fetched_keys. exact Hx.
  - apply listed_ids_distinct, Hids.
Qed.

Lemma scheduled_pass_isolates_failures_witness :
  record_insert_ok (msg_env Sample2.env_first_fails "m1") = false /\
  rows_for "m1" (final (processEmails Sample2.env_first_fails "/srv/uploads"
                          Sample2.world)) = [] /\
  turned_into_record Sample2.second (Sample.support (ConfigObject true true))
    (final (processEmails Sample2.env_first_fails "/srv/uploads" Sample2.world)).
Proof.
  split; [reflexivity|]. split; [vm_compute; reflexivity|].
  apply (scheduled_pass_isolates_failures Sample2.env_first_fails "/srv/uploads"
           Sample2.world Sample2.second (Sample.support (ConfigObject true true))).
  - simpl. repeat constructor; simpl; intuition discriminate.
  - reflexivity.
  - reflexivity.
  - reflexivity.
  - intros x _. simpl. destruct (String.eqb (Email.id x) "m1"); reflexivity.
  - simpl. right. left. reflexivity.
  - reflexivity.
  - vm_compute. reflexivity.
  - repeat split; reflexivity.
Defined.

(** ** One failing message stops POST /process *)

Lemma for_fold_app {B S} (l1 l2 : list B) (body : S -> B -> M S) (acc : S) (w : World) :
  for_fold (l1 ++ l2) body acc w =
  match for_fold l1 body acc w with
  | Ret acc' w' => for_fold l2 body acc' w'
  | Exn w' => Exn w'
  end.
Proof.
  revert acc w. induction l1 as [|x l1 IH]; intros acc w; simpl; [reflexivity|].
  unfold bind. destruct (body acc x w) as [acc1 w1|w1]; [apply IH|reflexivity].
Qed.

(** [POST /process] on a message without ledger row whose subject routes
    to a module, when the INSERT of the record fails. *)
Lemma process_message_throws (env : Env) (uploadsDir : string) (summary : Summary)
      (email : Email.t) (module : ModuleRow.t) (w : World) :
  ledgered (Email.id email) w = false ->
  bulk_route (modules w) (Email.subject email) = Some module ->
  record_insert_ok (msg_env env (Email.id email)) = false ->
  exists w', process_message env uploadsDir summary email w = Exn w'.
Proof.
  intros Hfresh Hroute Hrec. unfold process_message. cbv zeta.
  unfold bind at 1. unfold get_existing.
  destruct (existing_query_ok (msg_env env (Email.id email))); [|eexists; reflexivity].
  rewrite Hfresh. unfold bulk_route in Hroute.
  destruct (named _) as [name|]; [|discriminate].
  unfold bind at 1. unfold get_module.
  destruct (module_query_ok (msg_env env (Email.id email))); [|eexists; reflexivity].
  destruct (find _ (modules w)) as [m|]; [|discriminate].
  destruct (inbox_enabled m); [|discriminate]. cbn [negb].
  pose proof (create_record_creation Bulk env uploadsDir email m
                (cleanSubject (parseModuleTagFromSubject (Email.subject email))) w) as Hc.
  destruct (create_record Bulk env uploadsDir email m
              (cleanSubject (parseModuleTagFromSubject (Email.subject email))) w)
    as [r w1|w1] eqn:E.
  - inversion Hc; congruence.
  - exists w1. unfold bind. rewrite E. reflexivity.
Qed.

(** X14: one failing message stops [POST /process].  Let the ids of the
    mailbox be distinct, and let the batch hold a message without ledger
    row whose subject routes to a module and for which the INSERT of the
    record fails.  The handler then answers with status 500, and every
    message listed after that one is left as it was: no ledger row, no
    record, no change in the mailbox and no call of [markEmailAsRead]
    for it, although nothing is wrong with it. *)
Theorem bulk_pass_stops_at_failure (env : Env) (uploadsDir : string) (w : World)
        (pre post : list Email.t) (email : Email.t) (module : ModuleRow.t) :
  NoDup (List.map Email.id (mailbox w)) ->
  fetch_ok env = true ->
  listed 50 true (mailbox w) = pre ++ email :: post ->
  ledgered (Email.id email) w = false ->
  bulk_route (modules w) (Email.subject email) = Some module ->
  record_insert_ok (msg_env env (Email.id email)) = false ->
  exists w',
    post_process env uploadsDir w = Ret (Failed 500 "Failed to process emails") w' /\
    forall y, In y post ->
      rows_for (Email.id y) w' = rows_for (Email.id y) w /\
      records_for (Email.id y) w' = records_for (Email.id y) w /\
      in_mailbox (Email.id y) w' = in_mailbox (Email.id y) w /\
      read_requests (Email.id y) w' = read_requests (Email.id y) w.
Proof.
  intros Hids Hfetch Hbatch Hfresh Hroute Hrec.
  pose proof (listed_ids_distinct 50 true (mailbox w) Hids) as Hnd.
  rewrite Hbatch in Hnd.
  set (w0 := log_call (ListMessages 50 true) w).
  assert (Hkeys : forall x, In x (pre ++ [email]) ->
                            In (Email.id x, Email.subject x) (keys w0)).
  { intros x Hx. change (keys w0) with (keys w). apply (fetched_keys 50 true).
    rewrite Hbatch. apply in_app_or in Hx. apply in_or_app.
    destruct Hx as [Hx|[<-|[]]]; [left; exact Hx|right; left; reflexivity]. }
  assert (Hpre : forall x, In x pre -> In (Email.id x, Email.subject x) (keys w0)).
  { intros x Hx. apply Hkeys. apply in_or_app. left. exact Hx. }
  (* the loop ends by throwing at the message, or before it *)
  assert (Hexn : exists w',
             for_fold (pre ++ email :: post) (process_message env uploadsDir)
                      no_summary w0 = Exn w' /\
             w' = final (for_fold (pre ++ [email]) (process_message env uploadsDir)
                                  no_summary w0)).
  { change (email :: post) with ([email] ++ post).
    rewrite app_assoc, (for_fold_app (pre ++ [email]) post).
    rewrite (for_fold_app pre [email]).
    pose proof (bulk_loop_steps env uploadsDir pre no_summary w0 Hpre) as Spre.
    destruct (for_fold pre (process_message env uploadsDir) no_summary w0)
      as [acc1 w1|w1]; [|eexists; split; reflexivity].
    simpl in Spre.
    destruct (steps_frame _ _ _ _ _ Spre) as [Hm _].
    destruct (steps_untouched _ _ _ _ _ (Email.id email) Spre) as (U1 & _).
    { unfold ids_of. rewrite map_app in Hnd. simpl in Hnd.
      apply NoDup_remove_2 in Hnd. intros Hin. apply Hnd.
      apply in_or_app. left. exact Hin. }
    assert (Hfresh1 : ledgered (Email.id email) w1 = false).
    { apply ledgered_false_rows. rewrite U1. apply ledgered_false_rows. exact Hfresh. }
    destruct (process_message_throws env uploadsDir acc1 email module w1 Hfresh1)
      as (w2 & E2); [rewrite Hm; exact Hroute|exact Hrec|].
    simpl for_fold. unfold bind. rewrite E2. eexists; split; reflexivity. }
  destruct Hexn as (w' & Eloop & Ew').
  exists w'. split.
  - unfold post_process, try_catch, bind at 1, fetchInboxEmails. rewrite Hfetch.
    fold w0. rewrite Hbatch. unfold bind. rewrite Eloop. reflexivity.
  - intros y Hy.
    assert (Hs : steps KBulk env (ids_of (pre ++ [email])) w w').
    { eapply steps_trans; [apply (steps_log_call _ _ _ (ListMessages 50 true)); reflexivity|].
      rewrite Ew'. apply bulk_loop_steps. exact Hkeys. }
    apply (steps_untouched _ _ _ _ _ (Email.id y) Hs).
    unfold ids_of. intros Hin.
    replace (pre ++ email :: post) with ((pre ++ [email]) ++ post) in Hnd
      by (rewrite <- app_assoc; reflexivity).
    apply in_split in Hy. destruct Hy as (p1 & p2 & ->).
    rewrite (map_app Email.id (pre ++ [email])), (map_app Email.id p1) in Hnd.
    cbn [List.map] in Hnd. rewrite app_assoc in Hnd.
    apply NoDup_remove_2 in Hnd. apply Hnd.
    apply in_or_app. left. apply in_or_app. left. exact Hin.
Qed.

Lemma bulk_pass_stops_at_failure_witness :
  exists w',
    post_process Sample2.env_first_fails "/srv/uploads" Sample2.world
    = Ret (Failed 500 "Failed to process emails") w' /\
    rows_for "m2" w' = [] /\ records_for "m2" w' = [] /\
    read_requests "m2" w' = [].
Proof.
  destruct (bulk_pass_stops_at_failure Sample2.env_first_fails "/srv/uploads"
              Sample2.world [] [Sample2.second] Sample2.first
              (Sample.support (ConfigObject true true)))
    as (w' & E & H).
  - simpl. repeat constructor; simpl; intuition discriminate.
  - reflexivity.
  - reflexivity.
  - reflexivity.
  - vm_compute. reflexivity.
  - reflexivity.
  - exists w'. split; [exact E|].
    destruct (H Sample2.second (or_introl eq_refl)) as (H1 & H2 & _ & H4).
    split; [exact H1|]. split; [exact H2|exact H4].
Defined.

(* ================================================================== *)
(** * The timer of the scheduled pass *)
(* ================================================================== *)

(** At most one timer is alive, and it is the one [processorInterval]
    holds. *)
Lemma stop_clears (s : Scheduler.t) :
  (forall h d, In (h, d) (Scheduler.timers s) -> Scheduler.processorInterval s = Some h) ->
  Scheduler.timers (stopEmailProcessor s) = [] /\
  Scheduler.processorInterval (stopEmailProcessor s) = None.
Proof.
  intros Hown. unfold stopEmailProcessor.
  destruct (Scheduler.processorInterval s) as [h|] eqn:E; simpl.
  - split; [|reflexivity].
    assert (G : forall l : list (nat * Z), (forall t, In t l -> fst t = h) ->
                          filter (fun t => negb (fst t =? h)) l = []).
    { induction l as [|t l IH]; intros Hl; [reflexivity|]. simpl.
      rewrite (Hl t (or_introl eq_refl)), Nat.eqb_refl. simpl.
      apply IH. intros t' Ht'. apply Hl. right. exact Ht'. }
    apply G. intros [h' d] Hin. simpl.
    specialize (Hown h' d Hin). congruence.
  - split; [|exact E].
    destruct (Scheduler.timers s) as [|[h d] l]; [reflexivity|].
    specialize (Hown h d (or_introl eq_refl)). discriminate.
Qed.

Lemma start_result (env : Env) (m : option Z) (s : Scheduler.t) (w : World) :
  exists w',
    startEmailProcessor env m s w =
      Ret (match asked_delay (Start m) with
           | Some d =>
               let s0 := stopEmailProcessor s in
               {| Scheduler.processorInterval := Some (Scheduler.next_handle s0);
                  Scheduler.timers :=
                    Scheduler.timers s0 ++ [(Scheduler.next_handle s0, d)];
                  Scheduler.next_handle := S (Scheduler.next_handle s0);
                  Scheduler.started := S (Scheduler.started s0) |}
           | None => stopEmailProcessor s
           end) w' /\
    final (loadDebugSetting env w) = w'.
Proof.
  unfold startEmailProcessor. cbv zeta. unfold bind, loadDebugSetting.
  eexists. split; [|reflexivity]. simpl final.
  destruct m as [minutes|]; simpl asked_delay; [|reflexivity].
  destruct (minutes <=? 0)%Z; [reflexivity|]. unfold ret. cbv zeta.
  replace (minutes * 60 * 1000)%Z with (minutes * 60000)%Z by lia. reflexivity.
Qed.

(** What one call leaves, when at most the timer of [processorInterval]
    was alive before. *)
Lemma run_op_result (env : Env) (op : Op) (s : Scheduler.t) (w : World) :
  (forall h d, In (h, d) (Scheduler.timers s) -> Scheduler.processorInterval s = Some h) ->
  exists s' w',
    run_op env op s w = Ret s' w' /\
    match asked_delay op with
    | Some d =>
        Scheduler.processorInterval s' = Some (Scheduler.next_handle s) /\
        Scheduler.timers s' = [(Scheduler.next_handle s, d)] /\
        Scheduler.started s' = S (Scheduler.started s) /\
        Scheduler.next_handle s' = S (Scheduler.next_handle s)
    | None =>
        Scheduler.processorInterval s' = None /\
        Scheduler.timers s' = [] /\
        Scheduler.started s' = Scheduler.started s /\
        Scheduler.next_handle s' = Scheduler.next_handle s
    end.
Proof.
  intros Hown. destruct (stop_clears s Hown) as [Ht Hp].
  assert (Hn : Scheduler.next_handle (stopEmailProcessor s) = Scheduler.next_handle s /\
               Scheduler.started (stopEmailProcessor s) = Scheduler.started s).
  { unfold stopEmailProcessor. destruct (Scheduler.processorInterval s); split; reflexivity. }
  destruct Hn as [Hn Hs].
  assert (Hstart : forall m w0,
             exists s' w',
               startEmailProcessor env m s w0 = Ret s' w' /\
               match asked_delay (Start m) with
               | Some d =>
                   Scheduler.processorInterval s' = Some (Scheduler.next_handle s) /\
                   Scheduler.timers s' = [(Scheduler.next_handle s, d)] /\
                   Scheduler.started s' = S (Scheduler.started s) /\
                   Scheduler.next_handle s' = S (Scheduler.next_handle s)
               | None =>
                   Scheduler.processorInterval s' = None /\
                   Scheduler.timers s' = [] /\
                   Scheduler.started s' = Scheduler.started s /\
                   Scheduler.next_handle s' = Scheduler.next_handle s
               end).
  { intros m w0. destruct (start_result env m s w0) as (w' & E & _).
    eexists _, w'. split; [exact E|].
    destruct (asked_delay (Start m)) as [d|]; cbv zeta; simpl.
    - rewrite Ht, Hn, Hs. repeat split; reflexivity.
    - repeat split; assumption. }
  destruct op as [m| |m].
  - apply Hstart.
  - exists (stopEmailProcessor s), w. split; [reflexivity|]. simpl.
    repeat split; assumption.
  - unfold run_op, updateEmailProcessorInterval, bind at 1, loadDebugSetting.
    change (asked_delay (Update m)) with (asked_delay (Start m)). apply Hstart.
Qed.

(** X15: the timer of the scheduled pass.  After any sequence of calls
    of [startEmailProcessor], [stopEmailProcessor] and
    [updateEmailProcessorInterval], each running after the one before has
    returned, at most one timer is alive.  If the last call was a start or
    an update with a positive interval, that timer is the one held in
    [processorInterval], its delay is the interval in minutes times 60000,
    and the call has started one pass itself; after a stop, or an interval
    that is zero, negative or not a number, no timer is alive,
    [processorInterval] is empty and no pass was started. *)
Theorem one_timer_after_any_calls (env : Env) (ops : list Op) (op : Op) (w : World) :
  exists s s' w1 w2,
    run_ops env ops idle w = Ret s w1 /\
    run_op env op s w1 = Ret s' w2 /\
    match asked_delay op with
    | Some d =>
        (exists h, Scheduler.processorInterval s' = Some h /\
                   Scheduler.timers s' = [(h, d)]) /\
        Scheduler.started s' = S (Scheduler.started s)
    | None =>
        Scheduler.processorInterval s' = None /\
        Scheduler.timers s' = [] /\
        Scheduler.started s' = Scheduler.started s
    end.
Proof.
  assert (Hrun : exists s w1,
             run_ops env ops idle w = Ret s w1 /\
             forall h d, In (h, d) (Scheduler.timers s) ->
                         Scheduler.processorInterval s = Some h).
  { unfold run_ops.
    apply (for_fold_returns
             (fun s (_ : World) =>
                forall h d, In (h, d) (Scheduler.timers s) ->
                            Scheduler.processorInterval s = Some h)).
    - intros s o w0 Hown.
      destruct (run_op_result env o s w0 Hown) as (s' & w' & E & H).
      exists s', w'. split; [exact E|].
      destruct (asked_delay o) as [d|].
      + destruct H as (Hp & Ht & _). rewrite Hp, Ht.
        intros h d' [Heq|[]]. injection Heq as <- _. reflexivity.
      + destruct H as (_ & Ht & _). rewrite Ht. intros h d' [].
    - intros h d []. }
  destruct Hrun as (s & w1 & E1 & Hown).
  destruct (run_op_result env op s w1 Hown) as (s' & w2 & E2 & H).
  exists s, s', w1, w2. split; [exact E1|]. split; [exact E2|].
  destruct (asked_delay op) as [d|].
  - destruct H as (Hp & Ht & Hs & _). split; [|exact Hs].
    eexists. split; [exact Hp|exact Ht].
  - destruct H as (Hp & Ht & Hs & _). repeat split; assumption.
Qed.

(* ================================================================== *)
(** * The cache of the mail configuration *)
(* ================================================================== *)

Lemma read_config_fills (x : Surroundings) (s : MailService.t)
      (rows : list (string * string)) :
  MailService.dbInstance s = true ->
  settings_rows x = Some rows ->
  fst (read_config x s) = db_config (decrypt x) rows (env_config (getenv x)) /\
  MailService.cache_data (snd (read_config x s)) = Some (fst (read_config x s)) /\
  MailService.cache_lastFetch (snd (read_config x s)) = now x.
Proof.
  intros Hdb Hrows. unfold read_config. rewrite Hdb, Hrows. cbv zeta. simpl.
  repeat split.
Qed.

(** X16: the configuration of the mail service is cached for a minute.
    When a call of [getEmailConfigFromDB] finds no valid cache and reads
    the settings from the database, every call less than 60000 ms later
    returns the same configuration and reads nothing, whatever the
    settings and the environment have become; a call after
    [clearEmailConfigCache] reads them again at once. *)
Theorem config_is_cached_for_a_minute (x1 x2 : Surroundings) (s : MailService.t)
        (rows1 rows2 : list (string * string)) :
  MailService.dbInstance s = true ->
  cache_hit x1 s = false ->
  settings_rows x1 = Some rows1 ->
  settings_rows x2 = Some rows2 ->
  (now x2 - now x1 < cacheTTL)%Z ->
  let c1 := fst (getEmailConfigFromDB x1 s) in
  let s1 := snd (getEmailConfigFromDB x1 s) in
  c1 = db_config (decrypt x1) rows1 (env_config (getenv x1)) /\
  getEmailConfigFromDB x2 s1 = (c1, s1) /\
  fst (getEmailConfigFromDB x2 (clearEmailConfigCache s1)) =
    db_config (decrypt x2) rows2 (env_config (getenv x2)).
Proof.
  intros Hdb Hmiss Hrows1 Hrows2 Hsoon. cbv zeta.
  assert (E1 : getEmailConfigFromDB x1 s = read_config x1 s).
  { unfold getEmailConfigFromDB. unfold cache_hit in Hmiss.
    destruct (MailService.cache_data s); [|reflexivity].
    rewrite Hmiss. reflexivity. }
  rewrite E1.
  destruct (read_config_fills x1 s rows1 Hdb Hrows1) as (F1 & F2 & F3).
  split; [exact F1|]. split.
  - unfold getEmailConfigFromDB at 1. rewrite F2, F3.
    apply Z.ltb_lt in Hsoon. rewrite Hsoon.
    rewrite <- surjective_pairing. reflexivity.
  - unfold getEmailConfigFromDB. simpl MailService.cache_data.
    apply read_config_fills; [|exact Hrows2].
    simpl. unfold read_config. rewrite Hdb, Hrows1. reflexivity.
Qed.

Lemma config_is_cached_for_a_minute_witness :
  let s := {| MailService.dbInstance := true; MailService.cache_data := None;
              MailService.cache_lastFetch := 0%Z;
              MailService.graphClient := false; MailService.transporter := false |} in
  let x1 := {| now := 1000%Z; getenv := fun _ => EmptyString; decrypt := fun v => v;
               settings_rows := Some [("email_provider", "graph")] |} in
  let x2 := {| now := 60999%Z; getenv := fun _ => EmptyString; decrypt := fun v => v;
               settings_rows := Some [("email_provider", "smtp")] |} in
  EmailConfig.provider (fst (getEmailConfigFromDB x2 (snd (getEmailConfigFromDB x1 s))))
    = "graph" /\
  EmailConfig.provider
    (fst (getEmailConfigFromDB x2
            (clearEmailConfigCache (snd (getEmailConfigFromDB x1 s))))) = "smtp".
Proof.
  cbv zeta.
  destruct (config_is_cached_for_a_minute
              {| now := 1000%Z; getenv := fun _ => EmptyString; decrypt := fun v => v;
                 settings_rows := Some [("email_provider", "graph")] |}
              {| now := 60999%Z; getenv := fun _ => EmptyString; decrypt := fun v => v;
                 settings_rows := Some [("email_provider", "smtp")] |}
              {| MailService.dbInstance := true; MailService.cache_data := None;
                 MailService.cache_lastFetch := 0%Z;
                 MailService.graphClient := false; MailService.transporter := false |}
              [("email_provider", "graph")] [("email_provider", "smtp")]
              eq_refl eq_refl eq_refl eq_refl eq_refl) as (H1 & H2 & H3).
  split.
  - rewrite H2. reflexivity.
  - rewrite H3. reflexivity.
Defined.

(** X17: a failed read is not cached, and the last good configuration is
    not used in its place.  When the cache is not valid and the database
    is missing or its SELECT throws, [getEmailConfigFromDB] returns the
    configuration of the environment alone, also when an expired
    configuration from the database is still in the cache, and leaves the
    cache as it was, so that the next call tries the database again. *)
Theorem failed_config_read_is_not_cached (x x' : Surroundings) (s : MailService.t)
        (rows : list (string * string)) :
  cache_hit x s = false ->
  MailService.dbInstance s = false \/ settings_rows x = None ->
  (now x <= now x')%Z ->
  settings_rows x' = Some rows ->
  getEmailConfigFromDB x s = (env_config (getenv x), s) /\
  (MailService.dbInstance s = true ->
   fst (getEmailConfigFromDB x' (snd (getEmailConfigFromDB x s))) =
     db_config (decrypt x') rows (env_config (getenv x'))).
Proof.
  intros Hmiss Hfail Htime Hrows.
  assert (E : getEmailConfigFromDB x s = (env_config (getenv x), s)).
  { unfold getEmailConfigFromDB. unfold cache_hit in Hmiss.
    assert (R : read_config x s = (env_config (getenv x), s)).
    { unfold read_config. destruct Hfail as [-> | ->]; [reflexivity|].
      destruct (MailService.dbInstance s); reflexivity. }
    destruct (MailService.cache_data s); [rewrite Hmiss|]; exact R. }
  split; [exact E|]. intros Hdb. rewrite E. simpl snd.
  assert (Hmiss' : cache_hit x' s = false).
  { unfold cache_hit in *. destruct (MailService.cache_data s); [|reflexivity].
    apply Z.ltb_ge in Hmiss. apply Z.ltb_ge. lia. }
  unfold getEmailConfigFromDB. unfold cache_hit in Hmiss'.
  destruct (MailService.cache_data s); [rewrite Hmiss'|];
    apply read_config_fills; assumption.
Qed.

Lemma failed_config_read_is_not_cached_witness :
  let stale :=
    {| EmailConfig.provider := "graph"; EmailConfig.azureTenantId := "t";
       EmailConfig.azureClientId := "c"; EmailConfig.azureClientSecret := "s";
       EmailConfig.emailFrom := "inbox@example.com"; EmailConfig.emailInbox := EmptyString;
       EmailConfig.smtpHost := "smtp.office365.com"; EmailConfig.smtpPort := "587";
       EmailConfig.smtpUser := EmptyString; EmailConfig.smtpPassword := EmptyString |} in
  let s := {| MailService.dbInstance := true; MailService.cache_data := Some stale;
              MailService.cache_lastFetch := 0%Z;
              MailService.graphClient := true; MailService.transporter := false |} in
  let x := {| now := 60000%Z; getenv := fun _ => EmptyString; decrypt := fun v => v;
              settings_rows := None |} in
  EmailConfig.provider (fst (getEmailConfigFromDB x s)) = EmptyString /\
  snd (getEmailConfigFromDB x s) = s.
Proof.
  cbv zeta.
  destruct (failed_config_read_is_not_cached
              {| now := 60000%Z; getenv := fun _ => EmptyString; decrypt := fun v => v;
                 settings_rows := None |}
              {| now := 60001%Z; getenv := fun _ => EmptyString; decrypt := fun v => v;
                 settings_rows := Some [] |}
              {| MailService.dbInstance := true;
                 MailService.cache_data :=
                   Some {| EmailConfig.provider := "graph"; EmailConfig.azureTenantId := "t";
                           EmailConfig.azureClientId := "c";
                           EmailConfig.azureClientSecret := "s";
                           EmailConfig.emailFrom := "inbox@example.com";
                           EmailConfig.emailInbox := EmptyString;
                           EmailConfig.smtpHost := "smtp.office365.com";
                           EmailConfig.smtpPort := "587";
                           EmailConfig.smtpUser := EmptyString;
                           EmailConfig.smtpPassword := EmptyString |};
                 MailService.cache_lastFetch := 0%Z;
                 MailService.graphClient := true; MailService.transporter := false |}
              [] eq_refl (or_intror eq_refl)) as (H1 & _).
  - simpl. lia.
  - reflexivity.
  - rewrite H1. split; reflexivity.
Defined.

(* ================================================================== *)
(** * Routing and the letter case of the tag *)
(* ================================================================== *)

(** X18: routing ignores the letter case of the tag.  Two subjects that
    differ only in the letter case of their tag are parsed to the same tag
    and the same clean subject, and so both passes send them to the same
    module, or both to none. *)
Theorem routing_ignores_tag_case (X Y rest : string) (mods : list ModuleRow.t) :
  X <> EmptyString -> Y <> EmptyString ->
  no_rbracket X = true -> no_rbracket Y = true ->
  Js.toLowerCase X = Js.toLowerCase Y ->
  parseModuleTagFromSubject ("[" +++ X +++ "]" +++ rest) =
    parseModuleTagFromSubject ("[" +++ Y +++ "]" +++ rest) /\
  auto_route mods ("[" +++ X +++ "]" +++ rest) =
    auto_route mods ("[" +++ Y +++ "]" +++ rest) /\
  bulk_route mods ("[" +++ X +++ "]" +++ rest) =
    bulk_route mods ("[" +++ Y +++ "]" +++ rest).
Proof.
  intros HX HY HbX HbY Hcase.
  assert (E : parseModuleTagFromSubject ("[" +++ X +++ "]" +++ rest) =
              parseModuleTagFromSubject ("[" +++ Y +++ "]" +++ rest)).
  { unfold parseModuleTagFromSubject.
    change ("[" +++ X +++ "]" +++ rest) with (String "[" (X +++ String "]" rest)).
    change ("[" +++ Y +++ "]" +++ rest) with (String "[" (Y +++ String "]" rest)).
    rewrite (match_tag_bracketed X rest HX HbX), (match_tag_bracketed Y rest HY HbY).
    rewrite Hcase. reflexivity. }
  split; [exact E|]. unfold auto_route, bulk_route. rewrite E. split; reflexivity.
Qed.

Lemma routing_ignores_tag_case_witness :
  auto_route [Sample.support (ConfigObject true true)] "[SUPPORT] Broken chair" =
    auto_route [Sample.support (ConfigObject true true)] "[Support] Broken chair" /\
  bulk_route [Sample.support (ConfigObject true true)] "[SUPPORT] Broken chair" =
    bulk_route [Sample.support (ConfigObject true true)] "[Support] Broken chair".
Proof.
  apply (routing_ignores_tag_case "SUPPORT" "Support" " Broken chair"
           [Sample.support (ConfigObject true true)]).
  - discriminate.
  - discriminate.
  - reflexivity.
  - reflexivity.
  - reflexivity.
Defined.

(* ================================================================== *)
(** * The plain text of a message body *)
(* ================================================================== *)

(** X1: the description of a record made from a message body is tidy in
    either conversion, the processor's and the router's: it holds no three
    line feeds in a row, it has no white space at its ends, and it is
    empty when the body is. *)
Theorem plain_text_is_tidy (v : Variant) (html : string) :
  Js.includes (Re.nl +++ Re.nl +++ Re.nl) (plain_text v html) = false /\
  Js.trim (plain_text v html) = plain_text v html /\
  (Js.truthy html = false -> plain_text v html = EmptyString).
Proof.
  destruct (htmlToPlainText_white_space html) as [[I1 I2] [P1 P2]].
  assert (E : Js.truthy html = false ->
              Inbox.htmlToPlainText html = EmptyString /\
              Processor.htmlToPlainText html = EmptyString).
  { intros H. unfold Inbox.htmlToPlainText, Processor.htmlToPlainText.
    rewrite H. split; reflexivity. }
  destruct v; cbn [plain_text]; (split; [|split]); try assumption;
    intros H; apply (E H).
Qed.

(* ================================================================== *)
(** * Subjects that count as untagged *)
(* ================================================================== *)

Lemma is_ws_lower_char (c : ascii) :
  Js.is_ws c = true -> Js.lower_char c = c /\ Ascii.eqb c "]" = false.
Proof.
  destruct c as [[] [] [] [] [] [] [] []]; intros H;
    first [discriminate H | split; reflexivity].
Qed.

Lemma all_ws_plain (ws : string) :
  Js.all_ws ws = true ->
  Js.toLowerCase ws = ws /\ no_rbracket ws = true /\ Js.trim ws = EmptyString.
Proof.
  induction ws as [|c ws IH]; [intros _; repeat split|].
  cbn [Js.all_ws]. intros H. apply andb_true_iff in H. destruct H as [Hc Hws].
  destruct (IH Hws) as (I1 & I2 & I3).
  destruct (is_ws_lower_char c Hc) as [L1 L2].
  split; [|split].
  - unfold Js.toLowerCase in *. cbn [Js.map]. rewrite L1, I1. reflexivity.
  - cbn [no_rbracket]. rewrite L2, I2. reflexivity.
  - unfold Js.trim in *. cbn [Js.skip_ws]. rewrite Hc. exact I3.
Qed.

(** X19: which subjects count as untagged.  A subject that does not
    begin with an opening bracket has no module name, and neither has a
    subject whose brackets hold nothing or white space only: the parser
    returns no tag for the first and the empty tag for the second, which
    every pass treats as no tag, so that [POST /process] files the message as 'No module tag in subject'
    and the scheduled pass leaves it alone. *)
Theorem untagged_subjects (s ws rest : string) :
  Js.startsWith "[" s = false ->
  Js.all_ws ws = true ->
  named (moduleName (parseModuleTagFromSubject s)) = None /\
  named (moduleName (parseModuleTagFromSubject ("[" +++ ws +++ "]" +++ rest))) = None /\
  forall mods, auto_route mods ("[" +++ ws +++ "]" +++ rest) = None /\
               bulk_route mods ("[" +++ ws +++ "]" +++ rest) = None.
Proof.
  intros Hs Hws.
  assert (E : named (moduleName
                       (parseModuleTagFromSubject ("[" +++ ws +++ "]" +++ rest))) = None).
  { destruct (all_ws_plain ws Hws) as (L & B & T).
    unfold parseModuleTagFromSubject.
    change ("[" +++ ws +++ "]" +++ rest) with (String "[" (ws +++ String "]" rest)).
    destruct ws as [|c ws']; [reflexivity|].
    rewrite (match_tag_bracketed (String c ws') rest) by (discriminate || exact B).
    cbn [moduleName]. rewrite L, T. reflexivity. }
  split; [|split; [exact E|]].
  - unfold parseModuleTagFromSubject. rewrite (match_tag_no_bracket s Hs). reflexivity.
  - intros mods. unfold auto_route, bulk_route. rewrite E. split; reflexivity.
Qed.

Lemma untagged_subjects_witness :
  named (moduleName (parseModuleTagFromSubject "Re: [Support] chair")) = None /\
  named (moduleName (parseModuleTagFromSubject "[  ] Broken chair")) = None.
Proof.
  destruct (untagged_subjects "Re: [Support] chair" "  " " Broken chair"
              eq_refl eq_refl) as (H1 & H2 & _).
  split; [exact H1|exact H2].
Defined.

(* ================================================================== *)
(** * What a pass leaves alone *)
(* ================================================================== *)

Lemma post_process_single_steps_one (env : Env) (uploadsDir emailId : string)
      (bodyModuleName userEmail : option string) (w : World) :
  steps KSingle env (eq emailId) w
    (final (post_process_single env uploadsDir emailId bodyModuleName userEmail w)).
Proof.
  unfold post_process_single. cbv zeta. rewrite final_try_catch.
  match goal with
  | |- steps _ _ _ _ match ?body w with _ => _ end =>
      assert (H : steps KSingle env (eq emailId) w (final (body w)));
      [|destruct (body w); exact H]
  end.
  rewrite final_bind. unfold fetchInboxEmails.
  set (w1 := log_call (ListMessages 100 false) w).
  assert (S1 : steps KSingle env (eq emailId) w w1) by (apply steps_log_call; reflexivity).
  destruct (fetch_ok env); [|exact S1].
  destruct (find _ _) as [email|] eqn:Hfind; [|exact S1].
  pose proof (find_some _ _ Hfind) as [Hin Hid].
  apply String.eqb_eq in Hid. subst emailId.
  rewrite final_bind. unfold get_existing.
  destruct (existing_query_ok (msg_env env (Email.id email))); [|exact S1].
  change (ledgered (Email.id email) w1) with (ledgered (Email.id email) w).
  destruct (ledgered (Email.id email) w) eqn:Hfresh; [exact S1|].
  match goal with
  | |- steps _ _ _ _ (final (match ?t with _ => _ end w1)) =>
      destruct t as [target|]; [|exact S1]
  end.
  rewrite final_bind. unfold get_module.
  destruct (module_query_ok (msg_env env (Email.id email))); [|exact S1].
  destruct (find _ (modules w1)) as [module|]; [|exact S1].
  rewrite final_bind_pure by reflexivity.
  eapply steps_trans; [exact S1|].
  eapply (creation_steps (Single userEmail));
    [exact Hfresh| |discriminate|apply create_record_creation].
  change (keys w1) with (keys w). eapply fetched_keys. exact Hin.
Qed.

(** X20: a pass keeps to its messages.  The scheduled pass and
    [POST /process] leave every message that is not among the 50 unread
    messages they list as it was, and [POST /process-single/:emailId]
    every message but the one named: no ledger row and no record is
    written for such a message, it stands in the mailbox as before and
    [markEmailAsRead] is not called for it, however the pass ends. *)
Theorem passes_keep_to_their_messages (env : Env) (uploadsDir emailId : string)
        (bodyModuleName userEmail : option string) (w w' : World) (e : string) :
  (~ In e (List.map Email.id (listed 50 true (mailbox w))) /\
   (w' = final (processEmails env uploadsDir w) \/
    w' = final (post_process env uploadsDir w))) \/
  (e <> emailId /\
   w' = final (post_process_single env uploadsDir emailId bodyModuleName userEmail w)) ->
  rows_for e w' = rows_for e w /\
  records_for e w' = records_for e w /\
  in_mailbox e w' = in_mailbox e w /\
  read_requests e w' = read_requests e w.
Proof.
  intros [[Hout [->| ->]]|[Hne ->]].
  - apply (steps_untouched _ _ _ _ _ e (processEmails_steps_batch env uploadsDir w)).
    intros (x & Hx & Hid & _). apply Hout. rewrite <- Hid. apply in_map, Hx.
  - apply (steps_untouched _ _ _ _ _ e (post_process_steps_batch env uploadsDir w)).
    exact Hout.
  - apply (steps_untouched _ _ _ _ _ e
             (post_process_single_steps_one env uploadsDir emailId bodyModuleName
                userEmail w)).
    intros Heq. apply Hne. symmetry. exact Heq.
Qed.

Lemma passes_keep_to_their_messages_witness :
  rows_for "m2" (final (post_process_single Sample2.env_first_fails "/srv/uploads" "m1"
                          None None Sample2.world)) = [] /\
  read_requests "m2" (final (post_process_single Sample2.env_first_fails "/srv/uploads"
                               "m1" None None Sample2.world)) = [].
Proof.
  destruct (passes_keep_to_their_messages Sample2.env_first_fails "/srv/uploads" "m1"
              None None Sample2.world
              (final (post_process_single Sample2.env_first_fails "/srv/uploads" "m1"
                        None None Sample2.world)) "m2") as (H1 & _ & _ & H4).
  - right. split; [discriminate|reflexivity].
  - split; [exact H1|exact H4].
Defined.

(* ================================================================== *)
(** * Passes that end before the loop *)
(* ================================================================== *)

(** X21: the scheduled pass ends early without a trace.  When no active
    module has both [enableEmailInbox] and [autoProcessEmails] set, or the
    query for the modules throws, the pass does not call the mail service;
    when the listing of the mailbox fails, that call is its only one.  In
    all three cases no table, no file and no message changes, and the
    in-flight flag is released. *)
Theorem scheduled_pass_ends_early (env : Env) (uploadsDir : string) (w : World) :
  isProcessing w = false ->
  modules_query_ok env = false \/
  filter auto_enabled (filter ModuleRow.is_active (modules w)) = [] \/
  fetch_ok env = false ->
  let w' := final (processEmails env uploadsDir w) in
  (modules_query_ok env = true ->
   filter auto_enabled (filter ModuleRow.is_active (modules w)) <> [] ->
   calls w' = calls w ++ [ListMessages 50 true]) /\
  (modules_query_ok env = false \/
   filter auto_enabled (filter ModuleRow.is_active (modules w)) = [] ->
   calls w' = calls w) /\
  processed_emails w' = processed_emails w /\
  module_records w' = module_records w /\
  record_history w' = record_history w /\
  record_links w' = record_links w /\
  record_images w' = record_images w /\
  record_documents w' = record_documents w /\
  files w' = files w /\
  mailbox w' = mailbox w /\
  isProcessing w' = false.
Proof.
  intros Hbusy Hcase. cbv zeta.
  remember (final (processEmails env uploadsDir w)) as w' eqn:E.
  unfold processEmails in E. rewrite final_bind in E. unfold loadDebugSetting in E.
  match type of E with
  | context [set_debugLogging ?b w] => set (dbg := b) in E
  end.
  unfold bind at 1 in E. unfold read in E.
  change (isProcessing (set_debugLogging dbg w)) with (isProcessing w) in E.
  rewrite Hbusy in E. unfold bind at 1 in E. unfold modify in E.
  set (w1 := set_isProcessing true (set_debugLogging dbg w)) in E.
  unfold try_catch_finally, try_catch, bind at 1, all_active_modules in E.
  destruct (modules_query_ok env) eqn:Hq.
  2:{ simpl in E. subst w'. repeat split; try reflexivity. intros H; discriminate H. }
  change (modules w1) with (modules w) in E.
  destruct (filter auto_enabled (filter ModuleRow.is_active (modules w)))
    as [|m ms] eqn:Hmods.
  { simpl in E. subst w'. repeat split; try reflexivity.
    intros _ H. contradiction H. reflexivity. }
  destruct Hcase as [H|[H|Hfetch]]; [discriminate H|discriminate H|].
  cbn [List.length Nat.eqb] in E. unfold bind, fetchInboxEmails in E.
  rewrite Hfetch in E. simpl in E. subst w'.
  repeat split; try reflexivity.
  intros [H|H]; discriminate H.
Qed.

Lemma scheduled_pass_ends_early_witness :
  calls (final (processEmails Sample.env_ok "/srv/uploads"
                  (Sample.world (ConfigObject true false) Sample.tagged))) = [] /\
  processed_emails (final (processEmails Sample.env_ok "/srv/uploads"
                             (Sample.world (ConfigObject true false) Sample.tagged))) = [].
Proof.
  destruct (scheduled_pass_ends_early Sample.env_ok "/srv/uploads"
              (Sample.world (ConfigObject true false) Sample.tagged) eq_refl
              (or_intror (or_introl eq_refl))) as (_ & H2 & H3 & _).
  split; [exact (H2 (or_intror eq_refl))|exact H3].
Defined.

(* ================================================================== *)
(** * Messages without a tag *)
(* ================================================================== *)

(** The step of [POST /process] for a message without a tag and without
    ledger row, once the lookup in the ledger has succeeded: one INSERT,
    and the turn of the loop ends. *)
Lemma process_message_untagged_step (env : Env) (uploadsDir : string) (summary : Summary)
      (email : Email.t) (w : World) :
  named (moduleName (parseModuleTagFromSubject (Email.subject email))) = None ->
  ledgered (Email.id email) w = false ->
  existing_query_ok (msg_env env (Email.id email)) = true ->
  process_message env uploadsDir summary email w =
    if ledger_insert_ok (msg_env env (Email.id email))
    then Ret (push_skipped (Email.id email, "No module tag in subject") summary)
             (with_ledger_row (verdict_row email None skipped "No module tag in subject") w)
    else Exn w.
Proof.
  intros Htag Hfresh Hq. unfold process_message. cbv zeta.
  unfold bind, get_existing, insert_processed_email, ret.
  rewrite Hq, Hfresh, Htag. simpl Ledger.email_id. rewrite Hfresh.
  destruct (ledger_insert_ok (msg_env env (Email.id email))); reflexivity.
Qed.

(** The loop of [POST /process] over a batch with distinct ids that holds
    a message without a tag: either it completes the step of the message,
    and goes on with the messages behind it, or it throws before. *)
Lemma bulk_loop_untagged_cases (env : Env) (uploadsDir : string) (email : Email.t)
      (pre post : list Email.t) (acc : Summary) (w0 : World) :
  named (moduleName (parseModuleTagFromSubject (Email.subject email))) = None ->
  (forall x, In x (pre ++ email :: post) -> In (Email.id x, Email.subject x) (keys w0)) ->
  NoDup (List.map Email.id (pre ++ email :: post)) ->
  ledgered (Email.id email) w0 = false ->
  let row := verdict_row email None skipped "No module tag in subject" in
  let loop := for_fold (pre ++ email :: post) (process_message env uploadsDir) acc w0 in
  (records_for (Email.id email) (final loop) = records_for (Email.id email) w0 /\
   in_mailbox (Email.id email) (final loop) = in_mailbox (Email.id email) w0 /\
   read_requests (Email.id email) (final loop) = read_requests (Email.id email) w0) /\
  ((rows_for (Email.id email) (final loop) = [row] /\
    exists acc1 w1,
      for_fold pre (process_message env uploadsDir) acc w0 = Ret acc1 w1 /\
      loop = for_fold post (process_message env uploadsDir)
               (push_skipped (Email.id email, "No module tag in subject") acc1)
               (with_ledger_row row w1)) \/
   (rows_for (Email.id email) (final loop) = [] /\ exists w', loop = Exn w')).
Proof.
  intros Htag Hkeys Hnd Hfresh. cbv zeta.
  assert (Hpre_keys : forall x, In x pre -> In (Email.id x, Email.subject x) (keys w0)).
  { intros x Hx. apply Hkeys. apply in_or_app. left. exact Hx. }
  assert (Hout_pre : ~ ids_of pre (Email.id email)).
  { unfold ids_of. rewrite map_app in Hnd. simpl in Hnd.
    apply NoDup_remove_2 in Hnd. intros Hin. apply Hnd. apply in_or_app. left. exact Hin. }
  assert (Hout_post : ~ ids_of post (Email.id email)).
  { unfold ids_of. rewrite map_app in Hnd. simpl in Hnd.
    apply NoDup_remove_2 in Hnd. intros Hin. apply Hnd. apply in_or_app. right. exact Hin. }
  set (row := verdict_row email None skipped "No module tag in subject").
  pose proof (bulk_loop_steps env uploadsDir pre acc w0 Hpre_keys) as Spre.
  destruct (steps_untouched _ _ _ _ _ (Email.id email) Spre Hout_pre) as (U1 & U2 & U3 & U4).
  destruct (steps_frame _ _ _ _ _ Spre) as [_ Kpre].
  (* the loop throws before the step is completed, in a state [w1] that
     the messages listed before have led to *)
  assert (Hthrows : forall w1,
             for_fold (pre ++ email :: post) (process_message env uploadsDir) acc w0
               = Exn w1 ->
             final (for_fold pre (process_message env uploadsDir) acc w0) = w1 ->
             (records_for (Email.id email) w1 = records_for (Email.id email) w0 /\
              in_mailbox (Email.id email) w1 = in_mailbox (Email.id email) w0 /\
              read_requests (Email.id email) w1 = read_requests (Email.id email) w0) /\
             ((rows_for (Email.id email) w1 = [row] /\
               exists acc1 w2,
                 for_fold pre (process_message env uploadsDir) acc w0 = Ret acc1 w2 /\
                 Exn w1 = for_fold post (process_message env uploadsDir)
                            (push_skipped (Email.id email, "No module tag in subject") acc1)
                            (with_ledger_row row w2)) \/
              (rows_for (Email.id email) w1 = [] /\
               exists w', @Exn Summary w1 = Exn w'))).
  { intros w1 _ <-. split; [repeat split; assumption|]. right. split.
    - rewrite U1. apply ledgered_false_rows, Hfresh.
    - eexists. reflexivity. }
  destruct (for_fold pre (process_message env uploadsDir) acc w0) as [acc1 w1|w1] eqn:Epre.
  2:{ assert (E : for_fold (pre ++ email :: post) (process_message env uploadsDir) acc w0
                  = Exn w1) by (rewrite for_fold_app, Epre; reflexivity).
      rewrite E. cbn [final]. apply Hthrows; [exact E|reflexivity]. }
  cbn [final] in *.
  assert (Hfresh1 : ledgered (Email.id email) w1 = false).
  { apply ledgered_false_rows. rewrite U1. apply ledgered_false_rows, Hfresh. }
  assert (Eloop : for_fold (pre ++ email :: post) (process_message env uploadsDir) acc w0 =
                  match process_message env uploadsDir acc1 email w1 with
                  | Ret a w' => for_fold post (process_message env uploadsDir) a w'
                  | Exn w' => Exn w'
                  end) by (rewrite for_fold_app, Epre; reflexivity).
  destruct (existing_query_ok (msg_env env (Email.id email))) eqn:Hq.
  2:{ assert (E : process_message env uploadsDir acc1 email w1 = Exn w1).
      { unfold process_message. cbv zeta. unfold bind, get_existing. rewrite Hq. reflexivity. }
      rewrite E in Eloop. rewrite Eloop. cbn [final].
      apply Hthrows; [exact Eloop|reflexivity]. }
  rewrite (process_message_untagged_step env uploadsDir acc1 email w1 Htag Hfresh1 Hq)
    in Eloop.
  destruct (ledger_insert_ok (msg_env env (Email.id email))).
  2:{ rewrite Eloop. cbn [final]. apply Hthrows; [exact Eloop|reflexivity]. }
  fold row in Eloop.
  set (w2 := with_ledger_row row w1) in *.
  set (acc2 := push_skipped (Email.id email, "No module tag in subject") acc1) in *.
  assert (Hpost_keys : forall x, In x post -> In (Email.id x, Email.subject x) (keys w2)).
  { intros x Hx. change (keys w2) with (keys w1). rewrite Kpre.
    apply Hkeys. apply in_or_app. right. right. exact Hx. }
  pose proof (bulk_loop_steps env uploadsDir post acc2 w2 Hpost_keys) as Spost.
  destruct (steps_untouched _ _ _ _ _ (Email.id email) Spost Hout_post)
    as (V1 & V2 & V3 & V4).
  rewrite Eloop. split.
  - rewrite V2, V3, V4. repeat split; assumption.
  - left. split.
    + rewrite V1. exact (rows_for_fresh_row row w1 Hfresh1).
    + exists acc1, w1. split; reflexivity.
Qed.

(** ** Requests that name a message *)

Lemma requests_about_log_call (e : string) (c : Call) (w : World) :
  names e c = false -> requests_about e (log_call c w) = requests_about e w.
Proof. intros H. unfold requests_about, log_call. simpl. apply filter_snoc_out, H. Qed.

Lemma names_other (e i : string) : i <> e -> String.eqb i e = false.
Proof. intros H. destruct (String.eqb_spec i e); [contradiction|reflexivity]. Qed.

Lemma hushed_ret (e : string) {A} (a : A) : hushed e (ret a).
Proof. intros w. reflexivity. Qed.

Lemma hushed_bind (e : string) {A B} (m : M A) (k : A -> M B) :
  hushed e m -> (forall a, hushed e (k a)) -> hushed e (bind m k).
Proof.
  intros Hm Hk w. rewrite final_bind. specialize (Hm w).
  destruct (m w) as [a w'|w']; simpl in Hm; [|exact Hm].
  rewrite (Hk a w'). exact Hm.
Qed.

Lemma hushed_try_catch (e : string) {A} (m h : M A) :
  hushed e m -> hushed e h -> hushed e (try_catch m h).
Proof.
  intros Hm Hh w. rewrite final_try_catch. specialize (Hm w).
  destruct (m w) as [a w'|w']; simpl in Hm; [exact Hm|].
  rewrite (Hh w'). exact Hm.
Qed.

Lemma hushed_for_fold (e : string) {B S} (l : list B) (body : S -> B -> M S) (acc : S) :
  (forall a x, In x l -> hushed e (body a x)) -> hushed e (for_fold l body acc).
Proof.
  revert acc. induction l as [|x l IH]; intros acc Hb; simpl.
  - apply hushed_ret.
  - apply hushed_bind; [apply Hb; left; reflexivity|].
    intros a. apply IH. intros a' y Hy. apply Hb. right. exact Hy.
Qed.

Lemma hushed_for_each (e : string) {B} (l : list B) (body : B -> M unit) :
  (forall x, In x l -> hushed e (body x)) -> hushed e (for_each l body).
Proof.
  induction l as [|x l IH]; intros Hb; simpl.
  - apply hushed_ret.
  - apply hushed_bind; [apply Hb; left; reflexivity|].
    intros _. apply IH. intros y Hy. apply Hb. right. exact Hy.
Qed.

(** A statement of the database, or a write to the disk: no request at
    all. *)
Ltac hushed_statement :=
  intros w;
  repeat match goal with
         | |- context [if ?b then _ else _] => destruct b
         end; reflexivity.

(** A call of the mail service for the message [i], other than [e]. *)
Ltac hushed_call H :=
  intros w;
  repeat match goal with
         | |- context [if ?b then _ else _] => destruct b
         end;
  cbn [final];
  change (requests_about ?e (set_mailbox ?l ?w')) with (requests_about e w');
  apply requests_about_log_call; simpl; try reflexivity; apply names_other, H.

Lemma hushed_saveAttachments (e : string) (me : MsgEnv) (emailId : string)
      (recordId moduleId : nat) (userEmail : string) :
  emailId <> e -> hushed e (saveAttachments me emailId recordId moduleId userEmail).
Proof.
  intros Hne. unfold saveAttachments.
  apply hushed_bind; [unfold getEmailAttachments; hushed_call Hne|].
  intros [atts|]; [|apply hushed_ret].
  apply hushed_for_fold. intros counts a _.
  unfold save_attachment. cbv zeta.
  apply hushed_try_catch; [|apply hushed_ret].
  apply hushed_bind; [unfold downloadAttachment; hushed_call Hne|]. intros downloaded.
  destruct (negb downloaded); [apply hushed_ret|].
  apply hushed_bind; [unfold writeFileSync; hushed_statement|]. intros _.
  destruct (isImageContentType _).
  - apply hushed_bind; [unfold insert_image; hushed_statement|].
    intros _. apply hushed_ret.
  - apply hushed_bind; [unfold insert_document; hushed_statement|].
    intros _. apply hushed_ret.
Qed.

Lemma hushed_save_links (e : string) (v : Variant) (env : Env) (me : MsgEnv)
      (recordId moduleId : nat) (html : string) :
  hushed e (save_links v env me recordId moduleId html).
Proof.
  assert (Hlink : forall u t n, hushed e (save_link me recordId moduleId u t n)).
  { intros u t n. unfold save_link.
    apply hushed_try_catch; [|apply hushed_ret].
    apply hushed_bind; [unfold insert_link; hushed_statement|].
    intros _. apply hushed_ret. }
  destruct v; unfold save_links, saveLinks, saveEmailLinks;
    apply hushed_for_fold; intros n link _;
    try (destruct (2000 <? String.length (url link)); [apply hushed_ret|]);
    apply Hlink.
Qed.

(** Every request of [create_record] that names a message names its
    own. *)
Lemma hushed_create_record (e : string) (v : Variant) (env : Env) (uploadsDir : string)
      (email : Email.t) (module : ModuleRow.t) (cleanSubject : string) :
  Email.id email <> e ->
  hushed e (create_record v env uploadsDir email module cleanSubject).
Proof.
  intros Hne. unfold create_record. cbv zeta.
  apply hushed_bind; [unfold insert_module_record; hushed_statement|]. intros recordId.
  apply hushed_bind; [unfold insert_processed_email; hushed_statement|]. intros _.
  apply hushed_bind.
  { destruct (Js.truthy uploadsDir); [apply hushed_saveAttachments, Hne|apply hushed_ret]. }
  intros attachmentCounts.
  apply hushed_bind; [apply hushed_save_links|]. intros linkCount.
  apply hushed_bind; [unfold insert_history; hushed_statement|]. intros _.
  apply hushed_bind.
  { unfold sendAutoResponseEmail. intros w. cbn [final].
    apply requests_about_log_call. reflexivity. }
  intros sent.
  apply hushed_bind.
  { destruct sent; [unfold insert_history; hushed_statement|apply hushed_ret]. }
  intros _.
  apply hushed_bind; [unfold markEmailAsRead; hushed_call Hne|].
  intros _. apply hushed_ret.
Qed.

(** The turn of the loop of [POST /process] for a message other than
    [e], or without a tag. *)
Lemma hushed_process_message (e : string) (env : Env) (uploadsDir : string)
      (summary : Summary) (email : Email.t) :
  Email.id email <> e \/
  named (moduleName (parseModuleTagFromSubject (Email.subject email))) = None ->
  hushed e (process_message env uploadsDir summary email).
Proof.
  intros Hcase. unfold process_message. cbv zeta.
  apply hushed_bind; [unfold get_existing; hushed_statement|]. intros existing.
  destruct existing; [apply hushed_ret|].
  destruct (named _) as [name|] eqn:Hname.
  2:{ apply hushed_bind; [unfold insert_processed_email; hushed_statement|].
      intros _. apply hushed_ret. }
  destruct Hcase as [Hne|Hnone]; [|discriminate Hnone].
  apply hushed_bind; [unfold get_module; hushed_statement|]. intros [module|].
  2:{ apply hushed_bind; [unfold insert_processed_email; hushed_statement|].
      intros _. apply hushed_ret. }
  destruct (negb (inbox_enabled module)).
  { apply hushed_bind; [unfold insert_processed_email; hushed_statement|].
    intros _. apply hushed_ret. }
  apply hushed_bind; [apply hushed_create_record, Hne|]. intros r. apply hushed_ret.
Qed.

(** The same for the scheduled pass. *)
Lemma hushed_process_message_auto (e : string) (env : Env) (uploadsDir : string)
      (mods : list ModuleRow.t) (email : Email.t) :
  Email.id email <> e \/
  named (moduleName (parseModuleTagFromSubject (Email.subject email))) = None ->
  hushed e (process_message_auto env uploadsDir mods email).
Proof.
  intros Hcase. unfold process_message_auto. cbv zeta.
  apply hushed_bind; [unfold get_existing; hushed_statement|]. intros existing.
  destruct existing; [apply hushed_ret|].
  destruct (named _) as [name|] eqn:Hname; [|apply hushed_ret].
  destruct Hcase as [Hne|Hnone]; [|discriminate Hnone].
  destruct (find_auto_module mods name) as [module|]; [|apply hushed_ret].
  apply hushed_try_catch; [|apply hushed_ret].
  apply hushed_bind; [apply hushed_create_record, Hne|]. intros _. apply hushed_ret.
Qed.

(** In a batch with distinct ids, the message with the id [e] is the only
    one that can be asked about under that id; when it has no tag, the
    two passes make no request that names it. *)
Lemma passes_hushed (env : Env) (uploadsDir : string) (email : Email.t) (w : World) :
  NoDup (List.map Email.id (mailbox w)) ->
  In email (listed 50 true (mailbox w)) ->
  named (moduleName (parseModuleTagFromSubject (Email.subject email))) = None ->
  requests_about (Email.id email) (final (post_process env uploadsDir w)) =
    requests_about (Email.id email) w /\
  requests_about (Email.id email) (final (processEmails env uploadsDir w)) =
    requests_about (Email.id email) w.
Proof.
  intros Hids Hin Htag.
  pose proof (listed_ids_distinct 50 true (mailbox w) Hids) as Hnd.
  assert (Hbatch : forall x, In x (listed 50 true (mailbox w)) ->
             Email.id x <> Email.id email \/
             named (moduleName (parseModuleTagFromSubject (Email.subject x))) = None).
  { intros x Hx. destruct (String.eqb_spec (Email.id x) (Email.id email)) as [E|E];
      [right|left; exact E].
    assert (x = email) by (eapply NoDup_map_same; eassumption). subst x. exact Htag. }
  split.
  - set (w0 := log_call (ListMessages 50 true) w).
    assert (Hfinal : final (post_process env uploadsDir w) =
                     if fetch_ok env
                     then final (for_fold (listed 50 true (mailbox w))
                                   (process_message env uploadsDir) no_summary w0)
                     else w0).
    { unfold post_process. rewrite final_try_catch.
      match goal with
      | |- match ?body w with _ => _ end = _ =>
          assert (H : final (body w) =
                      if fetch_ok env
                      then final (for_fold (listed 50 true (mailbox w))
                                    (process_message env uploadsDir) no_summary w0)
                      else w0);
          [|destruct (body w); exact H]
      end.
      rewrite final_bind. unfold fetchInboxEmails. fold w0.
      destruct (fetch_ok env); [|reflexivity].
      rewrite final_bind_pure by reflexivity. reflexivity. }
    rewrite Hfinal.
    assert (H0 : requests_about (Email.id email) w0 = requests_about (Email.id email) w)
      by (apply requests_about_log_call; reflexivity).
    destruct (fetch_ok env); [|exact H0].
    rewrite <- H0. apply hushed_for_fold. intros a x Hx.
    apply hushed_process_message, Hbatch, Hx.
  - unfold processEmails. rewrite final_bind. unfold loadDebugSetting.
    match goal with
    | |- context [set_debugLogging ?b w] => set (dbg := b)
    end.
    rewrite final_bind. unfold read.
    change (isProcessing (set_debugLogging dbg w)) with (isProcessing w).
    destruct (isProcessing w); [reflexivity|].
    rewrite final_bind. unfold modify.
    set (w1 := set_isProcessing true (set_debugLogging dbg w)).
    change (requests_about (Email.id email) w) with (requests_about (Email.id email) w1).
    unfold try_catch_finally.
    match goal with
    | |- requests_about _ (final match try_catch ?body ?h w1 with _ => _ end) = _ =>
        assert (H : requests_about (Email.id email) (final (try_catch body h w1)) =
                    requests_about (Email.id email) w1);
        [|destruct (try_catch body h w1); exact H]
    end.
    rewrite final_try_catch.
    match goal with
    | |- requests_about _ match ?body w1 with _ => _ end = _ =>
        assert (H : requests_about (Email.id email) (final (body w1)) =
                    requests_about (Email.id email) w1);
        [|destruct (body w1); exact H]
    end.
    rewrite final_bind. unfold all_active_modules.
    destruct (modules_query_ok env); [|reflexivity].
    cbv zeta. destruct (List.length _ =? 0); [reflexivity|].
    rewrite final_bind. unfold fetchInboxEmails.
    change (mailbox w1) with (mailbox w).
    set (w2 := log_call (ListMessages 50 true) w1).
    assert (H2 : requests_about (Email.id email) w2 = requests_about (Email.id email) w1)
      by (apply requests_about_log_call; reflexivity).
    destruct (fetch_ok env); [|exact H2].
    rewrite <- H2. apply hushed_for_each. intros x Hx.
    apply hushed_process_message_auto, Hbatch, Hx.
Qed.

(** C3, amended.  Let a message have a subject without a tag (none, or an
    empty one).
    The step of [POST /process] for the message, taken in a state in which
    it has no ledger row and with a ledger lookup that succeeds, is one
    INSERT and nothing else: when the INSERT succeeds, the state after the
    step is the state before it with one more ledger row, of status
    'skipped', with the message 'No module tag in subject', no module id
    and no record id, and the message is added to the list [skipped]; when
    it throws, nothing is written.  No record, no history entry, no file
    and no call of the mail service comes with it.
    For a message of the batch that has no ledger row, ids being
    distinct, [POST /process] as a whole leaves that row as the only ledger
    row of the message, or none if the handler fails before the step is
    completed; it leaves [the row] whenever it answers with its summary; it
    creates no record for the message, leaves it in the mailbox as it is
    and makes no request to the mail service that names it (no
    [markEmailAsRead], no listing and no download of attachments); and
    when the row is there, the run is the handling of the messages listed
    before, this INSERT, and the handling of the messages listed behind.
    The scheduled pass writes no ledger row for the message and leaves it
    just as untouched: the turn of its loop for the message is the lookup
    in the ledger and nothing else. *)
Theorem untagged_message_is_skipped
  (env : Env) (uploadsDir : string) (email : Email.t) (w : World)
  (Hids : NoDup (List.map Email.id (mailbox w)))
  (Hin : In email (listed 50 true (mailbox w)))
  (Htag : named (moduleName (parseModuleTagFromSubject (Email.subject email))) = None)
  (Hfresh : ledgered (Email.id email) w = false) :
  let e := Email.id email in
  let row :=
    {| Ledger.email_id := e;
       Ledger.module_id := None;
       Ledger.record_id := None;
       Ledger.from_address := Email.fromAddress email;
       Ledger.from_name := Email.fromName email;
       Ledger.subject := Email.subject email;
       Ledger.body_preview := Email.bodyPreview email;
       Ledger.received_at := received_at email;
       Ledger.status := skipped;
       Ledger.error_message := Some "No module tag in subject" |} in
  let wb := final (post_process env uploadsDir w) in
  let wa := final (processEmails env uploadsDir w) in
  (forall summary w1,
      ledgered e w1 = false ->
      existing_query_ok (msg_env env e) = true ->
      process_message env uploadsDir summary email w1 =
        if ledger_insert_ok (msg_env env e)
        then Ret (push_skipped (e, "No module tag in subject") summary)
                 (set_ledger (processed_emails w1 ++ [row]) w1)
        else Exn w1) /\
  ((rows_for e wb = [row] \/ rows_for e wb = []) /\
   (forall summary total w',
       post_process env uploadsDir w = Ret (Processed summary total) w' ->
       rows_for e wb = [row]) /\
   records_for e wb = records_for e w /\
   in_mailbox e wb = in_mailbox e w /\
   read_requests e wb = read_requests e w /\
   requests_about e wb = requests_about e w /\
   (rows_for e wb = [row] ->
    exists pre post acc1 w1,
      listed 50 true (mailbox w) = pre ++ email :: post /\
      for_fold pre (process_message env uploadsDir) no_summary
               (log_call (ListMessages 50 true) w) = Ret acc1 w1 /\
      wb = final (for_fold post (process_message env uploadsDir)
                    (push_skipped (e, "No module tag in subject") acc1)
                    (set_ledger (processed_emails w1 ++ [row]) w1)))) /\
  (rows_for e wa = [] /\
   records_for e wa = records_for e w /\
   in_mailbox e wa = in_mailbox e w /\
   read_requests e wa = read_requests e w /\
   requests_about e wa = requests_about e w /\
   (forall autoProcessModules w1,
       process_message_auto env uploadsDir autoProcessModules email w1 =
         if existing_query_ok (msg_env env e) then Ret tt w1 else Exn w1)).
Proof.
  cbv zeta.
  pose proof (listed_ids_distinct 50 true (mailbox w) Hids) as Hnd.
  destruct (passes_hushed env uploadsDir email w Hids Hin Htag) as [Qb Qa].
  split; [|split].
  - intros summary w1 Hf Hq.
    exact (process_message_untagged_step env uploadsDir summary email w1 Htag Hf Hq).
  - set (w0 := log_call (ListMessages 50 true) w).
    assert (Hnone : rows_for (Email.id email) w = []) by (apply ledgered_false_rows, Hfresh).
    assert (Hreq0 : read_requests (Email.id email) w0 = read_requests (Email.id email) w).
    { unfold read_requests, w0, log_call. simpl. apply filter_snoc_out. reflexivity. }
    (* the final state is the one of the loop, or the one after a failed listing *)
    assert (Hfinal : final (post_process env uploadsDir w) =
                     if fetch_ok env
                     then final (for_fold (listed 50 true (mailbox w))
                                   (process_message env uploadsDir) no_summary w0)
                     else w0).
    { unfold post_process. rewrite final_try_catch.
      match goal with
      | |- match ?body w with _ => _ end = _ =>
          assert (H : final (body w) =
                      if fetch_ok env
                      then final (for_fold (listed 50 true (mailbox w))
                                    (process_message env uploadsDir) no_summary w0)
                      else w0);
          [|destruct (body w); exact H]
      end.
      rewrite final_bind. unfold fetchInboxEmails. fold w0.
      destruct (fetch_ok env); [|reflexivity].
      rewrite final_bind_pure by reflexivity. reflexivity. }
    destruct (in_split _ _ Hin) as (pre & post & Hbatch).
    assert (Hkeys : forall x, In x (pre ++ email :: post) ->
                              In (Email.id x, Email.subject x) (keys w0)).
    { intros x Hx. change (keys w0) with (keys w). apply (fetched_keys 50 true).
      rewrite Hbatch. exact Hx. }
    assert (Hnd' : NoDup (List.map Email.id (pre ++ email :: post)))
      by (rewrite <- Hbatch; exact Hnd).
    destruct (bulk_loop_untagged_cases env uploadsDir email pre post no_summary w0
                Htag Hkeys Hnd' Hfresh) as ((L2 & L3 & L4) & Lrows).
    rewrite <- Hbatch in L2, L3, L4, Lrows.
    rewrite Hfinal in Qb. rewrite Hfinal.
    destruct (fetch_ok env) eqn:Hfetch.
    + split; [destruct Lrows as [[R _]|[R _]]; [left|right]; exact R|].
      split.
      { intros summary total w' Hrun.
        destruct Lrows as [[R _]|[_ (wx & Ex)]]; [exact R|].
        exfalso. revert Hrun. unfold post_process, try_catch, bind at 1, fetchInboxEmails.
        rewrite Hfetch. fold w0. unfold bind. rewrite Ex. discriminate. }
      split; [exact L2|]. split; [exact L3|]. split; [rewrite L4; exact Hreq0|].
      split; [exact Qb|].
      intros Hrow. destruct Lrows as [[_ (acc1 & w1 & E1 & E2)]|[R _]].
      * exists pre, post, acc1, w1. split; [exact Hbatch|]. split; [exact E1|].
        rewrite E2. reflexivity.
      * rewrite R in Hrow. discriminate Hrow.
    + split; [right; exact Hnone|].
      split.
      { intros summary total w'. unfold post_process, try_catch, bind, fetchInboxEmails, ret.
        rewrite Hfetch. discriminate. }
      split; [reflexivity|]. split; [reflexivity|]. split; [exact Hreq0|].
      split; [exact Qb|].
      intros Hrow. change (rows_for (Email.id email) w0) with (rows_for (Email.id email) w)
        in Hrow. rewrite Hnone in Hrow. discriminate Hrow.
  - assert (Hno : ~ routed_ids (modules w) (listed 50 true (mailbox w)) (Email.id email)).
    { intros (x & Hx & Hid & Hr).
      assert (x = email) by (eapply NoDup_map_same; eassumption). subst x.
      apply Hr. unfold auto_route. rewrite Htag. reflexivity. }
    destruct (steps_untouched _ _ _ _ _ (Email.id email)
                (processEmails_steps_batch env uploadsDir w) Hno)
      as (U1 & U2 & U3 & U4).
    split; [rewrite U1; apply ledgered_false_rows, Hfresh|].
    split; [exact U2|]. split; [exact U3|]. split; [exact U4|]. split; [exact Qa|].
    intros autoProcessModules w1. unfold process_message_auto, bind, get_existing, ret.
    destruct (existing_query_ok (msg_env env (Email.id email))); [|reflexivity].
    destruct (ledgered (Email.id email) w1); [reflexivity|].
    cbv zeta. rewrite Htag. reflexivity.
Qed.

Lemma untagged_message_is_skipped_witness :
  List.map (fun r => (Ledger.status r, Ledger.error_message r,
                      Ledger.module_id r, Ledger.record_id r))
    (rows_for "m1"
       (final (post_process Sample.env_ok "/srv/uploads"
                 (Sample.world (ConfigObject true true) Sample.untagged))))
  = [(skipped, Some "No module tag in subject", None, None)]
  /\ final (post_process Sample.env_ok "/srv/uploads"
              (Sample.world (ConfigObject true true) Sample.untagged))
     = set_ledger [verdict_row Sample.untagged None skipped "No module tag in subject"]
         (log_call (ListMessages 50 true)
            (Sample.world (ConfigObject true true) Sample.untagged))
  /\ rows_for "m1"
       (final (processEmails Sample.env_ok "/srv/uploads"
                 (Sample.world (ConfigObject true true) Sample.untagged))) = [].
Proof.
  assert (Hrun : exists summary total wb,
             post_process Sample.env_ok "/srv/uploads"
               (Sample.world (ConfigObject true true) Sample.untagged)
             = Ret (Processed summary total) wb).
  { eexists _, _, _. vm_compute. reflexivity. }
  destruct Hrun as (summary & total & wb & Hrun).
  assert (Hids : NoDup (List.map Email.id
                          (mailbox (Sample.world (ConfigObject true true) Sample.untagged)))).
  { simpl. constructor; [intros []|constructor]. }
  pose proof (untagged_message_is_skipped Sample.env_ok "/srv/uploads" Sample.untagged
                _ Hids (or_introl eq_refl) eq_refl eq_refl) as H.
  cbv zeta in H. destruct H as (_ & (_ & Hb & _) & (Ha & _)).
  specialize (Hb _ _ _ Hrun).
  change (Email.id Sample.untagged) with "m1" in Hb, Ha.
  rewrite Hb. split; [reflexivity|]. split; [vm_compute; reflexivity|exact Ha].
Defined.

(* ================================================================== *)
(** * The in-flight flag *)
(* ================================================================== *)

(** ** The traced pass is the pass *)













(** ** Who writes the flag *)















